(** * pdf-filler: a shallow embedding of [pdf-filler.cpp]

    The development follows [src/native/src/pdf-filler.cpp] and
    [src/native/include/pdf-filler.h]: the public field model
    ([FieldType], [PdfFormField]), the session object ([PdfDocument::Impl])
    with its flatten cache and name index, the recursive field-tree
    flattener, the type-dispatched setters and the page renderer bridge.

    Poppler objects ([PDFDoc], [Form], [FormField], [FormWidget]) are the
    collaborators of that code.  They are represented by plain records; the
    [FormField*] pointers the code passes around are addresses into a heap
    of field nodes owned by the document, so that a child list may point
    anywhere, also back at an ancestor. *)

From Stdlib Require Import ZArith String Ascii PrimFloat.
From Stdlib.Strings Require Import Byte.
From stdpp Require Import base option list strings gmap pretty.

Local Open Scope string_scope.
Local Open Scope Z_scope.

(** ** Field types ([pdf-filler.h]) *)

Inductive FieldType : Set :=
| Unknown
| Text
| Button
| Checkbox
| Radio
| Choice
| Signature.

#[global] Instance FieldType_eq_dec : EqDecision FieldType.
Proof. solve_decision. Defined.

(** [fieldTypeToString]: the [switch] with its [default] branch. *)
Definition fieldTypeToString (type : FieldType) : string :=
  match type with
  | Text => "text"
  | Button => "button"
  | Checkbox => "checkbox"
  | Radio => "radio"
  | Choice => "choice"
  | Signature => "signature"
  | _ => "unknown"
  end.

(** [stringToFieldType]: the cascade of [if (str == ...) return ...]. *)
Definition stringToFieldType (str : string) : FieldType :=
  if String.eqb str "text" then Text
  else if String.eqb str "button" then Button
  else if String.eqb str "checkbox" then Checkbox
  else if String.eqb str "radio" then Radio
  else if String.eqb str "choice" then Choice
  else if String.eqb str "signature" then Signature
  else Unknown.

(** The record handed to callers.  [double] members are IEEE binary64
    values, [int] members are integers. *)
Record PdfFormField : Type := mkPdfFormField {
  name : string;
  fullName : string;
  value : string;
  defaultValue : string;
  type : FieldType;
  readOnly : bool;
  required : bool;
  pageIndex : Z;
  x : float;
  y : float;
  width : float;
  height : float;
  options : list string;
  exportValue : string;
  isChecked : bool
}.

(** The member initialisers of [struct PdfFormField]. *)
Definition PdfFormField_default : PdfFormField :=
  {| name := ""; fullName := ""; value := ""; defaultValue := "";
     type := Unknown; readOnly := false; required := false; pageIndex := 0;
     x := 0%float; y := 0%float; width := 0%float; height := 0%float;
     options := []; exportValue := ""; isChecked := false |}.


(** ** The Poppler object model used by the code

    Only the accessors that [pdf-filler.cpp] calls are represented.  A
    [GooString] is its byte string; a pointer that may be null is an
    [option]. *)

Definition GooString : Type := string.

Inductive FormFieldType : Set :=
| formButton
| formText
| formChoice
| formSignature
| formUndef.

#[global] Instance FormFieldType_eq_dec : EqDecision FormFieldType.
Proof. solve_decision. Defined.

Inductive FormButtonType : Set :=
| formButtonCheck
| formButtonPush
| formButtonRadio.

#[global] Instance FormButtonType_eq_dec : EqDecision FormButtonType.
Proof. solve_decision. Defined.

(** [FormWidget]: [getRect], [getWidgetAnnotation()->getPageNum()],
    [getType] and, for button widgets, [getOnStr] (a nullable C string). *)
Record FormWidget : Type := mkFormWidget {
  rect_x1 : float;
  rect_y1 : float;
  rect_x2 : float;
  rect_y2 : float;
  pageNum : Z;
  widgetType : FormFieldType;
  onStr : option string
}.

(** One entry of a [FormFieldChoice]: its label and its selection flag. *)
Record ChoiceOpt : Type := mkChoiceOpt {
  optionName : option GooString;
  selected : bool
}.

(** The part of a field node that depends on its class
    ([FormFieldText], [FormFieldChoice], [FormFieldButton],
    [FormFieldSignature]); the code reaches it with a [static_cast] after
    testing [getType()]. *)
Inductive FieldData : Type :=
| TextData (content : option GooString)
| ChoiceData (multiselect : bool) (choices : list ChoiceOpt)
| ButtonData (btype : FormButtonType) (appearanceState : string)
| SignatureData
| UndefData.

(** A [FormField*]: [None] is [nullptr], [Some a] is the address of a
    node. *)
Definition addr : Type := nat.
Definition FieldPtr : Type := option addr.

Record FormField : Type := mkFormField {
  partialName : option GooString;
  fullyQualifiedName : option GooString;
  isReadOnly : bool;
  widgets : list (option FormWidget);
  children : list FieldPtr;
  fieldData : FieldData
}.

Definition getType (field : FormField) : FormFieldType :=
  match fieldData field with
  | TextData _ => formText
  | ChoiceData _ _ => formChoice
  | ButtonData _ _ => formButton
  | SignatureData => formSignature
  | UndefData => formUndef
  end.

Definition getNumWidgets (field : FormField) : nat := length (widgets field).

Definition getWidget (field : FormField) (i : nat) : option FormWidget :=
  mjoin (widgets field !! i).

(** The document information dictionary, as far as [getTitle] and
    [getAuthor] inspect it: [getDocInfo] yields an object that is a
    dictionary or not, and a looked-up entry is a string or not. *)
Inductive InfoEntry : Type :=
| entryString (s : GooString)
| entryOther.

Inductive Object : Type :=
| objNull
| objDict (entries : list (string * InfoEntry)).

Fixpoint dictLookup (entries : list (string * InfoEntry)) (key : string) : InfoEntry :=
  match entries with
  | [] => entryOther
  | (k, v) :: rest => if String.eqb k key then v else dictLookup rest key
  end.

(** [Form]: [getNumFields] and [getRootField(i)]. *)
Record Form : Type := mkForm {
  rootFields : list FieldPtr
}.

(** [Catalog::getForm] may return null. *)
Record Catalog : Type := mkCatalog {
  getForm_cat : option Form
}.

(** [PDFDoc].  [fieldHeap] holds the field nodes the document owns, by
    address. *)
Record PDFDoc : Type := mkPDFDoc {
  isOk : bool;
  getErrorCode : Z;
  getNumPages : Z;
  getCatalog : option Catalog;
  getDocInfo : Object;
  fieldHeap : gmap addr FormField
}.

Inductive PDFWriteMode : Set :=
| writeStandard
| writeForceRewrite.

Definition errNone : Z := 0.

Record SplashBitmap : Type := mkSplashBitmap {
  bmWidth : Z;
  bmHeight : Z;
  bmRowSize : Z;
  bmData : list Byte.byte
}.

(** ** What the code calls outside itself

    The text codec of Poppler's [UTF.h], the document parser behind the
    [PDFDoc] constructor, the writer behind [saveAs] followed by reading the
    staging file back, the Splash rasteriser, libpng, the file streams of
    the host, and the reader of a button's state.  Nothing is assumed of
    them: every property below holds for whatever they compute. *)
Class Collaborators : Type := {
  TextStringToUtf8 : string -> string;
  utf8ToUtf16WithBom : string -> string;
  (** [PDFDoc(stream, ownerPw, userPw)] *)
  openDocument : list Byte.byte -> option GooString -> option GooString -> PDFDoc;
  (** [saveAs] to the staging path: its error code, and the bytes read back
      from the staging file ([None] when it cannot be opened). *)
  saveAs : PDFDoc -> PDFWriteMode -> Z * option (list Byte.byte);
  (** [displayPage] into a [SplashOutputDev], then [getBitmap] (nullable). *)
  displayPage : PDFDoc -> Z -> float -> option SplashBitmap;
  (** The libpng calls: [None] on any of the early [return {}] paths. *)
  encodePng : SplashBitmap -> option (list Byte.byte);
  (** [std::ifstream file(path, binary)]: [None] when it cannot be opened. *)
  readFile : string -> option (list Byte.byte);
  (** [std::ofstream file(path, binary)]: [None] when it cannot be opened,
      otherwise [file.good()] after the write. *)
  writeFile : string -> list Byte.byte -> option bool;
  (** [FormFieldButton::getState], on a button field and with the argument
      the code passes, the literal [0] of lines 226 and 229. *)
  getState : FormField -> Z -> bool
}.

(** ** Results of running the code

    The flattener recurses along child pointers, so the model runs it with
    fuel.  [OutOfFuel] says the recursion was still running when the fuel
    was used up; [Undefined] says a non-null [FormField*] that addresses no
    live node was dereferenced. *)
Inductive outcome (A : Type) : Type :=
| Done (a : A)
| OutOfFuel
| Undefined.

Arguments Done {A} a.
Arguments OutOfFuel {A}.
Arguments Undefined {A}.

#[global] Instance outcome_ret : MRet outcome := fun A a => Done a.
#[global] Instance outcome_bind : MBind outcome := fun A B k m =>
  match m with
  | Done a => k a
  | OutOfFuel => OutOfFuel
  | Undefined => Undefined
  end.

#[global] Instance outcome_fmap : FMap outcome := fun A B f m =>
  match m with
  | Done a => Done (f a)
  | OutOfFuel => OutOfFuel
  | Undefined => Undefined
  end.

(** A [for] loop over a list that threads an accumulator. *)
Fixpoint forEach {A S : Type} (body : A -> S -> outcome S) (l : list A) (acc : S)
  : outcome S :=
  match l with
  | [] => Done acc
  | a :: rest => acc' ← body a acc; forEach body rest acc'
  end.

(** ** Accessors of the Poppler field classes *)

(** Modelled from the spec: the accessors of [FormFieldChoice] belong to
    Poppler.  The spec lists them as the choice list and its selection: a
    choice field reports how many entries are selected, yields the label of
    the selected entry, enumerates every label, and [select(i)] selects the
    entry at an index.  A choice field is its list of entries, so the loops
    over [getChoice(i)] for [i < getNumChoices()] are recursions over that
    list.  [getSelectedChoice] is the first selected entry that has a label,
    and [select(i)] on a single-selection field drops the other selections
    first. *)
Definition getNumSelected (choices : list ChoiceOpt) : nat :=
  length (filter (fun c => selected c = true) choices).

Fixpoint getSelectedChoice (choices : list ChoiceOpt) : option GooString :=
  match choices with
  | [] => None
  | c :: rest =>
      match optionName c with
      | Some g => if selected c then Some g else getSelectedChoice rest
      | None => getSelectedChoice rest
      end
  end.

Definition unselectAll (choices : list ChoiceOpt) : list ChoiceOpt :=
  map (fun c => mkChoiceOpt (optionName c) false) choices.

Definition select (multiselect : bool) (choices : list ChoiceOpt) (i : nat)
  : list ChoiceOpt :=
  let base := if multiselect then choices else unselectAll choices in
  alter (fun c => mkChoiceOpt (optionName c) true) i base.

(** Modelled from the spec: [FormFieldButton::setState] belongs to
    Poppler.  The spec says of it that the setter sets the node's state to
    the on label or to the canonical off label: the node carries one state
    label, and [setState] replaces it. *)
Definition setState (btype : FormButtonType) (newState : string) : FieldData :=
  ButtonData btype newState.

(** ** The session object: [PdfDocument::Impl] *)

Record Impl : Type := mkImpl {
  doc_ : option PDFDoc;
  originalData_ : list Byte.byte;
  lastError_ : string;
  cachedFields_ : list PdfFormField;
  fieldMap_ : gmap string addr;
  fieldsCached_ : bool;
  modified_ : bool
}.

(** The state built by the constructor.  The constructor also sets up
    Poppler's global parameters, once per process; nothing below reads
    them. *)
Definition Impl_new : Impl :=
  {| doc_ := None; originalData_ := []; lastError_ := "";
     cachedFields_ := []; fieldMap_ := ∅;
     fieldsCached_ := false; modified_ := false |}.

Definition set_doc (d : option PDFDoc) (s : Impl) : Impl :=
  mkImpl d (originalData_ s) (lastError_ s) (cachedFields_ s) (fieldMap_ s)
         (fieldsCached_ s) (modified_ s).
Definition set_originalData (b : list Byte.byte) (s : Impl) : Impl :=
  mkImpl (doc_ s) b (lastError_ s) (cachedFields_ s) (fieldMap_ s)
         (fieldsCached_ s) (modified_ s).
Definition set_lastError (e : string) (s : Impl) : Impl :=
  mkImpl (doc_ s) (originalData_ s) e (cachedFields_ s) (fieldMap_ s)
         (fieldsCached_ s) (modified_ s).
Definition set_cachedFields (c : list PdfFormField) (s : Impl) : Impl :=
  mkImpl (doc_ s) (originalData_ s) (lastError_ s) c (fieldMap_ s)
         (fieldsCached_ s) (modified_ s).
Definition set_fieldMap (m : gmap string addr) (s : Impl) : Impl :=
  mkImpl (doc_ s) (originalData_ s) (lastError_ s) (cachedFields_ s) m
         (fieldsCached_ s) (modified_ s).
Definition set_fieldsCached (b : bool) (s : Impl) : Impl :=
  mkImpl (doc_ s) (originalData_ s) (lastError_ s) (cachedFields_ s)
         (fieldMap_ s) b (modified_ s).
Definition set_modified (b : bool) (s : Impl) : Impl :=
  mkImpl (doc_ s) (originalData_ s) (lastError_ s) (cachedFields_ s)
         (fieldMap_ s) (fieldsCached_ s) b.

(** Dereferencing a non-null [FormField*] held by the session. *)
Definition deref (s : Impl) (a : addr) : outcome FormField :=
  match doc_ s with
  | None => Undefined
  | Some doc =>
      match fieldHeap doc !! a with
      | None => Undefined
      | Some node => Done node
      end
  end.

(** A setter of a Poppler field class writes through the pointer. *)
Definition storeField (a : addr) (node : FormField) (s : Impl) : Impl :=
  match doc_ s with
  | None => s
  | Some doc =>
      set_doc (Some (mkPDFDoc (isOk doc) (getErrorCode doc) (getNumPages doc)
                              (getCatalog doc) (getDocInfo doc)
                              (<[a := node]> (fieldHeap doc)))) s
  end.

Definition withData (node : FormField) (d : FieldData) : FormField :=
  mkFormField (partialName node) (fullyQualifiedName node) (isReadOnly node)
              (widgets node) (children node) d.

Section Code.
Context {poppler : Collaborators}.

(** [gooToStd] and [gooToRaw], on a nullable [GooString*]. *)
Definition gooToStd (gs : option GooString) : string :=
  match gs with
  | None => ""
  | Some g => TextStringToUtf8 g
  end.

Definition gooToRaw (gs : option GooString) : string :=
  match gs with
  | None => ""
  | Some g => g
  end.

Definition convertFieldType (t : FormFieldType) : FieldType :=
  match t with
  | formText => Text
  | formButton => Button
  | formChoice => Choice
  | formSignature => Signature
  | _ => Unknown
  end.

(** The names of the record a terminal node is flattened to (lines
    175-178 of [collectFieldsRecursive]). *)
Definition recordFullName (field : FormField) : string :=
  match fullyQualifiedName field with
  | Some g => gooToStd (Some g)
  | None => ""
  end.

Definition recordName (field : FormField) : string :=
  match partialName field with
  | Some g => gooToStd (Some g)
  | None => recordFullName field
  end.

(** The [options] loop of the [formChoice] case. *)
Fixpoint choiceLabels (choices : list ChoiceOpt) : list string :=
  match choices with
  | [] => []
  | c :: rest =>
      match optionName c with
      | Some g => gooToStd (Some g) :: choiceLabels rest
      | None => choiceLabels rest
      end
  end.

(** The record [ff] built for a terminal node: names, type, flags, the
    value by field class, and the geometry of widget 0. *)
Definition makeRecord (field : FormField) : PdfFormField :=
  let ff_type :=
    match fieldData field with
    | ButtonData formButtonCheck _ => Checkbox
    | ButtonData formButtonRadio _ => Radio
    | ButtonData _ _ => Button
    | SignatureData => Signature
    | _ => convertFieldType (getType field)
    end in
  let ff_value :=
    match fieldData field with
    | TextData content =>
        match content with Some g => gooToStd (Some g) | None => "" end
    | ChoiceData _ choices =>
        if (0 <? getNumSelected choices)%nat then
          match getSelectedChoice choices with
          | Some g => gooToStd (Some g)
          | None => ""
          end
        else ""
    | _ => ""
    end in
  let ff_options :=
    match fieldData field with
    | ChoiceData _ choices => choiceLabels choices
    | _ => []
    end in
  let ff_isChecked :=
    match fieldData field with
    | ButtonData formButtonCheck _ => getState field 0
    | ButtonData formButtonRadio _ => getState field 0
    | _ => false
    end in
  let geometry :=
    match getWidget field 0 with
    | Some widget =>
        (rect_x1 widget, rect_y1 widget,
         PrimFloat.sub (rect_x2 widget) (rect_x1 widget),
         PrimFloat.sub (rect_y2 widget) (rect_y1 widget),
         pageNum widget - 1)
    | None => (0%float, 0%float, 0%float, 0%float, 0)
    end in
  {| name := recordName field;
     fullName := recordFullName field;
     value := ff_value;
     defaultValue := "";
     type := ff_type;
     readOnly := isReadOnly field;
     required := false;
     pageIndex := geometry.2;
     x := geometry.1.1.1.1;
     y := geometry.1.1.1.2;
     width := geometry.1.1.2;
     height := geometry.1.2;
     options := ff_options;
     exportValue := "";
     isChecked := ff_isChecked |}.

(** The two index updates made for a terminal node (lines 181-186). *)
Definition indexField (a : addr) (ff : PdfFormField) (fieldMap : gmap string addr)
  : gmap string addr :=
  let fieldMap :=
    if negb (String.eqb (fullName ff) "") then <[fullName ff := a]> fieldMap
    else fieldMap in
  if negb (String.eqb (name ff) "") && negb (String.eqb (name ff) (fullName ff))
  then <[name ff := a]> fieldMap
  else fieldMap.

(** The body of [if (numWidgets > 0)]: a terminal node adds its record
    to [output] and its names to [fieldMap]. *)
Definition visit (a : addr) (node : FormField)
    (acc : list PdfFormField * gmap string addr)
  : list PdfFormField * gmap string addr :=
  if (0 <? getNumWidgets node)%nat then
    let ff := makeRecord node in
    ((acc.1 ++ [ff])%list, indexField a ff acc.2)
  else acc.

(** [collectFieldsRecursive].  The heap is the one of the loaded
    document; [acc] holds the two reference parameters [output] and
    [fieldMap]. *)
Fixpoint collectFieldsRecursive (fuel : nat) (heap : gmap addr FormField)
    (field : FieldPtr) (acc : list PdfFormField * gmap string addr)
  : outcome (list PdfFormField * gmap string addr) :=
  match field with
  | None => Done acc
  | Some a =>
      match fuel with
      | O => OutOfFuel
      | S fuel' =>
          match heap !! a with
          | None => Undefined
          | Some node =>
              forEach (collectFieldsRecursive fuel' heap) (children node)
                      (visit a node acc)
          end
      end
  end.

Definition getForm (s : Impl) : option Form :=
  match doc_ s with
  | None => None
  | Some doc =>
      match getCatalog doc with
      | None => None
      | Some catalog => getForm_cat catalog
      end
  end.

(** [cacheFormFields]: nothing to do when the cache is marked valid or no
    document is held; otherwise the cache is cleared and rebuilt, and the
    index is written into as it stands. *)
Definition cacheFormFields (fuel : nat) (s : Impl) : outcome Impl :=
  match fieldsCached_ s, doc_ s with
  | true, _ => Done s
  | false, None => Done s
  | false, Some doc =>
      let s := set_cachedFields [] s in
      match getForm s with
      | None => Done (set_fieldsCached true s)
      | Some form =>
          acc ← forEach (collectFieldsRecursive fuel (fieldHeap doc))
                        (rootFields form) (cachedFields_ s, fieldMap_ s);
          Done (set_fieldsCached true
                  (set_fieldMap acc.2 (set_cachedFields acc.1 s)))
      end
  end.

Definition findFormField (fuel : nat) (s : Impl) (name : string)
  : outcome (FieldPtr * Impl) :=
  s ← cacheFormFields fuel s;
  Done (fieldMap_ s !! name, s).

(** *** Loading *)

Definition loadFromMemory (s : Impl) (data : list Byte.byte) (password : string)
  : bool * Impl :=
  let s := set_originalData data s in
  let ownerPw := if String.eqb password "" then None else Some password in
  let userPw := if String.eqb password "" then None else Some password in
  let doc := openDocument (originalData_ s) ownerPw userPw in
  if negb (isOk doc) then
    (false,
     set_doc None
       (set_lastError
          ("Failed to load PDF: error code " +:+ pretty (getErrorCode doc)) s))
  else
    (true, set_modified false (set_fieldsCached false (set_doc (Some doc) s))).

Definition loadFromFile (s : Impl) (path : string) (password : string)
  : bool * Impl :=
  match readFile path with
  | None => (false, set_lastError ("Failed to open file: " +:+ path) s)
  | Some bytes =>
      let s := set_originalData bytes s in
      loadFromMemory s (originalData_ s) password
  end.

(** *** The setters of [Impl] *)

Definition setTextFieldValue (fuel : nat) (s : Impl) (name value : string)
  : outcome (bool * Impl) :=
  r ← findFormField fuel s name;
  let s := r.2 in
  match r.1 with
  | None => Done (false, set_lastError ("Field not found: " +:+ name) s)
  | Some a =>
      node ← deref s a;
      match fieldData node with
      | TextData _ =>
          let pdfStr := utf8ToUtf16WithBom value in
          let s := storeField a (withData node (TextData (Some pdfStr))) s in
          Done (true, set_fieldsCached false (set_modified true s))
      | _ =>
          Done (false, set_lastError ("Field is not a text field: " +:+ name) s)
      end
  end.

(** The scan of [setChoiceFieldValue]: the first index [i] whose label is
    present and decodes to [value], or [-1]. *)
Fixpoint scanChoices (choices : list ChoiceOpt) (value : string) (i : Z) : Z :=
  match choices with
  | [] => -1
  | c :: rest =>
      match optionName c with
      | Some g =>
          if String.eqb (gooToStd (Some g)) value then i
          else scanChoices rest value (i + 1)
      | None => scanChoices rest value (i + 1)
      end
  end.

Definition setChoiceFieldValue (fuel : nat) (s : Impl) (name value : string)
  : outcome (bool * Impl) :=
  r ← findFormField fuel s name;
  let s := r.2 in
  match r.1 with
  | None => Done (false, set_lastError ("Field not found: " +:+ name) s)
  | Some a =>
      node ← deref s a;
      match fieldData node with
      | ChoiceData multiselect choices =>
          let selectedIdx := scanChoices choices value 0 in
          if selectedIdx <? 0 then
            Done (false,
                  set_lastError ("Value not in choice options: " +:+ value) s)
          else
            let choices' := select multiselect choices (Z.to_nat selectedIdx) in
            let s := storeField a (withData node (ChoiceData multiselect choices')) s in
            Done (true, set_fieldsCached false (set_modified true s))
      | _ =>
          Done (false, set_lastError ("Field is not a choice field: " +:+ name) s)
      end
  end.

(** The on-state name taken from widget 0, with the fallback [Yes]. *)
Definition checkedStateOf (node : FormField) : string :=
  let fromWidget :=
    if (0 <? getNumWidgets node)%nat then
      match getWidget node 0 with
      | Some widget =>
          if decide (widgetType widget = formButton) then onStr widget else None
      | None => None
      end
    else None in
  match fromWidget with
  | None => "Yes"
  | Some cs => if String.eqb cs "" then "Yes" else cs
  end.

Definition setButtonFieldValue (fuel : nat) (s : Impl) (name : string)
    (checked : bool) : outcome (bool * Impl) :=
  r ← findFormField fuel s name;
  let s := r.2 in
  match r.1 with
  | None => Done (false, set_lastError ("Field not found: " +:+ name) s)
  | Some a =>
      node ← deref s a;
      match fieldData node with
      | ButtonData btnType _ =>
          if decide (btnType <> formButtonCheck /\ btnType <> formButtonRadio)
          then Done (true, s)
          else
            let checkedState := checkedStateOf node in
            let newState := if checked then checkedState else "Off" in
            let s := storeField a (withData node (setState btnType newState)) s in
            Done (true, set_fieldsCached false (set_modified true s))
      | _ =>
          Done (false, set_lastError ("Field is not a button field: " +:+ name) s)
      end
  end.

(** *** The public operations of [PdfDocument] *)

Definition getPageCount (s : Impl) : Z :=
  match doc_ s with
  | Some doc => getNumPages doc
  | None => 0
  end.

Definition getTitle (s : Impl) : string :=
  match doc_ s with
  | None => ""
  | Some doc =>
      match getDocInfo doc with
      | objDict entries =>
          match dictLookup entries "Title" with
          | entryString g => gooToStd (Some g)
          | _ => ""
          end
      | _ => ""
      end
  end.

Definition getAuthor (s : Impl) : string :=
  match doc_ s with
  | None => ""
  | Some doc =>
      match getDocInfo doc with
      | objDict entries =>
          match dictLookup entries "Author" with
          | entryString g => gooToStd (Some g)
          | _ => ""
          end
      | _ => ""
      end
  end.

Definition hasAcroForm (s : Impl) : bool :=
  match getForm s with
  | Some _ => true
  | None => false
  end.

Definition getFormFields (fuel : nat) (s : Impl)
  : outcome (list PdfFormField * Impl) :=
  s ← cacheFormFields fuel s;
  Done (cachedFields_ s, s).

(** The loop of [getFieldByName]; the result is the record the returned
    pointer addresses. *)
Fixpoint findRecord (fields : list PdfFormField) (n : string)
  : option PdfFormField :=
  match fields with
  | [] => None
  | field :: rest =>
      if String.eqb (name field) n || String.eqb (fullName field) n
      then Some field
      else findRecord rest n
  end.

Definition getFieldByName (fuel : nat) (s : Impl) (n : string)
  : outcome (option PdfFormField * Impl) :=
  s ← cacheFormFields fuel s;
  Done (findRecord (cachedFields_ s) n, s).

Definition setFieldValue (fuel : nat) (s : Impl) (name value : string)
  : outcome (bool * Impl) :=
  r ← findFormField fuel s name;
  let s := r.2 in
  match r.1 with
  | None => Done (false, set_lastError ("Field not found: " +:+ name) s)
  | Some a =>
      node ← deref s a;
      match getType node with
      | formText => setTextFieldValue fuel s name value
      | formChoice => setChoiceFieldValue fuel s name value
      | formButton =>
          setButtonFieldValue fuel s name
            (negb (String.eqb value "") && negb (String.eqb value "0")
             && negb (String.eqb value "false"))
      | _ => Done (false, set_lastError "Unsupported field type for setValue" s)
      end
  end.

Definition setCheckboxValue (fuel : nat) (s : Impl) (name : string)
    (checked : bool) : outcome (bool * Impl) :=
  setButtonFieldValue fuel s name checked.

(** [setFieldValues]: the accumulator is [allSuccess] together with the
    session. *)
Definition setFieldValues (fuel : nat) (s : Impl) (values : list (string * string))
  : outcome (bool * Impl) :=
  forEach
    (fun (nv : string * string) (acc : bool * Impl) =>
       setFieldValue fuel acc.2 nv.1 nv.2 ≫= fun r : bool * Impl =>
       Done ((if r.1 then acc.1 else false), r.2))
    values (true, s).

(** [flattenForm]: the loop over the pages and their annotations has an
    empty body, so what remains is the two checks and the dirty flag. *)
Definition flattenForm (s : Impl) : bool * Impl :=
  match doc_ s with
  | None => (false, set_lastError "No document loaded" s)
  | Some _ =>
      match getForm s with
      | None => (false, set_lastError "Document has no form" s)
      | Some _ => (true, set_modified true s)
      end
  end.

Definition saveToMemory (s : Impl) : list Byte.byte * Impl :=
  match doc_ s with
  | None => ([], set_lastError "No document loaded" s)
  | Some doc =>
      let writeMode := if modified_ s then writeForceRewrite else writeStandard in
      let saved := saveAs doc writeMode in
      if negb (saved.1 =? errNone) then
        ([], set_lastError ("Failed to save PDF: error code " +:+ pretty (saved.1)) s)
      else
        match saved.2 with
        | None => ([], set_lastError "Failed to read saved PDF" s)
        | Some output => (output, s)
        end
  end.

Definition saveToFile (s : Impl) (path : string) : bool * Impl :=
  let r := saveToMemory s in
  let s := r.2 in
  match r.1 with
  | [] => (false, s)
  | data =>
      match writeFile path data with
      | None =>
          (false, set_lastError ("Failed to open file for writing: " +:+ path) s)
      | Some good => (good, s)
      end
  end.

(** [renderPageToPng]: the guard, then the rasteriser and the encoder. *)
Definition renderPageToPng (s : Impl) (pageIndex : Z) (dpi : float)
  : list Byte.byte * Impl :=
  match doc_ s with
  | None => ([], s)
  | Some doc =>
      if (pageIndex <? 0) || (pageIndex >=? getNumPages doc) then ([], s)
      else
        match displayPage doc (pageIndex + 1) dpi with
        | None => ([], set_lastError "Failed to render page" s)
        | Some bitmap =>
            match encodePng bitmap with
            | None => ([], s)
            | Some pngData => (pngData, s)
            end
        end
  end.

End Code.

(** ** Notions the properties are stated with *)

(** [treeWithin heap d p]: every chain of child pointers that starts at [p]
    stays inside the heap and ends after at most [d] nodes.  A heap in
    which a node is its own descendant satisfies this for no [d]. *)
Fixpoint treeWithin (heap : gmap addr FormField) (d : nat) (p : FieldPtr) : bool :=
  match p with
  | None => true
  | Some a =>
      match d with
      | O => false
      | S d' =>
          match heap !! a with
          | None => false
          | Some node => forallb (treeWithin heap d') (children node)
          end
      end
  end.

(** [childOf heap a b]: node [a] lists [b] among its children. *)
Definition childOf (heap : gmap addr FormField) (a b : addr) : Prop :=
  exists node, heap !! a = Some node /\ Some b ∈ children node.

(** The form of a document, if it has one. *)
Definition formOf (doc : PDFDoc) : option Form :=
  getCatalog doc ≫= getForm_cat.

(** The field trees under all root fields of [doc] have depth at most
    [d]. *)
Definition docWithin (d : nat) (doc : PDFDoc) : bool :=
  match formOf doc with
  | None => true
  | Some form => forallb (treeWithin (fieldHeap doc) d) (rootFields form)
  end.

(** Every index entry addresses a node of [doc]. *)
Definition indexSound (doc : PDFDoc) (index : gmap string addr) : Prop :=
  forall n a, index !! n = Some a -> is_Some (fieldHeap doc !! a).

(** A session whose pointers are all good: the field trees of the held
    document have depth at most [d] and every index entry addresses one of
    its nodes; without a document the index is empty. *)
Definition sessionOk (d : nat) (s : Impl) : Prop :=
  match doc_ s with
  | None => fieldMap_ s = ∅
  | Some doc => docWithin d doc = true /\ indexSound doc (fieldMap_ s)
  end.

(** Every cached record can be addressed through the index: by its full
    name when that is not empty, and by its name when that is not empty and
    differs from the full name. *)
Definition indexCovers (cache : list PdfFormField) (index : gmap string addr)
  : Prop :=
  forall r, r ∈ cache ->
    (fullName r <> "" -> is_Some (index !! fullName r))
    /\ (name r <> "" -> name r <> fullName r -> is_Some (index !! name r)).

(** Cache and index are mutually consistent, as the spec words it: the keys
    of the index are exactly the non-empty names and full names of the
    cached records. *)
Definition mutuallyConsistent (cache : list PdfFormField)
    (index : gmap string addr) : Prop :=
  forall n, is_Some (index !! n) <->
            n <> "" /\ exists r, r ∈ cache /\ (fullName r = n \/ name r = n).

(** The three ways a setter leaves the session [s] in which it resolved the
    identifier: an error recorded, nothing changed, or one node's data
    replaced with both flags set accordingly. *)
Definition setterEffect (s : Impl) (r : bool * Impl) : Prop :=
  (exists e, r = (false, set_lastError e s))
  \/ r = (true, s)
  \/ (exists a node data,
        deref s a = Done node
        /\ r = (true,
                set_fieldsCached false
                  (set_modified true (storeField a (withData node data) s)))).

(** The identifier [name] resolves, in [s], to a push button. *)
Definition pushButtonAt (s : Impl) (name : string) : Prop :=
  exists a node st,
    fieldMap_ s !! name = Some a /\ deref s a = Done node
    /\ fieldData node = ButtonData formButtonPush st.

Section Specification.
Context {poppler : Collaborators}.

(** The cache and the index are what one traversal of [doc] produces. *)
Definition flattenedFrom (doc : PDFDoc) (cache : list PdfFormField)
    (index : gmap string addr) : Prop :=
  match formOf doc with
  | None => cache = []
  | Some form =>
      exists fuel index0,
        forEach (collectFieldsRecursive fuel (fieldHeap doc))
                (rootFields form) ([], index0) = Done (cache, index)
  end.

(** An option of a choice field matches [value] when it has a label and
    the label decodes to exactly [value]. *)
Definition optionMatches (value : string) (c : ChoiceOpt) : Prop :=
  exists g, optionName c = Some g /\ TextStringToUtf8 g = value.

(** The session is in order when every cached record is covered by the
    index and, while the cache is marked valid and a document is held,
    cache and index are a traversal of that document. *)
Definition cacheInOrder (s : Impl) : Prop :=
  indexCovers (cachedFields_ s) (fieldMap_ s)
  /\ (fieldsCached_ s = true -> forall doc, doc_ s = Some doc ->
        flattenedFrom doc (cachedFields_ s) (fieldMap_ s)).

(** The reading of a text value as a boolean in [setFieldValue]. *)
Definition meansChecked (value : string) : bool :=
  negb (String.eqb value "") && negb (String.eqb value "0")
  && negb (String.eqb value "false").

(** What each setter does once the identifier has been resolved, in the
    session [s] left by [cacheFormFields], to the node [node] at address
    [a]. *)
Definition applyText (s : Impl) (name value : string) (a : addr)
    (node : FormField) : bool * Impl :=
  match fieldData node with
  | TextData _ =>
      (true,
       set_fieldsCached false
         (set_modified true
            (storeField a (withData node (TextData (Some (utf8ToUtf16WithBom value)))) s)))
  | _ => (false, set_lastError ("Field is not a text field: " +:+ name) s)
  end.

Definition applyChoice (s : Impl) (name value : string) (a : addr)
    (node : FormField) : bool * Impl :=
  match fieldData node with
  | ChoiceData multiselect choices =>
      if scanChoices choices value 0 <? 0 then
        (false, set_lastError ("Value not in choice options: " +:+ value) s)
      else
        (true,
         set_fieldsCached false
           (set_modified true
              (storeField a
                 (withData node
                    (ChoiceData multiselect
                       (select multiselect choices
                               (Z.to_nat (scanChoices choices value 0))))) s)))
  | _ => (false, set_lastError ("Field is not a choice field: " +:+ name) s)
  end.

Definition applyButton (s : Impl) (name : string) (checked : bool) (a : addr)
    (node : FormField) : bool * Impl :=
  match fieldData node with
  | ButtonData btnType _ =>
      if decide (btnType <> formButtonCheck /\ btnType <> formButtonRadio)
      then (true, s)
      else
        (true,
         set_fieldsCached false
           (set_modified true
              (storeField a
                 (withData node
                    (setState btnType
                       (if checked then checkedStateOf node else "Off"))) s)))
  | _ => (false, set_lastError ("Field is not a button field: " +:+ name) s)
  end.

Definition applyValue (s : Impl) (name value : string) (a : addr)
    (node : FormField) : bool * Impl :=
  match getType node with
  | formText => applyText s name value a node
  | formChoice => applyChoice s name value a node
  | formButton => applyButton s name (meansChecked value) a node
  | _ => (false, set_lastError "Unsupported field type for setValue" s)
  end.

(** A setter run on a resolved identifier: not found, or applied to the
    node the index names. *)
Definition resolved (s : Impl) (name : string)
    (apply : addr -> FormField -> bool * Impl) : outcome (bool * Impl) :=
  match fieldMap_ s !! name with
  | None => Done (false, set_lastError ("Field not found: " +:+ name) s)
  | Some a => deref s a ≫= fun node => Done (apply a node)
  end.

(** [setFieldValue] applied to every pair in turn, each on the session
    the previous one left, keeping every single result. *)
Fixpoint applyEach (fuel : nat) (s : Impl) (values : list (string * string))
  : outcome (list bool * Impl) :=
  match values with
  | [] => Done ([], s)
  | nv :: rest =>
      setFieldValue fuel s nv.1 nv.2 ≫= fun r : bool * Impl =>
      applyEach fuel r.2 rest ≫= fun rs : list bool * Impl =>
      Done (r.1 :: rs.1, rs.2)
  end.

(** The calls a client can make on a session that may change it. *)
Inductive Call : Type :=
| CallLoadFromMemory (data : list Byte.byte) (password : string)
| CallLoadFromFile (path password : string)
| CallGetFormFields
| CallGetFieldByName (n : string)
| CallSetFieldValue (n v : string)
| CallSetCheckboxValue (n : string) (checked : bool)
| CallSetFieldValues (values : list (string * string))
| CallFlattenForm
| CallSaveToMemory
| CallSaveToFile (path : string)
| CallRenderPageToPng (pageIndex : Z) (dpi : float).

Definition exec (fuel : nat) (c : Call) (s : Impl) : outcome Impl :=
  match c with
  | CallLoadFromMemory data password => Done (loadFromMemory s data password).2
  | CallLoadFromFile path password => Done (loadFromFile s path password).2
  | CallGetFormFields => snd <$> getFormFields fuel s
  | CallGetFieldByName n => snd <$> getFieldByName fuel s n
  | CallSetFieldValue n v => snd <$> setFieldValue fuel s n v
  | CallSetCheckboxValue n checked => snd <$> setCheckboxValue fuel s n checked
  | CallSetFieldValues values => snd <$> setFieldValues fuel s values
  | CallFlattenForm => Done (flattenForm s).2
  | CallSaveToMemory => Done (saveToMemory s).2
  | CallSaveToFile path => Done (saveToFile s path).2
  | CallRenderPageToPng pageIndex dpi => Done (renderPageToPng s pageIndex dpi).2
  end.

(** The sessions a client can bring about, starting from a new one. *)
Inductive reachable : Impl -> Prop :=
| reachable_new : reachable Impl_new
| reachable_call fuel c s s' :
    reachable s -> exec fuel c s = Done s' -> reachable s'.

End Specification.

(** ** Sample documents

    A codec that is right on ASCII text, a parser that knows three byte
    streams, and the documents they stand for.  They serve to run the code
    on concrete inputs. *)
Module Sample.

(** ASCII text as UTF-16BE with a byte order mark, and back; a string
    without the mark is PDFDocEncoding, which agrees with ASCII. *)
Fixpoint widen (s : string) : string :=
  match s with
  | EmptyString => EmptyString
  | String c rest => String "000"%char (String c (widen rest))
  end.

Definition asciiToUtf16WithBom (s : string) : string :=
  String "254"%char (String "255"%char (widen s)).

Fixpoint narrow (s : string) : string :=
  match s with
  | String _ (String c rest) => String c (narrow rest)
  | _ => EmptyString
  end.

Definition asciiTextStringToUtf8 (s : string) : string :=
  match s with
  | String "254"%char (String "255"%char rest) => narrow rest
  | _ => s
  end.

Definition widgetAt (page : Z) (on : option string) (t : FormFieldType)
  : option FormWidget :=
  Some (mkFormWidget 10%float 20%float 110%float 40%float page t on).

(** A container [person] with three children, then a checkbox, a push
    button and a signature at the root.  The third child of [person] has
    the empty string as its partial name; the signature has no partial
    name. *)
Definition person : FormField :=
  mkFormField (Some "person") (Some "person") false []
              [Some 1%nat; Some 2%nat; Some 6%nat] UndefData.

Definition first : FormField :=
  mkFormField (Some "first") (Some "person.first") false
              [widgetAt 1 None formText] [] (TextData (Some "Ann")).

Definition color : FormField :=
  mkFormField (Some "color") (Some "person.color") false
              [widgetAt 1 None formChoice] []
              (ChoiceData false
                 [mkChoiceOpt (Some "red") false;
                  mkChoiceOpt (Some "green") true;
                  mkChoiceOpt (Some "blue") false]).

Definition unnamed : FormField :=
  mkFormField (Some "") (Some "person.") false
              [widgetAt 1 None formText] [] (TextData None).

Definition agree : FormField :=
  mkFormField (Some "agree") (Some "agree") false
              [widgetAt 2 (Some "On") formButton] []
              (ButtonData formButtonCheck "Off").

Definition submit : FormField :=
  mkFormField (Some "submit") (Some "submit") false
              [widgetAt 2 None formButton] []
              (ButtonData formButtonPush "Off").

Definition sig : FormField :=
  mkFormField None (Some "sig") true
              [widgetAt 2 None formSignature] [] SignatureData.

Definition formHeap : gmap addr FormField :=
  <[0%nat := person]> (<[1%nat := first]> (<[2%nat := color]> (<[3%nat := agree]>
  (<[4%nat := submit]> (<[5%nat := sig]> (<[6%nat := unnamed]> ∅)))))).

Definition formDoc : PDFDoc :=
  mkPDFDoc true 0 2
           (Some (mkCatalog (Some (mkForm [Some 0%nat; Some 3%nat; Some 4%nat; Some 5%nat]))))
           (objDict [("Title", entryString "Application"); ("Author", entryOther)])
           formHeap.

(** A document with pages and no form. *)
Definition plainDoc : PDFDoc :=
  mkPDFDoc true 0 1 (Some (mkCatalog None)) objNull ∅.

(** A document whose only field lists itself as its child. *)
Definition loopField : FormField :=
  mkFormField (Some "loop") (Some "loop") false
              [widgetAt 1 None formText] [Some 0%nat] (TextData None).

Definition loopDoc : PDFDoc :=
  mkPDFDoc true 0 1 (Some (mkCatalog (Some (mkForm [Some 0%nat]))))
           objNull (<[0%nat := loopField]> ∅).

(** What the parser makes of a stream that is not a document. *)
Definition brokenDoc : PDFDoc :=
  mkPDFDoc false 3 0 None objNull ∅.

Definition formBytes : list Byte.byte := [x01].
Definition plainBytes : list Byte.byte := [x02].
Definition loopBytes : list Byte.byte := [x03].

Definition parse (data : list Byte.byte) (ownerPw userPw : option GooString)
  : PDFDoc :=
  match data with
  | [x01] => formDoc
  | [x02] => plainDoc
  | [x03] => loopDoc
  | _ => brokenDoc
  end.

(** A reader of button states that takes its argument for a widget index,
    as the comment at line 226 and the spec do: widget [i] is on when the
    state label of the node is the on label of that widget. *)
Definition widgetState (field : FormField) (i : Z) : bool :=
  match fieldData field with
  | ButtonData _ st =>
      match getWidget field (Z.to_nat i) with
      | Some widget =>
          match onStr widget with
          | Some on => String.eqb st on
          | None => false
          end
      | None => false
      end
  | _ => false
  end.

Definition collaborators : Collaborators :=
  {| TextStringToUtf8 := asciiTextStringToUtf8;
     utf8ToUtf16WithBom := asciiToUtf16WithBom;
     openDocument := parse;
     saveAs := fun _ _ => (0, Some [x25; x50; x44; x46]);
     displayPage := fun _ _ _ => Some (mkSplashBitmap 1 1 3 [xff; xff; xff]);
     encodePng := fun _ => Some [x89; x50; x4e; x47];
     readFile := fun _ => None;
     writeFile := fun _ _ => Some true;
     getState := widgetState |}.

(** The session after loading the form document. *)
Definition loaded : Impl :=
  (loadFromMemory (poppler := collaborators) Impl_new formBytes "").2.

(** The session after loading the self-referencing document. *)
Definition loadedLoop : Impl :=
  (loadFromMemory (poppler := collaborators) Impl_new loopBytes "").2.

(** The session after loading the form document and listing its fields. *)
Definition flattened : Impl :=
  match cacheFormFields (poppler := collaborators) 2 loaded with
  | Done s => s
  | _ => loaded
  end.

(** A batch whose second identifier names no field, and the session it
    leaves. *)
Definition batch : list (string * string) :=
  [("first", "Zoe"); ("missing", "x"); ("agree", "1")].

Definition afterBatch : Impl :=
  match setFieldValues (poppler := collaborators) 2 loaded batch with
  | Done r => r.2
  | _ => loaded
  end.

End Sample.

(** ** The version macro of [poppler-compat.h] *)

(** The macro computes in the type of its arguments.  It is modelled for
    arguments of type [int] (32 bits, as on the targets of this code, where
    the constants [10000] and [100] are [int] too): every product and sum
    is an [int], and the result is [None] when one of them leaves the range
    of [int], which C++ leaves undefined. *)
Definition INT_MIN : Z := -2147483648.
Definition INT_MAX : Z := 2147483647.

Definition int_result (r : Z) : option Z :=
  if (INT_MIN <=? r) && (r <=? INT_MAX) then Some r else None.

(** [POPPLER_VERSION_ENCODE(major, minor, micro)]. *)
Definition POPPLER_VERSION_ENCODE (major minor micro : Z) : option Z :=
  a ← int_result ((major) * 10000);
  b ← int_result ((minor) * 100);
  c ← int_result (a + b);
  int_result (c + (micro)).

(** ** The order of the traversal *)

(** The addresses [collectFieldsRecursive] visits from [p], in the order it
    visits them: a node first, then what each child yields, child by
    child. *)
Fixpoint preorder (fuel : nat) (heap : gmap addr FormField) (p : FieldPtr)
  : outcome (list addr) :=
  match p with
  | None => Done []
  | Some a =>
      match fuel with
      | O => OutOfFuel
      | S fuel' =>
          match heap !! a with
          | None => Undefined
          | Some node =>
              forEach (fun c (seen : list addr) =>
                         l ← preorder fuel' heap c; Done (seen ++ l)%list)
                      (children node) [a]
          end
      end
  end.

(** The same for the loop over the root fields in [cacheFormFields]. *)
Definition preorderRoots (fuel : nat) (heap : gmap addr FormField)
    (roots : list FieldPtr) : outcome (list addr) :=
  forEach (fun c (seen : list addr) =>
             l ← preorder fuel heap c; Done (seen ++ l)%list)
          roots [].

(** [visited] is the order in which the rebuild in [cacheFormFields] visits
    the nodes of [doc]: the traversal of its root fields, and nothing
    without a form. *)
Definition traversalOf (doc : PDFDoc) (visited : list addr) : Prop :=
  match formOf doc with
  | None => visited = []
  | Some form =>
      exists fuel,
        preorderRoots fuel (fieldHeap doc) (rootFields form) = Done visited
  end.

Section Traversal.
Context {poppler : Collaborators}.

(** [visit] at every address of a list, in order. *)
Definition visitAll (heap : gmap addr FormField) (visited : list addr)
    (acc : list PdfFormField * gmap string addr)
  : list PdfFormField * gmap string addr :=
  foldl (fun acc a =>
           match heap !! a with
           | Some node => visit a node acc
           | None => acc
           end)
        acc visited.

(** The records of the nodes with a widget among a list of addresses. *)
Definition recordsOf (heap : gmap addr FormField) (visited : list addr)
  : list PdfFormField :=
  omap (fun a =>
          match heap !! a with
          | Some node =>
              if (0 <? getNumWidgets node)%nat then Some (makeRecord node)
              else None
          | None => None
          end)
       visited.

(** An index entry is owed to a terminal node when it addresses such a
    node of the heap and the key is the non-empty name or full name of the
    node's record. *)
Definition entryOf (heap : gmap addr FormField) (n : string) (a : addr) : Prop :=
  exists node,
    heap !! a = Some node /\ (0 < getNumWidgets node)%nat /\ n <> ""
    /\ (n = fullName (makeRecord node) \/ n = name (makeRecord node)).

(** The index entries the visits of a list of addresses write, starting
    from no entry. *)
Definition indexOf (heap : gmap addr FormField) (visited : list addr)
  : gmap string addr :=
  (visitAll heap visited ([], ∅)).2.

(** [cache] and [index] are valid for [doc]: the cache is the flattening of
    the document as it is, the index is the entries that traversal writes
    laid over [older] ones, and those entries are consistent with the
    cache and address the nodes the records were made from. *)
Definition validFor (doc : PDFDoc) (cache : list PdfFormField)
    (index : gmap string addr) : Prop :=
  exists visited older,
    traversalOf doc visited
    /\ cache = recordsOf (fieldHeap doc) visited
    /\ index = indexOf (fieldHeap doc) visited ∪ older
    /\ mutuallyConsistent cache (indexOf (fieldHeap doc) visited)
    /\ (forall n a, indexOf (fieldHeap doc) visited !! n = Some a ->
                    entryOf (fieldHeap doc) n a).

End Traversal.

(** Two nodes that differ at most in their class-specific data. *)
Definition sameShape (node node' : FormField) : Prop :=
  partialName node' = partialName node
  /\ fullyQualifiedName node' = fullyQualifiedName node
  /\ isReadOnly node' = isReadOnly node
  /\ widgets node' = widgets node
  /\ children node' = children node.

(** The documents of two sessions agree on page count, catalog and
    information dictionary, or neither session holds one. *)
Definition sameDocInfo (s s' : Impl) : Prop :=
  match doc_ s, doc_ s' with
  | Some doc, Some doc' =>
      getNumPages doc' = getNumPages doc /\ getCatalog doc' = getCatalog doc
      /\ getDocInfo doc' = getDocInfo doc
  | None, None => True
  | _, _ => False
  end.

(** ** The JavaScript wrapper ([bindings.cpp])

    [PdfFillerJS] forwards to a [PdfDocument].  A [val] that is either
    [null] or a value is an [option]; array buffers and typed arrays are
    their bytes; the object built for a field has the members of the record
    with the type as its string tag. *)
Module PdfFillerJS.

Record FieldObject : Type := mkFieldObject {
  js_name : string;
  js_fullName : string;
  js_value : string;
  js_defaultValue : string;
  js_type : string;
  js_readOnly : bool;
  js_required : bool;
  js_pageIndex : Z;
  js_x : float;
  js_y : float;
  js_width : float;
  js_height : float;
  js_exportValue : string;
  js_isChecked : bool;
  js_options : list string
}.

(** The [field.set(...)] calls of [getFormFields] and [getFieldByName]. *)
Definition toObject (f : PdfFormField) : FieldObject :=
  {| js_name := name f;
     js_fullName := fullName f;
     js_value := value f;
     js_defaultValue := defaultValue f;
     js_type := fieldTypeToString (type f);
     js_readOnly := readOnly f;
     js_required := required f;
     js_pageIndex := pageIndex f;
     js_x := x f;
     js_y := y f;
     js_width := width f;
     js_height := height f;
     js_exportValue := exportValue f;
     js_isChecked := isChecked f;
     js_options := options f |}.

Section Wrapper.
Context {poppler : Collaborators}.

Definition loadFromArrayBuffer (s : Impl) (arrayBuffer : list Byte.byte)
    (password : string) : bool * Impl :=
  loadFromMemory s arrayBuffer password.

Definition loadFromPath (s : Impl) (path password : string) : bool * Impl :=
  loadFromFile s path password.

Definition getFormFields (fuel : nat) (s : Impl)
  : outcome (list FieldObject * Impl) :=
  r ← getFormFields fuel s;
  Done (map toObject r.1, r.2).

Definition getFieldByName (fuel : nat) (s : Impl) (n : string)
  : outcome (option FieldObject * Impl) :=
  r ← getFieldByName fuel s n;
  Done (match r.1 with
        | None => None
        | Some field => Some (toObject field)
        end, r.2).

(** [values] is the object's entries in the order of [Object.keys]. *)
Definition setFieldValues (fuel : nat) (s : Impl) (values : list (string * string))
  : outcome (bool * Impl) :=
  setFieldValues fuel s values.

Definition saveToArrayBuffer (s : Impl) : option (list Byte.byte) * Impl :=
  let r := saveToMemory s in
  match r.1 with
  | [] => (None, r.2)
  | data => (Some data, r.2)
  end.

Definition renderPageToPng (s : Impl) (pageIndex : Z) (dpi : float)
  : option (list Byte.byte) * Impl :=
  let r := renderPageToPng s pageIndex dpi in
  match r.1 with
  | [] => (None, r.2)
  | data => (Some data, r.2)
  end.

End Wrapper.
End PdfFillerJS.

(** ** More sample sessions *)
Module MoreSamples.

(** The result of setting the sample text field. *)
Definition afterZoe : bool * Impl :=
  match setFieldValue (poppler := Sample.collaborators) 2 Sample.loaded
                      "first" "Zoe" with
  | Done r => r
  | _ => (false, Sample.loaded)
  end.

(** The session after that, once the fields were listed again. *)
Definition afterZoeListed : Impl :=
  match cacheFormFields (poppler := Sample.collaborators) 2 afterZoe.2 with
  | Done s => s
  | _ => afterZoe.2
  end.

(** The session after the form document was listed, the document without
    a form was loaded over it, and the fields were listed again. *)
Definition relisted : Impl :=
  match cacheFormFields (poppler := Sample.collaborators) 2
          (loadFromMemory (poppler := Sample.collaborators)
             Sample.flattened Sample.plainBytes "").2 with
  | Done s => s
  | _ => Sample.flattened
  end.

(** Collaborators whose file system holds the sample form under one
    path. *)
Definition withFile : Collaborators :=
  {| TextStringToUtf8 := Sample.asciiTextStringToUtf8;
     utf8ToUtf16WithBom := Sample.asciiToUtf16WithBom;
     openDocument := Sample.parse;
     saveAs := fun _ mode =>
                 match mode with
                 | writeStandard => (0, Some [x25; x50; x44; x46])
                 | writeForceRewrite => (0, Some [x25; x50; x44; x46; x0a])
                 end;
     displayPage := fun _ _ _ => Some (mkSplashBitmap 1 1 3 [xff; xff; xff]);
     encodePng := fun _ => Some [x89; x50; x4e; x47];
     readFile := fun path =>
                   if String.eqb path "/form.pdf" then Some Sample.formBytes
                   else None;
     writeFile := fun _ _ => Some true;
     getState := Sample.widgetState |}.

(** The sample collaborators with a reader of button states that takes its
    argument for a state name, as [setState] at line 381 takes one: the
    literal [0] is then the null name, which is the label of no state. *)
Definition byStateName : Collaborators :=
  {| TextStringToUtf8 := Sample.asciiTextStringToUtf8;
     utf8ToUtf16WithBom := Sample.asciiToUtf16WithBom;
     openDocument := Sample.parse;
     saveAs := fun _ _ => (0, Some [x25; x50; x44; x46]);
     displayPage := fun _ _ _ => Some (mkSplashBitmap 1 1 3 [xff; xff; xff]);
     encodePng := fun _ => Some [x89; x50; x4e; x47];
     readFile := fun _ => None;
     writeFile := fun _ _ => Some true;
     getState := fun _ _ => false |}.

End MoreSamples.

(** * Properties *)

(** ** Running loops *)

Lemma bind_Done {A B : Type} (m : outcome A) (k : A -> outcome B) (b : B) :
  m ≫= k = Done b <-> exists a, m = Done a /\ k a = Done b.
Proof.
  destruct m as [a| |]; simpl; split.
  - intros H. by exists a.
  - by intros (a' & [= ->] & H).
  - discriminate.
  - by intros (a' & [=] & _).
  - discriminate.
  - by intros (a' & [=] & _).
Qed.

Lemma fmap_Done {A B : Type} (f : A -> B) (m : outcome A) (b : B) :
  f <$> m = Done b <-> exists a, m = Done a /\ b = f a.
Proof.
  destruct m as [a| |]; simpl; split.
  - intros [= <-]. by exists a.
  - by intros (a' & [= ->] & ->).
  - discriminate.
  - by intros (a' & [=] & _).
  - discriminate.
  - by intros (a' & [=] & _).
Qed.

Section Loops.
Context {A S : Type}.
Implicit Types (body : A -> S -> outcome S) (l : list A) (acc out : S).

Lemma forEach_cons body a l acc :
  forEach body (a :: l) acc = body a acc ≫= forEach body l.
Proof. reflexivity. Qed.

(** A property kept by every round of a loop holds when the loop ends. *)
Lemma forEach_invariant (P : S -> Prop) body l acc out :
  (forall a acc1 acc2, a ∈ l -> P acc1 -> body a acc1 = Done acc2 -> P acc2) ->
  P acc -> forEach body l acc = Done out -> P out.
Proof.
  revert acc. induction l as [|a l IH]; intros acc Hstep Hacc Hrun.
  - simpl in Hrun. by injection Hrun as <-.
  - rewrite forEach_cons in Hrun. apply bind_Done in Hrun as (acc1 & Hb & Hrest).
    apply (IH acc1); [ | | done].
    + intros b acc2 acc3 Hin. apply Hstep. apply elem_of_cons; by right.
    + apply (Hstep a acc); [apply elem_of_cons; by left | done | done].
Qed.

(** A loop whose every round ends, ends. *)
Lemma forEach_total (P : S -> Prop) body l acc :
  (forall a acc1, a ∈ l -> P acc1 -> exists acc2, body a acc1 = Done acc2 /\ P acc2) ->
  P acc -> exists out, forEach body l acc = Done out /\ P out.
Proof.
  revert acc. induction l as [|a l IH]; intros acc Hstep Hacc.
  - by exists acc.
  - destruct (Hstep a acc) as (acc1 & Hb & Hacc1);
      [apply elem_of_cons; by left | done | ].
    destruct (IH acc1) as (out & Hrun & Hout); [ | done | ].
    + intros b acc2 Hin. apply Hstep. apply elem_of_cons; by right.
    + exists out. split; [ | done]. rewrite forEach_cons, Hb. exact Hrun.
Qed.

(** A loop that ends has run its body to the end on every element. *)
Lemma forEach_Done_round body l acc out a :
  forEach body l acc = Done out -> a ∈ l ->
  exists acc1 acc2, body a acc1 = Done acc2.
Proof.
  revert acc. induction l as [|b l IH]; intros acc Hrun Hin.
  - by apply elem_of_nil in Hin.
  - rewrite forEach_cons in Hrun. apply bind_Done in Hrun as (acc1 & Hb & Hrest).
    apply elem_of_cons in Hin as [-> | Hin].
    + by exists acc, acc1.
    + by apply (IH acc1).
Qed.

(** Two bodies that agree wherever the first one ends give the same
    loop. *)
Lemma forEach_ext_Done body body' l acc out :
  (forall a acc1 acc2, a ∈ l -> body a acc1 = Done acc2 -> body' a acc1 = Done acc2) ->
  forEach body l acc = Done out -> forEach body' l acc = Done out.
Proof.
  revert acc. induction l as [|b l IH]; intros acc Hext Hrun.
  - done.
  - rewrite forEach_cons in Hrun. apply bind_Done in Hrun as (acc1 & Hb & Hrest).
    rewrite forEach_cons, (Hext b acc acc1); [ | apply elem_of_cons; by left | done].
    apply IH; [ | done].
    intros a acc2 acc3 Hin. apply Hext. apply elem_of_cons; by right.
Qed.
End Loops.

(** ** The flattener *)

Section Flattener.
Context {poppler : Collaborators}.
Implicit Types (heap : gmap addr FormField) (p : FieldPtr)
               (acc out : list PdfFormField * gmap string addr).

Lemma collect_node fuel heap a node acc :
  heap !! a = Some node ->
  collectFieldsRecursive (S fuel) heap (Some a) acc
  = forEach (collectFieldsRecursive fuel heap) (children node) (visit a node acc).
Proof. intros Hnode. simpl. rewrite Hnode. reflexivity. Qed.

Lemma collect_Done_inv fuel heap a acc out :
  collectFieldsRecursive fuel heap (Some a) acc = Done out ->
  exists fuel' node,
    fuel = S fuel' /\ heap !! a = Some node
    /\ forEach (collectFieldsRecursive fuel' heap) (children node)
               (visit a node acc) = Done out.
Proof.
  destruct fuel as [|fuel']; simpl; [discriminate | ].
  destruct (heap !! a) as [node|] eqn:Hnode; [ | discriminate].
  intros Hrun. by exists fuel', node.
Qed.

(** On a tree of depth at most [d], fuel [d] is enough. *)
Lemma collect_total heap d : forall p acc,
  treeWithin heap d p = true ->
  exists out, collectFieldsRecursive d heap p acc = Done out.
Proof.
  induction d as [|d IH]; intros [a|] acc Htree; try by exists acc.
  simpl in Htree. destruct (heap !! a) as [node|] eqn:Hnode; [ | discriminate].
    rewrite (collect_node _ _ _ node) by done.
    destruct (forEach_total (fun _ => True) (collectFieldsRecursive d heap)
                (children node) (visit a node acc)) as (out & Hrun & _);
      [ | done | by exists out].
    intros c acc1 Hc _. destruct (IH c acc1) as [acc2 Hacc2].
    + rewrite forallb_forall in Htree. apply Htree. by apply list_elem_of_In.
    + by exists acc2.
Qed.

(** More fuel does not change a traversal that has ended. *)
Lemma collect_fuel_mono heap fuel : forall fuel' p acc out,
  (fuel <= fuel')%nat ->
  collectFieldsRecursive fuel heap p acc = Done out ->
  collectFieldsRecursive fuel' heap p acc = Done out.
Proof.
  induction fuel as [|fuel IH]; intros fuel' [a|] acc out Hle Hrun;
    try (by destruct fuel').
  apply collect_Done_inv in Hrun as (f & node & [= <-] & Hnode & Hrun).
  destruct fuel' as [|fuel']; [lia | ].
  rewrite (collect_node _ _ _ node) by done.
  eapply forEach_ext_Done; [ | exact Hrun].
  intros c acc1 acc2 _. apply IH. lia.
Qed.

(** A node that is its own descendant is never left: whatever the fuel,
    the traversal started at it has not ended. *)
Lemma collect_on_cycle heap fuel : forall a acc out,
  tc (childOf heap) a a ->
  collectFieldsRecursive fuel heap (Some a) acc <> Done out.
Proof.
  induction fuel as [|fuel IH]; intros a acc out Hcyc Hrun; [discriminate | ].
  apply collect_Done_inv in Hrun as (f & node & [= <-] & Hnode & Hrun).
  assert (exists b, childOf heap a b /\ rtc (childOf heap) b a) as (b & Hab & Hba).
  { inversion Hcyc as [? ? Hstep | ? b ? Hstep Hrest]; subst.
    - by exists a.
    - exists b. split; [done | by apply tc_rtc]. }
  destruct Hab as (node' & Hnode' & Hb).
  assert (node' = node) as -> by congruence.
  destruct (forEach_Done_round _ _ _ _ (Some b) Hrun Hb) as (acc1 & acc2 & Hsub).
  apply (IH b acc1 acc2); [ | done].
  eapply tc_rtc_l; [exact Hba | ]. apply tc_once. by exists node.
Qed.

(** The same holds from every node that reaches such a node. *)
Lemma collect_reaches_cycle heap a b :
  rtc (childOf heap) a b -> tc (childOf heap) b b ->
  forall fuel acc out, collectFieldsRecursive fuel heap (Some a) acc <> Done out.
Proof.
  induction 1 as [a | a c b (node & Hnode & Hc) _ IH]; intros Hcyc fuel acc out Hrun.
  - by apply collect_on_cycle in Hrun.
  - apply collect_Done_inv in Hrun as (f & node' & -> & Hnode' & Hrun).
    assert (node' = node) as -> by congruence.
    destruct (forEach_Done_round _ _ _ _ (Some c) Hrun Hc) as (acc1 & acc2 & Hsub).
    by apply IH in Hsub.
Qed.

(** A property of the pair (cache, index) that every visit keeps is kept
    by the whole traversal. *)
Lemma collect_invariant (P : list PdfFormField * gmap string addr -> Prop) heap :
  (forall a node acc, heap !! a = Some node -> P acc -> P (visit a node acc)) ->
  forall fuel p acc out,
    P acc -> collectFieldsRecursive fuel heap p acc = Done out -> P out.
Proof.
  intros Hvisit. induction fuel as [|fuel IH]; intros [a|] acc out Hacc Hrun;
    try (simpl in Hrun; by injection Hrun as <-).
  - discriminate.
  - apply collect_Done_inv in Hrun as (f & node & [= <-] & Hnode & Hrun).
    eapply forEach_invariant; [ | | exact Hrun].
    + intros c acc1 acc2 _. apply IH.
    + by apply Hvisit.
Qed.

Lemma roots_invariant (P : list PdfFormField * gmap string addr -> Prop) heap :
  (forall a node acc, heap !! a = Some node -> P acc -> P (visit a node acc)) ->
  forall fuel roots acc out,
    P acc -> forEach (collectFieldsRecursive fuel heap) roots acc = Done out -> P out.
Proof.
  intros Hvisit fuel roots acc out Hacc Hrun.
  eapply forEach_invariant; [ | exact Hacc | exact Hrun].
  intros c acc1 acc2 _. by apply collect_invariant.
Qed.

End Flattener.

(** ** The cache *)

Section Cache.
Context {poppler : Collaborators}.

Lemma getForm_formOf s : getForm s = doc_ s ≫= formOf.
Proof.
  unfold getForm, formOf. destruct (doc_ s) as [doc|]; [ | done].
  simpl. by destruct (getCatalog doc).
Qed.

Lemma cacheFormFields_cached fuel s :
  fieldsCached_ s = true -> cacheFormFields fuel s = Done s.
Proof. intros H. unfold cacheFormFields. by rewrite H. Qed.

Lemma cacheFormFields_no_doc fuel s :
  doc_ s = None -> cacheFormFields fuel s = Done s.
Proof. intros H. unfold cacheFormFields. rewrite H. by destruct (fieldsCached_ s). Qed.

(** What a rebuild does, when there is something to rebuild. *)
Lemma cacheFormFields_rebuild fuel s doc :
  fieldsCached_ s = false -> doc_ s = Some doc ->
  cacheFormFields fuel s
  = match formOf doc with
    | None => Done (set_fieldsCached true (set_cachedFields [] s))
    | Some form =>
        forEach (collectFieldsRecursive fuel (fieldHeap doc)) (rootFields form)
                ([], fieldMap_ s) ≫= fun acc =>
        Done (set_fieldsCached true
                (set_fieldMap acc.2 (set_cachedFields acc.1 (set_cachedFields [] s))))
    end.
Proof.
  intros Hc Hd. unfold cacheFormFields. rewrite Hc, Hd.
  rewrite getForm_formOf. simpl. rewrite Hd. simpl.
  by destruct (formOf doc).
Qed.

(** The shape of the session a finished [cacheFormFields] leaves. *)
Lemma cacheFormFields_Done fuel s s' :
  cacheFormFields fuel s = Done s' ->
  s' = s
  \/ exists doc cache index,
       fieldsCached_ s = false /\ doc_ s = Some doc
       /\ flattenedFrom doc cache index
       /\ (forall P : list PdfFormField * gmap string addr -> Prop,
             (forall a node acc, fieldHeap doc !! a = Some node ->
                                 P acc -> P (visit a node acc)) ->
             P ([], fieldMap_ s) -> P (cache, index))
       /\ s' = mkImpl (Some doc) (originalData_ s) (lastError_ s) cache index
                      true (modified_ s).
Proof.
  intros Hrun.
  destruct (fieldsCached_ s) eqn:Hc.
  { rewrite cacheFormFields_cached in Hrun by done. left. congruence. }
  destruct (doc_ s) as [doc|] eqn:Hd.
  2:{ rewrite cacheFormFields_no_doc in Hrun by done. left. congruence. }
  right. rewrite (cacheFormFields_rebuild _ _ doc) in Hrun by done.
  destruct (formOf doc) as [form|] eqn:Hform.
  - apply bind_Done in Hrun as ([cache index] & Hloop & [= <-]).
    exists doc, cache, index. split_and!; try done.
    + unfold flattenedFrom. rewrite Hform. by exists fuel, (fieldMap_ s).
    + intros P Hvisit Hstart. by eapply roots_invariant.
    + unfold set_fieldsCached, set_fieldMap, set_cachedFields. simpl.
      by rewrite Hd.
  - injection Hrun as <-. exists doc, [], (fieldMap_ s). split_and!; try done.
    + unfold flattenedFrom. by rewrite Hform.
    + unfold set_fieldsCached, set_cachedFields. simpl. by rewrite Hd.
Qed.

Lemma cacheFormFields_keeps fuel s s' :
  cacheFormFields fuel s = Done s' ->
  doc_ s' = doc_ s /\ lastError_ s' = lastError_ s
  /\ modified_ s' = modified_ s /\ originalData_ s' = originalData_ s
  /\ (doc_ s' = None \/ fieldsCached_ s' = true).
Proof.
  intros Hrun.
  destruct (cacheFormFields_Done _ _ _ Hrun)
    as [-> | (doc & cache & index & Hc & Hd & _ & _ & ->)].
  - split_and!; try done.
    destruct (fieldsCached_ s) eqn:Hc; [by right | ].
    destruct (doc_ s) as [doc|] eqn:Hd; [ | by left].
    exfalso. rewrite (cacheFormFields_rebuild _ _ doc) in Hrun by done.
    destruct (formOf doc).
    + apply bind_Done in Hrun as (acc & _ & [= Heq]).
      apply (f_equal fieldsCached_) in Heq. simpl in Heq. congruence.
    + injection Hrun as Heq.
      apply (f_equal fieldsCached_) in Heq. simpl in Heq. congruence.
  - simpl. split_and!; try done. by right.
Qed.

(** Once [cacheFormFields] has ended, calling it again changes nothing. *)
Lemma cacheFormFields_again fuel fuel' s s' :
  cacheFormFields fuel s = Done s' -> cacheFormFields fuel' s' = Done s'.
Proof.
  intros Hrun. destruct (cacheFormFields_keeps _ _ _ Hrun) as (_ & _ & _ & _ & [H | H]).
  - by apply cacheFormFields_no_doc.
  - by apply cacheFormFields_cached.
Qed.

(** On a document whose field trees have depth at most [d], every fuel
    from [d] on gives the same finished rebuild. *)
Lemma cacheFormFields_total d s :
  (forall doc, doc_ s = Some doc -> docWithin d doc = true) ->
  exists s', forall fuel, (d <= fuel)%nat -> cacheFormFields fuel s = Done s'.
Proof.
  intros Hdepth.
  destruct (fieldsCached_ s) eqn:Hc.
  { exists s. intros. by apply cacheFormFields_cached. }
  destruct (doc_ s) as [doc|] eqn:Hd.
  2:{ exists s. intros. by apply cacheFormFields_no_doc. }
  specialize (Hdepth doc eq_refl). unfold docWithin in Hdepth.
  destruct (formOf doc) as [form|] eqn:Hform.
  - destruct (forEach_total (fun _ => True)
                (collectFieldsRecursive d (fieldHeap doc)) (rootFields form)
                ([], fieldMap_ s)) as (out & Hrun & _); [ | done | ].
    + intros p acc1 Hp _. destruct (collect_total (fieldHeap doc) d p acc1) as [acc2 H].
      * rewrite forallb_forall in Hdepth. apply Hdepth. by apply list_elem_of_In.
      * by exists acc2.
    + eexists. intros fuel Hle.
      rewrite (cacheFormFields_rebuild _ _ doc), Hform by done.
      rewrite (forEach_ext_Done (collectFieldsRecursive d (fieldHeap doc))
                 (collectFieldsRecursive fuel (fieldHeap doc))
                 (rootFields form) ([], fieldMap_ s) out); [reflexivity | | exact Hrun].
      intros p acc1 acc2 _. by apply collect_fuel_mono.
  - eexists. intros fuel _.
    by rewrite (cacheFormFields_rebuild _ _ doc), Hform by done.
Qed.

End Cache.

(** ** The setters on a resolved identifier *)

Section Setters.
Context {poppler : Collaborators}.

Lemma findFormField_cached fuel s s1 name :
  cacheFormFields fuel s = Done s1 ->
  findFormField fuel s name = Done (fieldMap_ s1 !! name, s1).
Proof. intros H. unfold findFormField. by rewrite H. Qed.

Lemma setTextFieldValue_resolved fuel s s1 name value :
  cacheFormFields fuel s = Done s1 ->
  setTextFieldValue fuel s name value = resolved s1 name (applyText s1 name value).
Proof.
  intros H. unfold setTextFieldValue, resolved, applyText.
  rewrite (findFormField_cached _ _ s1) by done. simpl.
  destruct (fieldMap_ s1 !! name) as [a|]; [ | done].
  destruct (deref s1 a) as [node| |]; [ | done | done]. simpl.
  by destruct (fieldData node).
Qed.

Lemma setChoiceFieldValue_resolved fuel s s1 name value :
  cacheFormFields fuel s = Done s1 ->
  setChoiceFieldValue fuel s name value = resolved s1 name (applyChoice s1 name value).
Proof.
  intros H. unfold setChoiceFieldValue, resolved, applyChoice.
  rewrite (findFormField_cached _ _ s1) by done. simpl.
  destruct (fieldMap_ s1 !! name) as [a|]; [ | done].
  destruct (deref s1 a) as [node| |]; [ | done | done]. simpl.
  destruct (fieldData node) as [ | multiselect choices | | | ]; try done.
  by destruct (scanChoices choices value 0 <? 0).
Qed.

Lemma setButtonFieldValue_resolved fuel s s1 name checked :
  cacheFormFields fuel s = Done s1 ->
  setButtonFieldValue fuel s name checked
  = resolved s1 name (applyButton s1 name checked).
Proof.
  intros H. unfold setButtonFieldValue, resolved, applyButton.
  rewrite (findFormField_cached _ _ s1) by done. simpl.
  destruct (fieldMap_ s1 !! name) as [a|]; [ | done].
  destruct (deref s1 a) as [node| |]; [ | done | done]. simpl.
  destruct (fieldData node) as [ | | btnType st | | ]; try done.
  by destruct (decide (btnType <> formButtonCheck /\ btnType <> formButtonRadio)).
Qed.

Lemma setFieldValue_resolved fuel s s1 name value :
  cacheFormFields fuel s = Done s1 ->
  setFieldValue fuel s name value = resolved s1 name (applyValue s1 name value).
Proof.
  intros H. pose proof (cacheFormFields_again fuel fuel _ _ H) as H1.
  unfold setFieldValue.
  rewrite (findFormField_cached _ _ s1) by done. simpl.
  rewrite (setTextFieldValue_resolved _ _ s1), (setChoiceFieldValue_resolved _ _ s1),
    (setButtonFieldValue_resolved _ _ s1) by done.
  unfold resolved, applyValue.
  destruct (fieldMap_ s1 !! name) as [a|]; [ | done].
  destruct (deref s1 a) as [node| |]; [ | done | done]. simpl.
  by destruct (getType node).
Qed.

Lemma setCheckboxValue_resolved fuel s s1 name checked :
  cacheFormFields fuel s = Done s1 ->
  setCheckboxValue fuel s name checked
  = resolved s1 name (applyButton s1 name checked).
Proof. apply setButtonFieldValue_resolved. Qed.

End Setters.

(** ** Reading and writing through a field pointer *)

Lemma deref_Some s a node :
  deref s a = Done node <->
  exists doc, doc_ s = Some doc /\ fieldHeap doc !! a = Some node.
Proof.
  unfold deref. destruct (doc_ s) as [doc|].
  - destruct (fieldHeap doc !! a) as [node'|] eqn:Hn; split.
    + intros [= ->]. by exists doc.
    + intros (doc' & [= <-] & H). congruence.
    + discriminate.
    + intros (doc' & [= <-] & H). congruence.
  - split; [discriminate | by intros (doc' & [=] & _)].
Qed.

Lemma deref_frame s s' a :
  doc_ s' = doc_ s -> deref s' a = deref s a.
Proof. intros H. unfold deref. by rewrite H. Qed.

Lemma deref_storeField s a node node' :
  deref s a = Done node -> deref (storeField a node' s) a = Done node'.
Proof.
  intros (doc & Hdoc & Hnode)%deref_Some. apply deref_Some.
  unfold storeField. rewrite Hdoc. simpl. eexists. split; [reflexivity | ].
  simpl. apply lookup_insert_eq.
Qed.

Lemma storeField_keeps s a node :
  lastError_ (storeField a node s) = lastError_ s
  /\ cachedFields_ (storeField a node s) = cachedFields_ s
  /\ fieldMap_ (storeField a node s) = fieldMap_ s
  /\ fieldsCached_ (storeField a node s) = fieldsCached_ s
  /\ modified_ (storeField a node s) = modified_ s
  /\ originalData_ (storeField a node s) = originalData_ s.
Proof. unfold storeField. by destruct (doc_ s). Qed.

(** ** Choice fields *)

(** [select] marks the entry at the index as selected, keeps its label, and
    in a single-selection field leaves no other entry selected. *)
Lemma select_lookup multiselect (choices : list ChoiceOpt) (k : nat) c :
  choices !! k = Some c ->
  select multiselect choices k !! k = Some (mkChoiceOpt (optionName c) true)
  /\ (multiselect = false ->
      forall (j : nat) c', j <> k -> select multiselect choices k !! j = Some c' ->
                           selected c' = false).
Proof.
  intros Hk. unfold select, unselectAll. split.
  - rewrite list_lookup_alter_eq. destruct multiselect.
    + by rewrite Hk.
    + change (map ?f choices) with (f <$> choices).
      by rewrite list_lookup_fmap, Hk.
  - intros -> j c' Hne. rewrite list_lookup_alter_ne by done.
    change (map ?f choices) with (f <$> choices).
    rewrite list_lookup_fmap. destruct (choices !! j); [ | done].
    by intros [= <-].
Qed.

Section Choice.
Context {poppler : Collaborators}.

(** The scan returns the first index whose option matches, counted from
    the start index, and [-1] when no option matches. *)
Lemma scanChoices_spec choices value : forall i0,
  (scanChoices choices value i0 = -1
   /\ forall c, c ∈ choices -> ~ optionMatches value c)
  \/ (exists (k : nat) c,
        choices !! k = Some c /\ optionMatches value c
        /\ (forall (j : nat) c', (j < k)%nat -> choices !! j = Some c' ->
                                 ~ optionMatches value c')
        /\ scanChoices choices value i0 = i0 + Z.of_nat k).
Proof.
  induction choices as [|c rest IH]; intros i0.
  - left. split; [done | ]. intros c Hc. by apply elem_of_nil in Hc.
  - assert (~ optionMatches value c ->
            scanChoices (c :: rest) value i0 = scanChoices rest value (i0 + 1))
      as Hskip.
    { intros Hno. simpl. destruct (optionName c) as [g|] eqn:Hg; [ | done].
      destruct (String.eqb_spec (TextStringToUtf8 g) value) as [Heq | ]; [ | done].
      exfalso. apply Hno. by exists g. }
    assert (optionMatches value c \/ ~ optionMatches value c) as [Hyes | Hno].
    { unfold optionMatches. destruct (optionName c) as [g|].
      - destruct (String.eqb_spec (TextStringToUtf8 g) value) as [Heq | Hne].
        + left. by exists g.
        + right. intros (g' & [= <-] & H). done.
      - right. by intros (g' & [=] & _). }
    + right. exists 0%nat, c. split_and!; [done | done | intros; lia | ].
      destruct Hyes as (g & Hg & Heq). simpl. rewrite Hg. simpl.
      rewrite (proj2 (String.eqb_eq _ _) Heq). lia.
    + rewrite (Hskip Hno).
      destruct (IH (i0 + 1)) as [[Hres Hnone] | (k & c' & Hk & Hm & Hfirst & Hres)].
      * left. split; [done | ].
        intros c' [-> | Hin]%elem_of_cons; [done | by apply Hnone].
      * right. exists (S k), c'. split_and!; [done | done | | lia].
        intros [|j] c'' Hlt Hj; simpl in Hj.
        -- by injection Hj as <-.
        -- apply (Hfirst j); [lia | done].
Qed.

(** C7.  On an identifier that resolves to a choice field, [setFieldValue]
    looks for the first option whose label decodes to exactly the given
    value.  If there is none it returns false, records "Value not in choice
    options: ..." and leaves the document, so also the selection, and the
    dirty flag as they were.  Otherwise it returns true with that option
    selected in the field. *)
Theorem setFieldValue_choice (fuel : nat) (s s1 : Impl) (name value : string)
    (a : addr) (node : FormField) (multiselect : bool) (choices : list ChoiceOpt) :
  cacheFormFields fuel s = Done s1 ->
  fieldMap_ s1 !! name = Some a ->
  deref s1 a = Done node ->
  fieldData node = ChoiceData multiselect choices ->
  ((forall c, c ∈ choices -> ~ optionMatches value c)
   /\ setFieldValue fuel s name value
      = Done (false, set_lastError ("Value not in choice options: " +:+ value) s1)
   /\ doc_ s1 = doc_ s /\ modified_ s1 = modified_ s)
  \/ (exists (k : nat) c,
        choices !! k = Some c /\ optionMatches value c
        /\ (forall (j : nat) c', (j < k)%nat -> choices !! j = Some c' ->
                                 ~ optionMatches value c')
        /\ exists s',
             setFieldValue fuel s name value = Done (true, s')
             /\ deref s' a
                = Done (withData node
                          (ChoiceData multiselect (select multiselect choices k)))
             /\ select multiselect choices k !! k
                = Some (mkChoiceOpt (optionName c) true)
             /\ modified_ s' = true /\ fieldsCached_ s' = false).
Proof.
  intros Hcache Hname Hnode Hdata.
  rewrite (setFieldValue_resolved _ _ s1) by done.
  unfold resolved. rewrite Hname, Hnode. simpl.
  unfold applyValue, getType, applyChoice. rewrite Hdata.
  destruct (scanChoices_spec choices value 0)
    as [[Hres Hnone] | (k & c & Hk & Hm & Hfirst & Hres)].
  - left. rewrite Hres. simpl.
    destruct (cacheFormFields_keeps _ _ _ Hcache) as (Hd & _ & Hm & _).
    by split_and!.
  - right. exists k, c. split_and!; try done.
    rewrite Hres. replace (0 + Z.of_nat k <? 0) with false by (symmetry; apply Z.ltb_ge; lia).
    replace (Z.to_nat (0 + Z.of_nat k)) with k by lia.
    eexists. split; [reflexivity | ]. split_and!; try done.
    + rewrite (deref_frame (storeField a _ s1)) by done.
      by eapply deref_storeField.
    + by apply select_lookup.
Qed.

End Choice.

Lemma setFieldValue_choice_witness :
  (forall c, c ∈ [mkChoiceOpt (Some "red") false; mkChoiceOpt (Some "green") true;
                  mkChoiceOpt (Some "blue") false] ->
             ~ optionMatches (poppler := Sample.collaborators) "pink" c)
  /\ setFieldValue (poppler := Sample.collaborators) 2 Sample.loaded "color" "pink"
     = Done (false,
             set_lastError ("Value not in choice options: " +:+ "pink") Sample.flattened).
Proof.
  destruct (setFieldValue_choice (poppler := Sample.collaborators)
              2 Sample.loaded Sample.flattened "color" "pink" 2%nat Sample.color false
              [mkChoiceOpt (Some "red") false; mkChoiceOpt (Some "green") true;
               mkChoiceOpt (Some "blue") false])
    as [(Hnone & Hrun & _) | (k & c & Hk & (g & Hg & Hdec) & _)];
    [reflexivity | reflexivity | reflexivity | reflexivity | | ].
  - split; [exact Hnone | exact Hrun].
  - exfalso. destruct k as [|[|[|k]]]; simpl in Hk; try discriminate;
      injection Hk as <-; simpl in Hg; injection Hg as <-; discriminate.
Defined.

(** The option [blue] of the sample choice field is found at index 2 and
    becomes the only selected one; the field then reads [blue]. *)
Example choice_blue_is_selected :
  (fun r : bool * Impl =>
     (r.1, (fun d => fieldData <$> fieldHeap d !! 2%nat) <$> doc_ r.2))
    <$> setFieldValue (poppler := Sample.collaborators) 2 Sample.loaded "color" "blue"
  = Done (true,
          Some (Some (ChoiceData false
                        [mkChoiceOpt (Some "red") false;
                         mkChoiceOpt (Some "green") false;
                         mkChoiceOpt (Some "blue") true]))).
Proof. vm_compute. reflexivity. Qed.

(** ** Button fields *)

Lemma meansChecked_true value :
  meansChecked value = true <-> value <> "" /\ value <> "0" /\ value <> "false".
Proof.
  unfold meansChecked. rewrite !andb_true_iff, !negb_true_iff.
  rewrite !String.eqb_neq. tauto.
Qed.

Lemma meansChecked_false value :
  meansChecked value = false <-> value = "" \/ value = "0" \/ value = "false".
Proof.
  unfold meansChecked. rewrite !andb_false_iff, !negb_false_iff.
  rewrite !String.eqb_eq. tauto.
Qed.

Section Button.
Context {poppler : Collaborators}.

(** C5 (as amended).  On an identifier that resolves to a button field:
    for a push button [setFieldValue] returns true, changes nothing, and
    the field's record is unchecked whatever the value; for a checkbox or a
    radio button it returns true, sets the dirty flag, clears the validity
    flag, and replaces the state of the field by [Off] for the values "",
    "0" and "false" and by the on label of widget 0 ([Yes] when there is
    none) for every other value, leaving the rest of the node as it is.
    The [isChecked] of the field's record is then what [getState(0)]
    answers for the field in its new state. *)
Theorem setFieldValue_button (fuel : nat) (s s1 : Impl) (name value : string)
    (a : addr) (node : FormField) (btype : FormButtonType) (st : string) :
  cacheFormFields fuel s = Done s1 ->
  fieldMap_ s1 !! name = Some a ->
  deref s1 a = Done node ->
  fieldData node = ButtonData btype st ->
  (btype = formButtonPush ->
   setFieldValue fuel s name value = Done (true, s1)
   /\ isChecked (makeRecord node) = false)
  /\ (btype <> formButtonPush ->
      exists s' node',
        setFieldValue fuel s name value = Done (true, s')
        /\ deref s' a = Done node'
        /\ modified_ s' = true /\ fieldsCached_ s' = false
        /\ sameShape node node'
        /\ (value = "" \/ value = "0" \/ value = "false" ->
            fieldData node' = ButtonData btype "Off")
        /\ (value <> "" -> value <> "0" -> value <> "false" ->
            fieldData node' = ButtonData btype (checkedStateOf node))
        /\ isChecked (makeRecord node') = getState node' 0).
Proof.
  intros Hcache Hname Hnode Hdata.
  rewrite (setFieldValue_resolved _ _ s1) by done.
  unfold resolved. rewrite Hname, Hnode. simpl.
  unfold applyValue, getType, applyButton. rewrite Hdata.
  split.
  - intros ->. by split.
  - intros Hpush.
    destruct (decide (btype <> formButtonCheck /\ btype <> formButtonRadio))
      as [[Hc Hr] | Hcr]; [by destruct btype | ].
    eexists _, _. split; [reflexivity | ]. split.
    { rewrite (deref_frame (storeField a _ s1)) by done.
      by eapply deref_storeField. }
    split_and!; try done.
    + intros Hfalsy%meansChecked_false. simpl. by rewrite Hfalsy.
    + intros H1 H2 H3. simpl. by rewrite (proj2 (meansChecked_true value)).
    + simpl. by destruct btype.
Qed.

End Button.

Lemma setFieldValue_button_witness :
  exists s' node',
    setFieldValue (poppler := Sample.collaborators) 2 Sample.loaded "agree" "yes"
    = Done (true, s')
    /\ deref s' 3%nat = Done node'
    /\ fieldData node' = ButtonData formButtonCheck "On"
    /\ isChecked (makeRecord (poppler := Sample.collaborators) node')
       = Sample.widgetState node' 0.
Proof.
  destruct (setFieldValue_button (poppler := Sample.collaborators)
              2 Sample.loaded Sample.flattened "agree" "yes" 3%nat Sample.agree
              formButtonCheck "Off") as [_ Hset];
    [reflexivity | reflexivity | reflexivity | reflexivity | ].
  destruct Hset as (s' & node' & Hrun & Hnode & _ & _ & _ & _ & Hon & Hread);
    [discriminate | ].
  exists s', node'. split; [exact Hrun | ]. split; [exact Hnode | ].
  split; [apply Hon; discriminate | exact Hread].
Defined.

(** C5 (as stated) fails.  On the push button [submit], [setFieldValue]
    with the value "yes" returns true and the record of [submit] is still
    unchecked afterwards.  On the checkbox [agree], the same call sets the
    state to the on label of its widget, and what the record then reports
    is the answer of [getState(0)]: with a reader that takes its argument
    for a state name, as [setState] takes one, the literal [0] names no
    state and the record reads unchecked. *)
Lemma truthy_value_not_always_checked :
  (exists s' r,
     setFieldValue (poppler := Sample.collaborators) 2 Sample.loaded "submit" "yes"
     = Done (true, s')
     /\ getFieldByName (poppler := Sample.collaborators) 2 s' "submit"
        = Done (Some r, s')
     /\ type r = Button
     /\ isChecked r = false)
  /\ (exists s' s'' r,
        setFieldValue (poppler := MoreSamples.byStateName) 2 Sample.loaded "agree" "yes"
        = Done (true, s')
        /\ (fieldData <$> deref s' 3%nat) = Done (ButtonData formButtonCheck "On")
        /\ getFieldByName (poppler := MoreSamples.byStateName) 2 s' "agree"
           = Done (Some r, s'')
        /\ type r = Checkbox
        /\ isChecked r = false).
Proof.
  split.
  - eexists _, _. split_and!; reflexivity.
  - eexists _, _, _. split_and!; reflexivity.
Qed.

(** ** The session without a document *)

Section Empty.
Context {poppler : Collaborators}.

Lemma setFieldValue_empty fuel s name value :
  doc_ s = None -> fieldMap_ s = ∅ ->
  setFieldValue fuel s name value
  = Done (false, set_lastError ("Field not found: " +:+ name) s).
Proof.
  intros Hdoc Hmap.
  rewrite (setFieldValue_resolved _ _ s) by by apply cacheFormFields_no_doc.
  unfold resolved. by rewrite Hmap, lookup_empty.
Qed.

Lemma setFieldValues_empty fuel values : forall s b,
  doc_ s = None -> fieldMap_ s = ∅ ->
  exists s',
    forEach
      (fun (nv : string * string) (acc : bool * Impl) =>
         setFieldValue fuel acc.2 nv.1 nv.2 ≫= fun r : bool * Impl =>
         Done ((if r.1 then acc.1 else false), r.2))
      values (b, s)
    = Done (match values with [] => b | _ => false end, s')
    /\ doc_ s' = None /\ fieldMap_ s' = ∅.
Proof.
  induction values as [|[n v] rest IH]; intros s b Hdoc Hmap.
  - by exists s.
  - rewrite forEach_cons. simpl. rewrite setFieldValue_empty by done. simpl.
    destruct (IH (set_lastError ("Field not found: " +:+ n) s) false)
      as (s' & Hrun & Hdoc' & Hmap'); [done | done | ].
    exists s'. split; [ | done]. rewrite Hrun. by destruct rest.
Qed.

(** C4 (as amended).  In a session that holds no document and whose index
    is empty, [setFieldValue] and [setCheckboxValue] return false and record
    "Field not found: " followed by the identifier, [setFieldValues] returns
    false on every non-empty list, [flattenForm] and the two save operations
    fail with "No document loaded" recorded, and the queries return zero
    pages, empty strings, no form, the cache as it is and an empty image
    without recording anything. *)
Theorem empty_session_operations (fuel : nat) (s : Impl) :
  doc_ s = None -> fieldMap_ s = ∅ ->
  (forall name value,
      setFieldValue fuel s name value
      = Done (false, set_lastError ("Field not found: " +:+ name) s))
  /\ (forall name checked,
        setCheckboxValue fuel s name checked
        = Done (false, set_lastError ("Field not found: " +:+ name) s))
  /\ (forall values, values <> [] ->
        exists s', setFieldValues fuel s values = Done (false, s')
                   /\ doc_ s' = None)
  /\ flattenForm s = (false, set_lastError "No document loaded" s)
  /\ saveToMemory s = ([], set_lastError "No document loaded" s)
  /\ (forall path, saveToFile s path = (false, set_lastError "No document loaded" s))
  /\ (forall pageIndex dpi, renderPageToPng s pageIndex dpi = ([], s))
  /\ getPageCount s = 0 /\ getTitle s = "" /\ getAuthor s = ""
  /\ hasAcroForm s = false
  /\ getFormFields fuel s = Done (cachedFields_ s, s)
  /\ (forall n, getFieldByName fuel s n = Done (findRecord (cachedFields_ s) n, s)).
Proof.
  intros Hdoc Hmap. split_and!.
  - intros. by apply setFieldValue_empty.
  - intros name checked.
    rewrite (setCheckboxValue_resolved _ _ s) by by apply cacheFormFields_no_doc.
    unfold resolved. by rewrite Hmap, lookup_empty.
  - intros values Hne.
    destruct (setFieldValues_empty fuel values s true) as (s' & Hrun & Hdoc' & _);
      [done | done | ].
    exists s'. split; [ | done]. unfold setFieldValues. rewrite Hrun.
    by destruct values.
  - unfold flattenForm. by rewrite Hdoc.
  - unfold saveToMemory. by rewrite Hdoc.
  - intros path. unfold saveToFile, saveToMemory. by rewrite Hdoc.
  - intros pageIndex dpi. unfold renderPageToPng. by rewrite Hdoc.
  - unfold getPageCount. by rewrite Hdoc.
  - unfold getTitle. by rewrite Hdoc.
  - unfold getAuthor. by rewrite Hdoc.
  - unfold hasAcroForm, getForm. by rewrite Hdoc.
  - unfold getFormFields. by rewrite cacheFormFields_no_doc.
  - intros n. unfold getFieldByName. by rewrite cacheFormFields_no_doc.
Qed.

End Empty.

Lemma empty_session_operations_witness :
  setFieldValue (poppler := Sample.collaborators) 0 Impl_new "first" "Ann"
  = Done (false, set_lastError "Field not found: first" Impl_new)
  /\ flattenForm Impl_new = (false, set_lastError "No document loaded" Impl_new)
  /\ getPageCount Impl_new = 0.
Proof.
  destruct (empty_session_operations (poppler := Sample.collaborators) 0 Impl_new)
    as (Hset & _ & _ & Hflat & _ & _ & _ & Hpages & _); [reflexivity | reflexivity | ].
  split; [exact (Hset "first" "Ann") | ]. split; [exact Hflat | exact Hpages].
Defined.

(** C4 (as stated) fails: on a new session [setFieldValue] records "Field
    not found: first", not "No document loaded", and [getPageCount] answers
    0 where no error can be recorded. *)
Lemma empty_session_error_is_not_found :
  exists s',
    setFieldValue (poppler := Sample.collaborators) 0 Impl_new "first" "Ann"
    = Done (false, s')
    /\ lastError_ s' = "Field not found: first"
    /\ lastError_ s' <> "No document loaded"
    /\ getPageCount Impl_new = 0
    /\ lastError_ Impl_new = "".
Proof. eexists. split_and!; try reflexivity. discriminate. Qed.

(** ** Loading a second document *)

(** A load that succeeds clears the two flags and installs the document; it
    writes neither the cache nor the index. *)
Lemma loadFromMemory_success `{poppler : Collaborators} s data password s' :
  loadFromMemory s data password = (true, s') ->
  modified_ s' = false /\ fieldsCached_ s' = false
  /\ (exists doc, doc_ s' = Some doc /\ isOk doc = true)
  /\ cachedFields_ s' = cachedFields_ s /\ fieldMap_ s' = fieldMap_ s.
Proof.
  unfold loadFromMemory.
  destruct (isOk _) eqn:Hok; simpl; [ | discriminate].
  intros [= <-]. simpl. split_and!; try done. by eexists.
Qed.

(** C3: what the code does on a reload.  Load the form document, list its
    fields, then load the document without a form.  The second load
    succeeds and clears both flags, but the six records and the index
    entries of the first document are still held.  Listing the fields
    again empties the cache; the index still maps [person.first] to
    address 1, and [setFieldValue] on that identifier follows the pointer
    into a document that is gone. *)
Theorem reload_keeps_index_entries :
  let r := loadFromMemory (poppler := Sample.collaborators)
             Sample.flattened Sample.plainBytes "" in
  fieldMap_ Sample.flattened !! "person.first" = Some 1%nat
  /\ r.1 = true
  /\ doc_ r.2 = Some Sample.plainDoc
  /\ modified_ r.2 = false /\ fieldsCached_ r.2 = false
  /\ length (cachedFields_ r.2) = 6%nat
  /\ fieldMap_ r.2 !! "person.first" = Some 1%nat
  /\ exists s3,
       getFormFields (poppler := Sample.collaborators) 2 r.2 = Done ([], s3)
       /\ fieldMap_ s3 !! "person.first" = Some 1%nat
       /\ size (fieldMap_ s3) = 8%nat
       /\ setFieldValue (poppler := Sample.collaborators) 2 s3 "person.first" "Bob"
          = Undefined.
Proof.
  split_and!; try reflexivity.
  eexists. split_and!; reflexivity.
Qed.

(** The same index entries survive a load that fails: the session then
    holds no document, still hands out the six records of the old one as
    valid, and [setFieldValue] on an old identifier follows its pointer. *)
Example failed_reload_keeps_index_entries :
  let r := loadFromMemory (poppler := Sample.collaborators)
             Sample.flattened [x00] "" in
  r.1 = false
  /\ doc_ r.2 = None
  /\ lastError_ r.2 = "Failed to load PDF: error code 3"
  /\ fieldsCached_ r.2 = true
  /\ length (cachedFields_ r.2) = 6%nat
  /\ fieldMap_ r.2 !! "first" = Some 1%nat
  /\ setFieldValue (poppler := Sample.collaborators) 2 r.2 "first" "Bob" = Undefined.
Proof. split_and!; vm_compute; reflexivity. Qed.

(** ** What the operations keep *)

Lemma forallb_pointwise {A : Type} (f g : A -> bool) (l : list A) :
  (forall x, f x = g x) -> forallb f l = forallb g l.
Proof. intros H. induction l as [|x l IH]; simpl; [done | by rewrite H, IH]. Qed.

(** Replacing a node by one with the same children changes no depth. *)
Lemma treeWithin_insert (heap : gmap addr FormField) a node node' :
  heap !! a = Some node -> children node' = children node ->
  forall d p, treeWithin (<[a := node']> heap) d p = treeWithin heap d p.
Proof.
  intros Hnode Hch. induction d as [|d IH]; intros [b|]; simpl; try done.
  destruct (decide (a = b)) as [<- | Hne].
  - rewrite lookup_insert_eq, Hnode, Hch. by apply forallb_pointwise.
  - rewrite lookup_insert_ne by done.
    destruct (heap !! b); [by apply forallb_pointwise | done].
Qed.

Lemma sessionOk_frame d s s' :
  doc_ s' = doc_ s -> fieldMap_ s' = fieldMap_ s -> sessionOk d s -> sessionOk d s'.
Proof. unfold sessionOk. by intros -> ->. Qed.

Lemma storeField_sessionOk d s a node data :
  deref s a = Done node -> sessionOk d s ->
  sessionOk d (storeField a (withData node data) s).
Proof.
  intros (doc & Hdoc & Hnode)%deref_Some. unfold sessionOk, storeField.
  rewrite Hdoc. simpl. intros [Hdepth Hsound]. split.
  - unfold docWithin, formOf in *. simpl.
    destruct (getCatalog doc ≫= getForm_cat) as [form|]; [ | done].
    rewrite <- Hdepth. apply forallb_pointwise. intros p.
    by apply (treeWithin_insert _ _ node).
  - intros n b Hn. unfold indexSound in Hsound. simpl.
    destruct (decide (a = b)) as [<- | Hne].
    + rewrite lookup_insert_eq. by eexists.
    + rewrite lookup_insert_ne by done. by eapply Hsound.
Qed.

Lemma setterEffect_sessionOk d s r :
  sessionOk d s -> setterEffect s r -> sessionOk d r.2.
Proof.
  intros Hok [(e & ->) | [-> | (a & node & data & Hnode & ->)]]; simpl; try done.
  apply (sessionOk_frame d (storeField a (withData node data) s)); [done | done | ].
  by apply storeField_sessionOk.
Qed.

Section Keeps.
Context {poppler : Collaborators}.

Lemma indexField_lookup a ff (index : gmap string addr) n b :
  indexField a ff index !! n = Some b -> b = a \/ index !! n = Some b.
Proof.
  unfold indexField.
  destruct (negb (String.eqb (name ff) "") && negb (String.eqb (name ff) (fullName ff)));
    destruct (negb (String.eqb (fullName ff) ""));
    rewrite ?lookup_insert; repeat case_decide; naive_solver.
Qed.

Lemma indexField_mono a ff (index : gmap string addr) n :
  is_Some (index !! n) -> is_Some (indexField a ff index !! n).
Proof.
  unfold indexField. intros Hn.
  destruct (negb (String.eqb (name ff) "") && negb (String.eqb (name ff) (fullName ff)));
    destruct (negb (String.eqb (fullName ff) ""));
    rewrite ?lookup_insert; repeat case_decide; done.
Qed.

Lemma indexField_covers a ff (index : gmap string addr) :
  (fullName ff <> "" -> is_Some (indexField a ff index !! fullName ff))
  /\ (name ff <> "" -> name ff <> fullName ff ->
      is_Some (indexField a ff index !! name ff)).
Proof.
  unfold indexField. split.
  - intros Hfull%String.eqb_neq. rewrite Hfull. simpl.
    destruct (negb (String.eqb (name ff) "") && negb (String.eqb (name ff) (fullName ff)));
      rewrite ?lookup_insert; repeat case_decide; done.
  - intros Hname%String.eqb_neq Hdiff%String.eqb_neq. rewrite Hname, Hdiff. simpl.
    rewrite lookup_insert_eq. done.
Qed.

Lemma visit_indexSound doc a node acc :
  fieldHeap doc !! a = Some node ->
  indexSound doc acc.2 -> indexSound doc (visit a node acc).2.
Proof.
  intros Hnode Hsound. unfold visit.
  destruct (0 <? getNumWidgets node)%nat; [ | done]. simpl.
  intros n b [-> | Hold]%indexField_lookup; [by eexists | by eapply Hsound].
Qed.

Lemma visit_indexCovers a node acc :
  indexCovers acc.1 acc.2 -> indexCovers (visit a node acc).1 (visit a node acc).2.
Proof.
  intros Hcov. unfold visit.
  destruct (0 <? getNumWidgets node)%nat; [ | done]. simpl.
  intros r [Hold | ->%list_elem_of_singleton]%elem_of_app.
  - destruct (Hcov r Hold) as [Hfull Hname]. split.
    + intros H. by apply indexField_mono, Hfull.
    + intros H1 H2. by apply indexField_mono, Hname.
  - apply indexField_covers.
Qed.

Lemma cacheFormFields_sessionOk d fuel s s' :
  sessionOk d s -> cacheFormFields fuel s = Done s' -> sessionOk d s'.
Proof.
  intros Hok Hrun.
  destruct (cacheFormFields_Done _ _ _ Hrun)
    as [-> | (doc & cache & index & Hc & Hd & _ & Hinv & ->)]; [done | ].
  unfold sessionOk in *. rewrite Hd in Hok. simpl. destruct Hok as [Hdepth Hsound].
  split; [done | ].
  apply (Hinv (fun acc => indexSound doc acc.2)); [ | done].
  intros a node acc Hnode. by apply visit_indexSound.
Qed.

Lemma cacheFormFields_cacheInOrder fuel s s' :
  cacheInOrder s -> cacheFormFields fuel s = Done s' -> cacheInOrder s'.
Proof.
  intros Hin Hrun.
  destruct (cacheFormFields_Done _ _ _ Hrun)
    as [-> | (doc & cache & index & Hc & Hd & Hflat & Hinv & ->)]; [done | ].
  split; simpl.
  - apply (Hinv (fun acc => indexCovers acc.1 acc.2)).
    + intros a node acc _. apply visit_indexCovers.
    + simpl. intros r Hr. by apply elem_of_nil in Hr.
  - intros _ doc' [= <-]. done.
Qed.

Lemma setterEffect_cacheInOrder s r :
  cacheInOrder s -> setterEffect s r -> cacheInOrder r.2.
Proof.
  intros Hin [(e & ->) | [-> | (a & node & data & Hnode & ->)]]; simpl; try done.
  destruct Hin as [Hcov _]. split; simpl; [ | done].
  by destruct (storeField_keeps s a (withData node data)) as (_ & -> & -> & _).
Qed.

Lemma applyValue_effect s name value a node :
  deref s a = Done node -> setterEffect s (applyValue s name value a node).
Proof.
  intros Hnode. unfold applyValue, getType, applyText, applyChoice, applyButton.
  destruct (fieldData node) as [content | multiselect choices | btype st | | ].
  - right. right. by eexists a, node, _.
  - destruct (scanChoices choices value 0 <? 0).
    + left. by eexists.
    + right. right. by eexists a, node, _.
  - destruct (decide (btype <> formButtonCheck /\ btype <> formButtonRadio)).
    + right. by left.
    + right. right. by eexists a, node, _.
  - left. by eexists.
  - left. by eexists.
Qed.

Lemma applyButton_effect s name checked a node :
  deref s a = Done node -> setterEffect s (applyButton s name checked a node).
Proof.
  intros Hnode. unfold applyButton.
  destruct (fieldData node) as [content | multiselect choices | btype st | | ];
    try (left; by eexists).
  destruct (decide (btype <> formButtonCheck /\ btype <> formButtonRadio)).
  - right. by left.
  - right. right. by eexists a, node, _.
Qed.

Lemma resolved_effect s name apply r :
  (forall a node, deref s a = Done node -> setterEffect s (apply a node)) ->
  resolved s name apply = Done r -> setterEffect s r.
Proof.
  intros Happly. unfold resolved.
  destruct (fieldMap_ s !! name) as [a|].
  - intros (node & Hnode & [= <-])%bind_Done. by apply Happly.
  - intros [= <-]. left. by eexists.
Qed.

(** A finished [setFieldValue] is a finished lookup followed by one of the
    three effects. *)
Lemma setFieldValue_effect fuel s name value r :
  setFieldValue fuel s name value = Done r ->
  exists s1, cacheFormFields fuel s = Done s1 /\ setterEffect s1 r.
Proof.
  intros Hrun.
  destruct (cacheFormFields fuel s) as [s1| |] eqn:Hcache;
    [ | unfold setFieldValue, findFormField in Hrun; by rewrite Hcache in Hrun .. ].
  exists s1. split; [done | ].
  rewrite (setFieldValue_resolved _ _ s1) in Hrun by done.
  eapply resolved_effect; [ | exact Hrun].
  intros a node. apply applyValue_effect.
Qed.

Lemma setCheckboxValue_effect fuel s name checked r :
  setCheckboxValue fuel s name checked = Done r ->
  exists s1, cacheFormFields fuel s = Done s1 /\ setterEffect s1 r.
Proof.
  intros Hrun.
  destruct (cacheFormFields fuel s) as [s1| |] eqn:Hcache;
    [ | unfold setCheckboxValue, setButtonFieldValue, findFormField in Hrun;
        by rewrite Hcache in Hrun .. ].
  exists s1. split; [done | ].
  rewrite (setCheckboxValue_resolved _ _ s1) in Hrun by done.
  eapply resolved_effect; [ | exact Hrun].
  intros a node. apply applyButton_effect.
Qed.

End Keeps.

(** ** Batches of values *)

Section Batch.
Context {poppler : Collaborators}.

(** In a session whose pointers are good, [setFieldValue] ends, and leaves
    such a session. *)
Lemma setFieldValue_total d fuel s name value :
  sessionOk d s -> (d <= fuel)%nat ->
  exists r, setFieldValue fuel s name value = Done r /\ sessionOk d r.2.
Proof.
  intros Hok Hle.
  destruct (cacheFormFields_total d s) as [s1 Hs1].
  { intros doc Hdoc. unfold sessionOk in Hok. rewrite Hdoc in Hok. tauto. }
  specialize (Hs1 fuel Hle).
  pose proof (cacheFormFields_sessionOk _ _ _ _ Hok Hs1) as Hok1.
  rewrite (setFieldValue_resolved _ _ s1) by done.
  unfold resolved. destruct (fieldMap_ s1 !! name) as [a|] eqn:Hname.
  - assert (exists node, deref s1 a = Done node) as [node Hnode].
    { unfold sessionOk in Hok1. unfold deref.
      destruct (doc_ s1) as [doc|]; [ | by rewrite Hok1, lookup_empty in Hname].
      destruct Hok1 as [_ Hsound]. destruct (Hsound _ _ Hname) as [node ->].
      by exists node. }
    rewrite Hnode. simpl. eexists. split; [reflexivity | ].
    apply (setterEffect_sessionOk d s1); [done | by apply applyValue_effect].
  - eexists. split; [reflexivity | done].
Qed.

Lemma applyEach_total d fuel values : forall s,
  sessionOk d s -> (d <= fuel)%nat ->
  exists oks s',
    applyEach fuel s values = Done (oks, s')
    /\ length oks = length values /\ sessionOk d s'.
Proof.
  induction values as [|[n v] rest IH]; intros s Hok Hle.
  - by exists [], s.
  - destruct (setFieldValue_total d fuel s n v Hok Hle) as ([ok s1] & Hrun & Hok1).
    destruct (IH s1 Hok1 Hle) as (oks & s' & Hrest & Hlen & Hok').
    exists (ok :: oks), s'. simpl. rewrite Hrun. simpl. rewrite Hrest. simpl.
    by rewrite Hlen.
Qed.

(** The loop of [setFieldValues], started with any [allSuccess], is
    [applyEach] followed by taking the conjunction of the results. *)
Lemma setFieldValues_loop_applyEach fuel values : forall s b,
  forEach
    (fun (nv : string * string) (acc : bool * Impl) =>
       setFieldValue fuel acc.2 nv.1 nv.2 ≫= fun r : bool * Impl =>
       Done ((if r.1 then acc.1 else false), r.2))
    values (b, s)
  = applyEach fuel s values ≫= fun rs : list bool * Impl =>
    Done (b && forallb id rs.1, rs.2).
Proof.
  induction values as [|[n v] rest IH]; intros s b.
  - simpl. by rewrite andb_true_r.
  - rewrite forEach_cons. simpl.
    destruct (setFieldValue fuel s n v) as [[ok s1]| |]; [ | done | done]. simpl.
    rewrite IH. destruct (applyEach fuel s1 rest) as [[oks s']| |]; [ | done | done].
    simpl. by destruct ok, b.
Qed.

(** A pair that fails changes neither the document nor the dirty flag. *)
Lemma setFieldValue_failure_keeps fuel s name value s' :
  setFieldValue fuel s name value = Done (false, s') ->
  doc_ s' = doc_ s /\ modified_ s' = modified_ s.
Proof.
  intros (s1 & Hcache & Heff)%setFieldValue_effect.
  destruct (cacheFormFields_keeps _ _ _ Hcache) as (Hd & _ & Hm & _).
  by destruct Heff as [(e & [= ->]) | [[=] | (a & node & data & _ & [=])]].
Qed.

(** C6.  [setFieldValues] is [setFieldValue] applied to every pair, in
    the order given, each on the session the previous pair left, whether
    that pair succeeded or not, followed by the conjunction of all results;
    a pair that fails changes neither the document nor the dirty flag; and
    in a session whose pointers are good the whole batch ends, with one
    result per pair, and returns true exactly when every pair returned
    true. *)
Theorem setFieldValues_applies_every_pair (d fuel : nat) (s : Impl)
    (values : list (string * string)) :
  setFieldValues fuel s values
  = (applyEach fuel s values ≫= fun rs : list bool * Impl =>
     Done (forallb id rs.1, rs.2))
  /\ (forall s1 n v s2,
        setFieldValue fuel s1 n v = Done (false, s2) ->
        doc_ s2 = doc_ s1 /\ modified_ s2 = modified_ s1)
  /\ (sessionOk d s -> (d <= fuel)%nat ->
      exists oks s',
        applyEach fuel s values = Done (oks, s')
        /\ length oks = length values
        /\ setFieldValues fuel s values = Done (forallb id oks, s')
        /\ (forallb id oks = true <-> forall ok, ok ∈ oks -> ok = true)).
Proof.
  assert (setFieldValues fuel s values
          = (applyEach fuel s values ≫= fun rs : list bool * Impl =>
             Done (forallb id rs.1, rs.2))) as Heq.
  { unfold setFieldValues. by rewrite setFieldValues_loop_applyEach. }
  split_and!; [done | apply setFieldValue_failure_keeps | ].
  intros Hok Hle.
  destruct (applyEach_total d fuel values s Hok Hle) as (oks & s' & Hrun & Hlen & _).
  exists oks, s'. split_and!; try done.
  - by rewrite Heq, Hrun.
  - rewrite forallb_forall. split.
    + intros H ok Hin%list_elem_of_In. by apply H.
    + intros H ok Hin%list_elem_of_In. by apply H.
Qed.

End Batch.

Lemma setFieldValues_applies_every_pair_witness :
  exists oks s',
    applyEach (poppler := Sample.collaborators) 2 Sample.loaded Sample.batch
    = Done (oks, s')
    /\ length oks = length Sample.batch
    /\ setFieldValues (poppler := Sample.collaborators) 2 Sample.loaded Sample.batch
       = Done (forallb id oks, s')
    /\ (forallb id oks = true <-> forall ok, ok ∈ oks -> ok = true).
Proof.
  destruct (setFieldValues_applies_every_pair (poppler := Sample.collaborators)
              2 2 Sample.loaded Sample.batch) as (_ & _ & Hends).
  apply Hends.
  - split; [reflexivity | ]. intros n a H. vm_compute in H. discriminate.
  - lia.
Defined.

(** The batch of the witness: the second pair fails, the first and the
    third are applied all the same. *)
Example partial_batch_is_applied :
  setFieldValues (poppler := Sample.collaborators) 2 Sample.loaded Sample.batch
  = Done (false, Sample.afterBatch)
  /\ lastError_ Sample.afterBatch = "Field not found: missing"
  /\ (fun r : option PdfFormField * Impl => value <$> r.1)
       <$> getFieldByName (poppler := Sample.collaborators) 2 Sample.afterBatch "first"
     = Done (Some "Zoe")
  /\ (fun r : option PdfFormField * Impl => isChecked <$> r.1)
       <$> getFieldByName (poppler := Sample.collaborators) 2 Sample.afterBatch "agree"
     = Done (Some true).
Proof. split_and!; vm_compute; reflexivity. Qed.

(** ** Dirty flag, cache and index *)

Section Invalidation.
Context {poppler : Collaborators}.

Lemma cacheInOrder_frame s s' :
  cachedFields_ s' = cachedFields_ s -> fieldMap_ s' = fieldMap_ s ->
  fieldsCached_ s' = fieldsCached_ s -> doc_ s' = doc_ s ->
  cacheInOrder s -> cacheInOrder s'.
Proof. unfold cacheInOrder. by intros -> -> -> ->. Qed.

Lemma loadFromMemory_cacheInOrder s data password :
  cacheInOrder s -> cacheInOrder (loadFromMemory s data password).2.
Proof.
  intros [Hcov Hflat]. unfold loadFromMemory.
  destruct (negb (isOk _)); split; simpl; try done.
Qed.

Lemma loadFromFile_cacheInOrder s path password :
  cacheInOrder s -> cacheInOrder (loadFromFile s path password).2.
Proof.
  intros Hin. unfold loadFromFile. destruct (readFile path) as [bytes|]; simpl.
  - apply loadFromMemory_cacheInOrder. by apply (cacheInOrder_frame s).
  - by apply (cacheInOrder_frame s).
Qed.

Lemma flattenForm_cacheInOrder s :
  cacheInOrder s -> cacheInOrder (flattenForm s).2.
Proof.
  intros Hin. unfold flattenForm.
  destruct (doc_ s) eqn:Hd; [destruct (getForm s) | ]; simpl;
    by apply (cacheInOrder_frame s).
Qed.

Lemma saveToMemory_cacheInOrder s :
  cacheInOrder s -> cacheInOrder (saveToMemory s).2.
Proof.
  intros Hin. unfold saveToMemory.
  destruct (doc_ s) as [doc|] eqn:Hd; simpl; [ | by apply (cacheInOrder_frame s)].
  destruct (negb _); simpl; [by apply (cacheInOrder_frame s) | ].
  destruct (saveAs doc _).2; simpl; [done | by apply (cacheInOrder_frame s)].
Qed.

Lemma saveToFile_cacheInOrder s path :
  cacheInOrder s -> cacheInOrder (saveToFile s path).2.
Proof.
  intros Hin%saveToMemory_cacheInOrder. unfold saveToFile.
  destruct (saveToMemory s).1; simpl; [done | ].
  destruct (writeFile _ _); simpl; [done | ].
  by apply (cacheInOrder_frame (saveToMemory s).2).
Qed.

Lemma renderPageToPng_cacheInOrder s pageIndex dpi :
  cacheInOrder s -> cacheInOrder (renderPageToPng s pageIndex dpi).2.
Proof.
  intros Hin. unfold renderPageToPng.
  destruct (doc_ s) as [doc|] eqn:Hd; simpl; [ | done].
  destruct (_ || _); simpl; [done | ].
  destruct (displayPage _ _ _); simpl; [ | by apply (cacheInOrder_frame s)].
  by destruct (encodePng _).
Qed.

Lemma setFieldValue_cacheInOrder fuel s name value r :
  cacheInOrder s -> setFieldValue fuel s name value = Done r -> cacheInOrder r.2.
Proof.
  intros Hin (s1 & Hcache & Heff)%setFieldValue_effect.
  apply (setterEffect_cacheInOrder s1); [ | done].
  by apply (cacheFormFields_cacheInOrder fuel s).
Qed.

Lemma exec_cacheInOrder fuel c s s' :
  cacheInOrder s -> exec fuel c s = Done s' -> cacheInOrder s'.
Proof.
  intros Hin. destruct c; simpl.
  - intros [= <-]. by apply loadFromMemory_cacheInOrder.
  - intros [= <-]. by apply loadFromFile_cacheInOrder.
  - intros (r & Hrun & ->)%fmap_Done. unfold getFormFields in Hrun.
    apply bind_Done in Hrun as (s1 & Hcache & [= <-]).
    by apply (cacheFormFields_cacheInOrder fuel s).
  - intros (r & Hrun & ->)%fmap_Done. unfold getFieldByName in Hrun.
    apply bind_Done in Hrun as (s1 & Hcache & [= <-]).
    by apply (cacheFormFields_cacheInOrder fuel s).
  - intros (r & Hrun & ->)%fmap_Done. by eapply setFieldValue_cacheInOrder.
  - intros (r & (s1 & Hcache & Heff)%setCheckboxValue_effect & ->)%fmap_Done.
    apply (setterEffect_cacheInOrder s1); [ | done].
    by apply (cacheFormFields_cacheInOrder fuel s).
  - intros (r & Hrun & ->)%fmap_Done. unfold setFieldValues in Hrun.
    apply (forEach_invariant (fun acc : bool * Impl => cacheInOrder acc.2)) in Hrun;
      [done | | done].
    intros nv acc1 acc2 _ Hacc (r1 & Hset & [= <-])%bind_Done. simpl.
    by eapply setFieldValue_cacheInOrder.
  - intros [= <-]. by apply flattenForm_cacheInOrder.
  - intros [= <-]. by apply saveToMemory_cacheInOrder.
  - intros [= <-]. by apply saveToFile_cacheInOrder.
  - intros [= <-]. by apply renderPageToPng_cacheInOrder.
Qed.

Lemma reachable_cacheInOrder s : reachable s -> cacheInOrder s.
Proof.
  induction 1 as [ | fuel c s s' _ IH Hexec].
  - split; simpl; [ | done]. intros r Hr. by apply elem_of_nil in Hr.
  - by eapply exec_cacheInOrder.
Qed.

Lemma flags_after_set s x : set_fieldsCached false (set_modified true x) = s ->
  modified_ s = true /\ fieldsCached_ s = false.
Proof. by intros <-. Qed.

Lemma applyButton_same s name checked a node :
  applyButton s name checked a node = (true, s) ->
  (modified_ s = true /\ fieldsCached_ s = false)
  \/ exists st, fieldData node = ButtonData formButtonPush st.
Proof.
  unfold applyButton.
  destruct (fieldData node) as [ | | btype st | | ]; try discriminate.
  destruct (decide (btype <> formButtonCheck /\ btype <> formButtonRadio)) as [[H1 H2] | ].
  - intros _. right. exists st. by destruct btype.
  - intros [= Heq]. left. by apply flags_after_set in Heq.
Qed.

Lemma applyValue_same s name value a node :
  applyValue s name value a node = (true, s) ->
  (modified_ s = true /\ fieldsCached_ s = false)
  \/ exists st, fieldData node = ButtonData formButtonPush st.
Proof.
  unfold applyValue, getType, applyText, applyChoice.
  destruct (fieldData node) as [ | multiselect choices | btype st | | ] eqn:Hdata;
    try discriminate.
  - intros [= Heq]. left. by apply flags_after_set in Heq.
  - destruct (_ <? 0); [discriminate | ].
    intros [= Heq]. left. by apply flags_after_set in Heq.
  - intros H. apply applyButton_same in H. by rewrite Hdata in H.
Qed.

(** A setter that returned true either set both flags or met a push
    button. *)
Lemma setter_true s name apply s' :
  (forall a node, deref s a = Done node -> setterEffect s (apply a node)) ->
  (forall a node, apply a node = (true, s) ->
                  (modified_ s = true /\ fieldsCached_ s = false)
                  \/ exists st, fieldData node = ButtonData formButtonPush st) ->
  resolved s name apply = Done (true, s') ->
  (modified_ s' = true /\ fieldsCached_ s' = false)
  \/ (s' = s /\ pushButtonAt s name).
Proof.
  intros Heff Hsame. unfold resolved.
  destruct (fieldMap_ s !! name) as [a|] eqn:Hname; [ | discriminate].
  intros (node & Hnode & [= Happly])%bind_Done.
  destruct (Heff a node Hnode) as [(e & He) | [Hs | (a' & node' & data & _ & Hset)]].
  - rewrite Happly in He. discriminate.
  - rewrite Happly in Hs. injection Hs as ->.
    destruct (Hsame a node Happly) as [Hflags | [st Hst]]; [by left | ].
    right. split; [done | ]. by exists a, node, st.
  - rewrite Happly in Hset. injection Hset as ->. by left.
Qed.

End Invalidation.

Lemma flattened_reachable : reachable (poppler := Sample.collaborators) Sample.flattened.
Proof.
  apply (reachable_call 2 CallGetFormFields Sample.loaded).
  - apply (reachable_call 0 (CallLoadFromMemory Sample.formBytes "") Impl_new).
    + apply reachable_new.
    + reflexivity.
  - reflexivity.
Defined.

(** ** Termination of the flattening traversal *)

(** C1 (as amended).  On every loaded document whose field trees are
    finite, that is, every chain of child references from a root field ends
    within [d] nodes, listing the fields ends, and it ends with the same
    result for every recursion depth from [d] on.  Nothing in the code
    bounds the depth or remembers visited nodes, so the bound on the
    document is needed. *)
Theorem flatten_terminates_on_bounded_trees `{poppler : Collaborators}
    (d : nat) (s : Impl) (doc : PDFDoc) :
  doc_ s = Some doc ->
  docWithin d doc = true ->
  exists fields s', forall fuel,
    (d <= fuel)%nat -> getFormFields fuel s = Done (fields, s').
Proof.
  intros Hdoc Hdepth.
  destruct (cacheFormFields_total d s) as [s' Hs'].
  { intros doc' Hdoc'. congruence. }
  exists (cachedFields_ s'), s'. intros fuel Hle.
  unfold getFormFields. by rewrite Hs'.
Qed.

Lemma flatten_terminates_on_bounded_trees_witness :
  exists fields s', forall fuel,
    (2 <= fuel)%nat ->
    getFormFields (poppler := Sample.collaborators) fuel Sample.loaded
    = Done (fields, s').
Proof.
  apply (flatten_terminates_on_bounded_trees 2 Sample.loaded Sample.formDoc);
    reflexivity.
Defined.

(** On the self-referencing sample field every amount of fuel is used
    up. *)
Lemma collect_loop_out_of_fuel fuel : forall acc,
  collectFieldsRecursive (poppler := Sample.collaborators) fuel
    (fieldHeap Sample.loopDoc) (Some 0%nat) acc = OutOfFuel.
Proof.
  induction fuel as [|fuel IH]; intros acc; [reflexivity | ].
  rewrite (collect_node _ _ _ Sample.loopField) by reflexivity.
  change (children Sample.loopField) with [Some 0%nat].
  rewrite forEach_cons. by rewrite IH.
Qed.

(** C1 (as stated) fails: on the document whose only field is its own
    child, listing the fields has not ended after any number of steps; the
    traversal is still descending, whatever the fuel. *)
Lemma flatten_cyclic_never_ends :
  (~ exists fuel r,
       getFormFields (poppler := Sample.collaborators) fuel Sample.loadedLoop
       = Done r)
  /\ (forall fuel,
        getFormFields (poppler := Sample.collaborators) fuel Sample.loadedLoop
        = OutOfFuel).
Proof.
  assert (forall fuel,
             getFormFields (poppler := Sample.collaborators) fuel Sample.loadedLoop
             = OutOfFuel) as Hout.
  { intros fuel. unfold getFormFields.
    rewrite (cacheFormFields_rebuild _ _ Sample.loopDoc) by reflexivity.
    change (formOf Sample.loopDoc) with (Some (mkForm [Some 0%nat])).
    cbv beta iota.
    change (rootFields (mkForm [Some 0%nat])) with [Some 0%nat].
    rewrite forEach_cons. by rewrite collect_loop_out_of_fuel. }
  split; [ | exact Hout].
  intros (fuel & r & Hrun). by rewrite Hout in Hrun.
Qed.

(** ** Rendering *)

(** C8.  Without a document, and for a page index below zero or not below
    the page count, [renderPageToPng] returns the empty vector, whatever
    the resolution, and leaves the session as it is. *)
Theorem renderPage_out_of_range `{poppler : Collaborators}
    (s : Impl) (pageIndex : Z) (dpi : float) :
  doc_ s = None \/ pageIndex < 0 \/ getPageCount s <= pageIndex ->
  renderPageToPng s pageIndex dpi = ([], s).
Proof.
  unfold renderPageToPng, getPageCount.
  destruct (doc_ s) as [doc|]; [ | done].
  intros [Hnone | [Hneg | Hbig]]; [done | | ].
  - by rewrite (proj2 (Z.ltb_lt _ _) Hneg).
  - rewrite (proj2 (Z.geb_le _ _) Hbig). by rewrite orb_true_r.
Qed.

Lemma renderPage_out_of_range_witness :
  renderPageToPng (poppler := Sample.collaborators) Sample.loaded 2 150%float
  = ([], Sample.loaded).
Proof.
  apply (renderPage_out_of_range Sample.loaded 2 150%float).
  right. right. vm_compute. discriminate.
Defined.

(** ** Names of the flattened records *)

(** C9 (as amended).  Every record the flattener emits is built from a node
    of the heap that has a widget; if that node has no partial name, or a
    partial name that is the same string as its fully qualified name, the
    record's [name] equals its [fullName]. *)
Theorem flattened_name_alias `{poppler : Collaborators}
    (fuel : nat) (heap : gmap addr FormField) (p : FieldPtr)
    (out : list PdfFormField * gmap string addr) (r : PdfFormField) :
  collectFieldsRecursive fuel heap p ([], ∅) = Done out ->
  r ∈ out.1 ->
  exists a node,
    heap !! a = Some node /\ (0 < getNumWidgets node)%nat /\ r = makeRecord node
    /\ (partialName node = None \/ partialName node = fullyQualifiedName node ->
        name r = fullName r).
Proof.
  intros Hrun Hr.
  assert (forall r', r' ∈ out.1 -> exists a node,
             heap !! a = Some node /\ (0 < getNumWidgets node)%nat
             /\ r' = makeRecord node) as Hall.
  { eapply (collect_invariant
              (fun acc => forall r', r' ∈ acc.1 -> exists a node,
                   heap !! a = Some node /\ (0 < getNumWidgets node)%nat
                   /\ r' = makeRecord node)); [ | | exact Hrun].
    - intros a node acc Hnode Hacc r'. unfold visit.
      destruct (0 <? getNumWidgets node)%nat eqn:Hw; [ | apply Hacc].
      simpl. intros [Hold | Hnew%list_elem_of_singleton]%elem_of_app.
      + by apply Hacc.
      + exists a, node. split_and!; [done | by apply Nat.ltb_lt | done].
    - simpl. intros r' Hin. by apply elem_of_nil in Hin. }
  destruct (Hall r Hr) as (a & node & Hnode & Hw & ->).
  exists a, node. split_and!; try done.
  unfold makeRecord, recordName, recordFullName. simpl.
  intros [Hnone | Hsame].
  - by rewrite Hnone.
  - rewrite Hsame. by destruct (fullyQualifiedName node).
Qed.

Lemma flattened_name_alias_witness :
  exists (a : addr) (node : FormField),
    Sample.formHeap !! a = Some node /\ (0 < getNumWidgets node)%nat
    /\ makeRecord (poppler := Sample.collaborators) Sample.sig
       = makeRecord (poppler := Sample.collaborators) node
    /\ (partialName node = None \/ partialName node = fullyQualifiedName node ->
        name (makeRecord (poppler := Sample.collaborators) Sample.sig)
        = fullName (makeRecord (poppler := Sample.collaborators) Sample.sig)).
Proof.
  apply (flattened_name_alias (poppler := Sample.collaborators) 1 Sample.formHeap
           (Some 5%nat)
           ([makeRecord (poppler := Sample.collaborators) Sample.sig],
            {["sig" := 5%nat]})).
  - reflexivity.
  - simpl. apply list_elem_of_singleton. reflexivity.
Defined.

(** C9 (as stated) fails: the third child of [person] has the empty string
    as its partial name; the flattener emits a record for it whose [name]
    is empty while its [fullName] is not. *)
Lemma empty_partial_name_not_aliased :
  partialName Sample.unnamed = Some ""
  /\ (exists fields s',
        getFormFields (poppler := Sample.collaborators) 2 Sample.loaded
        = Done (fields, s')
        /\ fields !! 2%nat
           = Some (makeRecord (poppler := Sample.collaborators) Sample.unnamed))
  /\ name (makeRecord (poppler := Sample.collaborators) Sample.unnamed) = ""
  /\ fullName (makeRecord (poppler := Sample.collaborators) Sample.unnamed)
     = "person."
  /\ name (makeRecord (poppler := Sample.collaborators) Sample.unnamed)
     <> fullName (makeRecord (poppler := Sample.collaborators) Sample.unnamed).
Proof.
  split_and!; try reflexivity.
  - eexists _, _. split; reflexivity.
  - discriminate.
Qed.

(** ** Type tags *)

(** C10.  Each of the seven field types is mapped to its string tag and
    back to itself. *)
Theorem fieldType_string_roundtrip :
  forall t : FieldType, stringToFieldType (fieldTypeToString t) = t.
Proof. intros t. destruct t; reflexivity. Qed.

(** * Further properties of the code *)

(** ** The traversal, address by address *)

Section Order.
Context {poppler : Collaborators}.
Implicit Types (heap : gmap addr FormField) (p : FieldPtr)
               (acc : list PdfFormField * gmap string addr).

Lemma visitAll_app heap l1 l2 acc :
  visitAll heap (l1 ++ l2) acc = visitAll heap l2 (visitAll heap l1 acc).
Proof. unfold visitAll. apply foldl_app. Qed.

(** A loop of traversals is the loop of their orders followed by the
    visits. *)
Lemma forEach_collect_preorder fuel heap
    (IH : forall p acc,
        collectFieldsRecursive fuel heap p acc
        = preorder fuel heap p ≫= fun l => Done (visitAll heap l acc)) :
  forall (cs : list FieldPtr) (seen : list addr) acc,
    forEach (collectFieldsRecursive fuel heap) cs (visitAll heap seen acc)
    = forEach (fun c (seen : list addr) =>
                 l ← preorder fuel heap c; Done (seen ++ l)%list) cs seen
      ≫= fun l => Done (visitAll heap l acc).
Proof.
  induction cs as [|c cs IHcs]; intros seen acc; [done | ].
  rewrite !forEach_cons, IH.
  destruct (preorder fuel heap c) as [l| |]; [ | done | done]. simpl.
  rewrite <- visitAll_app. apply IHcs.
Qed.

Lemma collect_preorder fuel heap : forall p acc,
  collectFieldsRecursive fuel heap p acc
  = preorder fuel heap p ≫= fun l => Done (visitAll heap l acc).
Proof.
  induction fuel as [|fuel IH]; intros [a|] acc; try done.
  simpl. destruct (heap !! a) as [node|] eqn:Hnode; [ | done].
  rewrite <- (forEach_collect_preorder fuel heap IH (children node) [a] acc).
  unfold visitAll. simpl. by rewrite Hnode.
Qed.

Lemma roots_preorder fuel heap roots acc :
  forEach (collectFieldsRecursive fuel heap) roots acc
  = preorderRoots fuel heap roots ≫= fun l => Done (visitAll heap l acc).
Proof.
  unfold preorderRoots.
  by rewrite <- (forEach_collect_preorder fuel heap (collect_preorder fuel heap)).
Qed.

Lemma visitAll_records heap l : forall acc,
  (visitAll heap l acc).1 = (acc.1 ++ recordsOf heap l)%list.
Proof.
  induction l as [|a l IH]; intros acc.
  - simpl. by rewrite app_nil_r.
  - change (visitAll heap (a :: l) acc)
      with (visitAll heap l (match heap !! a with
                             | Some node => visit a node acc
                             | None => acc
                             end)).
    rewrite IH. unfold recordsOf. simpl. unfold visit.
    destruct (heap !! a) as [node|]; [ | done].
    destruct (0 <? getNumWidgets node)%nat; [ | done].
    simpl. by rewrite <- app_assoc.
Qed.

(** X1.  When the cache is not marked valid, listing the fields of a
    document with a form walks the root fields in order, each tree depth
    first with a node before its children, and returns one record for every
    visited node that has a widget, in that order, and no other record; the
    session it leaves holds that list, the index with the entries of those
    nodes written over what it held, and the validity flag set. *)
Theorem getFormFields_is_preorder (fuel : nat) (s : Impl) (doc : PDFDoc)
    (form : Form) :
  doc_ s = Some doc -> fieldsCached_ s = false -> formOf doc = Some form ->
  getFormFields fuel s
  = preorderRoots fuel (fieldHeap doc) (rootFields form) ≫= fun visited =>
    Done (recordsOf (fieldHeap doc) visited,
          mkImpl (Some doc) (originalData_ s) (lastError_ s)
                 (recordsOf (fieldHeap doc) visited)
                 (visitAll (fieldHeap doc) visited ([], fieldMap_ s)).2
                 true (modified_ s)).
Proof.
  intros Hdoc Hc Hform. unfold getFormFields.
  rewrite (cacheFormFields_rebuild _ _ doc), Hform, roots_preorder by done.
  destruct (preorderRoots fuel (fieldHeap doc) (rootFields form)) as [l| |];
    [ | done | done].
  simpl. rewrite visitAll_records. simpl.
  unfold set_fieldsCached, set_fieldMap, set_cachedFields. simpl.
  by rewrite Hdoc.
Qed.

(** X2.  What a listing returns after an invalidation depends on the
    document only: two sessions that hold the same document and are both
    marked invalid list the same records, whatever their caches and indexes
    held before. *)
Theorem getFormFields_ignores_old_cache (fuel : nat) (s1 s2 : Impl) :
  doc_ s1 = doc_ s2 -> doc_ s1 <> None ->
  fieldsCached_ s1 = false -> fieldsCached_ s2 = false ->
  fst <$> getFormFields fuel s1 = fst <$> getFormFields fuel s2.
Proof.
  intros Hdoc Hsome Hc1 Hc2.
  destruct (doc_ s1) as [doc|] eqn:Hd1; [ | done]. symmetry in Hdoc.
  destruct (formOf doc) as [form|] eqn:Hform.
  - unfold getFormFields.
    rewrite (cacheFormFields_rebuild _ s1 doc), (cacheFormFields_rebuild _ s2 doc),
      Hform, !roots_preorder by done.
    destruct (preorderRoots fuel (fieldHeap doc) (rootFields form)) as [l| |];
      [ | done | done].
    simpl. by rewrite !visitAll_records.
  - unfold getFormFields.
    by rewrite (cacheFormFields_rebuild _ s1 doc), (cacheFormFields_rebuild _ s2 doc),
      Hform by done.
Qed.

(** X3.  Listing is repeatable: once a listing has ended, every further
    listing of the session it left returns the same records and the same
    session, with any fuel, since the cache is now marked valid or there is
    no document. *)
Theorem getFormFields_again (fuel fuel' : nat) (s s' : Impl)
    (fields : list PdfFormField) :
  getFormFields fuel s = Done (fields, s') ->
  getFormFields fuel' s' = Done (fields, s').
Proof.
  unfold getFormFields. intros (s1 & Hcache & [= <- <-])%bind_Done.
  by rewrite (cacheFormFields_again fuel fuel' s s1).
Qed.

End Order.

Lemma getFormFields_is_preorder_witness :
  getFormFields (poppler := Sample.collaborators) 2 Sample.loaded
  = preorderRoots 2 (fieldHeap Sample.formDoc)
                  [Some 0%nat; Some 3%nat; Some 4%nat; Some 5%nat]
    ≫= fun visited =>
    Done (recordsOf (poppler := Sample.collaborators) (fieldHeap Sample.formDoc) visited,
          mkImpl (Some Sample.formDoc) (originalData_ Sample.loaded)
                 (lastError_ Sample.loaded)
                 (recordsOf (poppler := Sample.collaborators)
                            (fieldHeap Sample.formDoc) visited)
                 (visitAll (poppler := Sample.collaborators)
                           (fieldHeap Sample.formDoc) visited
                           ([], fieldMap_ Sample.loaded)).2
                 true (modified_ Sample.loaded)).
Proof.
  apply (getFormFields_is_preorder (poppler := Sample.collaborators) 2 Sample.loaded
           Sample.formDoc (mkForm [Some 0%nat; Some 3%nat; Some 4%nat; Some 5%nat]));
    reflexivity.
Defined.

(** The order in which the sample form is visited. *)
Example sample_preorder :
  preorderRoots 2 (fieldHeap Sample.formDoc)
                [Some 0%nat; Some 3%nat; Some 4%nat; Some 5%nat]
  = Done [0; 1; 2; 6; 3; 4; 5]%nat.
Proof. vm_compute. reflexivity. Qed.

Lemma getFormFields_ignores_old_cache_witness :
  fst <$> getFormFields (poppler := Sample.collaborators) 2 Sample.loaded
  = fst <$> getFormFields (poppler := Sample.collaborators) 2
              (set_fieldsCached false Sample.flattened).
Proof.
  apply (getFormFields_ignores_old_cache (poppler := Sample.collaborators) 2
           Sample.loaded (set_fieldsCached false Sample.flattened));
    [vm_compute; reflexivity | discriminate | reflexivity | reflexivity].
Defined.

Lemma getFormFields_again_witness :
  getFormFields (poppler := Sample.collaborators) 0 Sample.flattened
  = Done (cachedFields_ Sample.flattened, Sample.flattened).
Proof.
  apply (getFormFields_again (poppler := Sample.collaborators) 2 0 Sample.loaded).
  vm_compute. reflexivity.
Defined.

(** ** Looking fields up *)

Lemma findRecord_None (fields : list PdfFormField) (n : string) :
  findRecord fields n = None <->
  forall g, g ∈ fields -> name g <> n /\ fullName g <> n.
Proof.
  induction fields as [|f fields IH]; simpl.
  - split; [ | done]. intros _ g Hg. by apply elem_of_nil in Hg.
  - destruct (String.eqb_spec (name f) n) as [Hn | Hn]; simpl.
    { split; [done | ]. intros H. destruct (H f) as [H1 _]; [by left | done]. }
    destruct (String.eqb_spec (fullName f) n) as [Hf | Hf]; simpl.
    { split; [done | ]. intros H. destruct (H f) as [_ H2]; [by left | done]. }
    rewrite IH. split.
    + intros H g [-> | Hg]%elem_of_cons; [done | by apply H].
    + intros H g Hg. apply H. by right.
Qed.

Lemma findRecord_Some (fields : list PdfFormField) (n : string) (r : PdfFormField) :
  findRecord fields n = Some r ->
  exists i : nat,
    fields !! i = Some r /\ (name r = n \/ fullName r = n)
    /\ forall (j : nat) g, (j < i)%nat -> fields !! j = Some g ->
                           name g <> n /\ fullName g <> n.
Proof.
  induction fields as [|f fields IH]; simpl; [discriminate | ].
  destruct (String.eqb_spec (name f) n) as [Hn | Hn]; simpl.
  { intros [= <-]. exists 0%nat. split_and!; [done | by left | intros; lia]. }
  destruct (String.eqb_spec (fullName f) n) as [Hf | Hf]; simpl.
  { intros [= <-]. exists 0%nat. split_and!; [done | by right | intros; lia]. }
  intros (i & Hi & Hr & Hfirst)%IH. exists (S i). split_and!; [done | done | ].
  intros [|j] g Hlt Hj; simpl in Hj.
  - by injection Hj as <-.
  - apply (Hfirst j); [lia | done].
Qed.

Section Lookup.
Context {poppler : Collaborators}.

(** X4.  [getFieldByName] changes neither the document, nor the dirty flag,
    nor the recorded error.  When it finds a record, that record is the
    first one of the listing whose name or full name is the identifier;
    when it finds none, no listed record has the identifier as name or full
    name. *)
Theorem getFieldByName_first_match (fuel : nat) (s s' : Impl) (n : string)
    (found : option PdfFormField) :
  getFieldByName fuel s n = Done (found, s') ->
  doc_ s' = doc_ s /\ modified_ s' = modified_ s /\ lastError_ s' = lastError_ s
  /\ match found with
     | Some r =>
         exists i : nat,
           cachedFields_ s' !! i = Some r /\ (name r = n \/ fullName r = n)
           /\ forall (j : nat) g, (j < i)%nat -> cachedFields_ s' !! j = Some g ->
                                  name g <> n /\ fullName g <> n
     | None => forall g, g ∈ cachedFields_ s' -> name g <> n /\ fullName g <> n
     end.
Proof.
  unfold getFieldByName. intros (s1 & Hcache & [= <- <-])%bind_Done.
  destruct (cacheFormFields_keeps _ _ _ Hcache) as (Hd & He & Hm & _).
  split_and!; try done.
  destruct (findRecord (cachedFields_ s1) n) as [r|] eqn:Hfind.
  - by apply findRecord_Some.
  - by apply findRecord_None.
Qed.

Lemma indexField_entry a ff (index : gmap string addr) n b :
  indexField a ff index !! n = Some b ->
  index !! n = Some b
  \/ (b = a /\ n <> "" /\ (n = fullName ff \/ n = name ff)).
Proof.
  unfold indexField.
  destruct (String.eqb_spec (name ff) "") as [Hn | Hn];
    destruct (String.eqb_spec (name ff) (fullName ff)) as [Hnf | Hnf];
    destruct (String.eqb_spec (fullName ff) "") as [Hf | Hf]; simpl;
    rewrite ?lookup_insert; repeat case_decide; naive_solver.
Qed.

(** X5.  Every index entry a rebuild leaves was either there before with
    the same address, or addresses a node of the document that has a widget
    and whose record has the key as its name or full name; no entry is
    written under the empty string. *)
Theorem rebuilt_index_entries (fuel : nat) (s s' : Impl) (doc : PDFDoc)
    (n : string) (a : addr) :
  cacheFormFields fuel s = Done s' -> doc_ s = Some doc ->
  fieldMap_ s' !! n = Some a ->
  fieldMap_ s !! n = Some a \/ entryOf (fieldHeap doc) n a.
Proof.
  intros Hrun Hdoc.
  destruct (cacheFormFields_Done _ _ _ Hrun)
    as [-> | (doc' & cache & index & _ & Hd & _ & Hinv & ->)]; [by left | ].
  assert (doc' = doc) as -> by congruence. simpl. revert n a.
  apply (Hinv (fun acc => forall n a, acc.2 !! n = Some a ->
                 fieldMap_ s !! n = Some a \/ entryOf (fieldHeap doc) n a));
    [ | by left].
  intros b node acc Hnode Hacc n a. unfold visit.
  destruct (0 <? getNumWidgets node)%nat eqn:Hw; [ | apply Hacc]. simpl.
  intros [Hold | (-> & Hne & Hkey)]%indexField_entry; [by apply Hacc | ].
  right. exists node. split_and!; try done. by apply Nat.ltb_lt.
Qed.

(** X6.  In a session whose cache and index are still empty, as after the
    first load, the lookup of the setters finds a field for an identifier
    exactly when the identifier is not empty and the listing has a record
    with it as name or full name, that is, when [getFieldByName] finds
    one. *)
Theorem setter_lookup_iff_listed (fuel : nat) (s s1 : Impl) (n : string)
    (p : FieldPtr) :
  fieldMap_ s = ∅ -> cachedFields_ s = [] ->
  findFormField fuel s n = Done (p, s1) ->
  (p <> None <-> n <> "" /\ findRecord (cachedFields_ s1) n <> None).
Proof.
  intros Hmap Hcache. unfold findFormField.
  intros (s' & Hrun & [= <- <-])%bind_Done.
  assert (indexCovers (cachedFields_ s') (fieldMap_ s')
          /\ forall k a, fieldMap_ s' !! k = Some a ->
               k <> "" /\ exists r, r ∈ cachedFields_ s'
                                    /\ (name r = k \/ fullName r = k)) as [Hcov Hsound].
  { destruct (cacheFormFields_Done _ _ _ Hrun)
      as [-> | (doc & cache & index & _ & _ & _ & Hinv & ->)].
    - rewrite Hmap, Hcache. split.
      + intros r Hr. by apply elem_of_nil in Hr.
      + intros k a Hk. by rewrite lookup_empty in Hk.
    - simpl.
      apply (Hinv (fun acc =>
                 indexCovers acc.1 acc.2
                 /\ forall k a, acc.2 !! k = Some a ->
                      k <> "" /\ exists r, r ∈ acc.1 /\ (name r = k \/ fullName r = k))).
      + intros b node acc _ [Hc Hs]. split; [by apply visit_indexCovers | ].
        unfold visit. destruct (0 <? getNumWidgets node)%nat; [ | done]. simpl.
        intros k a [Hold | (-> & Hne & Hkey)]%indexField_entry.
        * destruct (Hs k a Hold) as (Hk & r & Hr & Hname).
          split; [done | ]. exists r. split; [ | done].
          apply elem_of_app. by left.
        * split; [done | ]. exists (makeRecord node). split.
          -- apply elem_of_app. right. by apply list_elem_of_singleton.
          -- destruct Hkey as [-> | ->]; [by right | by left].
      + rewrite Hmap. simpl. split.
        * intros r Hr. by apply elem_of_nil in Hr.
        * intros k a Hk. by rewrite lookup_empty in Hk. }
  split.
  - intros Hp. destruct (fieldMap_ s' !! n) as [a|] eqn:Hn; [ | done].
    destruct (Hsound n a Hn) as (Hne & r & Hr & Hname). split; [done | ].
    intros Hnone. pose proof (proj1 (findRecord_None _ _) Hnone r Hr) as [H1 H2].
    by destruct Hname.
  - intros [Hne Hfind].
    destruct (findRecord (cachedFields_ s') n) as [r|] eqn:Hr; [ | done].
    apply findRecord_Some in Hr as (i & Hi%list_elem_of_lookup_2 & Hname & _).
    destruct (Hcov r Hi) as [Hfull Hnm].
    assert (is_Some (fieldMap_ s' !! n)) as [a Ha]; [ | by rewrite Ha].
    destruct Hname as [<- | <-].
    + destruct (decide (name r = fullName r)) as [Heq | Hdiff].
      * rewrite Heq. apply Hfull. by rewrite <- Heq.
      * by apply Hnm.
    + by apply Hfull.
Qed.

End Lookup.

Lemma getFieldByName_first_match_witness :
  doc_ Sample.flattened = doc_ Sample.loaded
  /\ modified_ Sample.flattened = modified_ Sample.loaded
  /\ lastError_ Sample.flattened = lastError_ Sample.loaded
  /\ forall g, g ∈ cachedFields_ Sample.flattened ->
               name g <> "missing" /\ fullName g <> "missing".
Proof.
  apply (getFieldByName_first_match (poppler := Sample.collaborators) 2
           Sample.loaded Sample.flattened "missing" None).
  vm_compute. reflexivity.
Defined.

Lemma rebuilt_index_entries_witness :
  fieldMap_ Sample.loaded !! "person.color" = Some 2%nat
  \/ entryOf (poppler := Sample.collaborators) (fieldHeap Sample.formDoc)
             "person.color" 2%nat.
Proof.
  apply (rebuilt_index_entries (poppler := Sample.collaborators) 2 Sample.loaded
           Sample.flattened Sample.formDoc "person.color" 2%nat);
    vm_compute; reflexivity.
Defined.

Lemma setter_lookup_iff_listed_witness :
  Some 1%nat <> None
  <-> "first" <> "" /\ findRecord (cachedFields_ Sample.flattened) "first" <> None.
Proof.
  apply (setter_lookup_iff_listed (poppler := Sample.collaborators) 2 Sample.loaded
           Sample.flattened "first" (Some 1%nat));
    vm_compute; reflexivity.
Defined.

(** ** More on the setters *)

Lemma sameShape_refl node : sameShape node node.
Proof. by unfold sameShape. Qed.

Lemma sameShape_withData node data : sameShape node (withData node data).
Proof. by unfold sameShape. Qed.

(** What a setter effect does to the document. *)
Lemma setterEffect_document s r doc :
  setterEffect s r -> doc_ s = Some doc ->
  exists doc',
    doc_ r.2 = Some doc'
    /\ getNumPages doc' = getNumPages doc
    /\ getCatalog doc' = getCatalog doc
    /\ getDocInfo doc' = getDocInfo doc
    /\ exists a0 : addr,
         (forall a, a <> a0 -> fieldHeap doc' !! a = fieldHeap doc !! a)
         /\ (forall node', fieldHeap doc' !! a0 = Some node' ->
               exists node, fieldHeap doc !! a0 = Some node /\ sameShape node node').
Proof.
  intros [(e & ->) | [-> | (a & node & data & Hnode & ->)]] Hdoc; simpl.
  - exists doc. split_and!; try done. exists 0%nat. split; [done | ].
    intros node' H. exists node'. split; [done | apply sameShape_refl].
  - exists doc. split_and!; try done. exists 0%nat. split; [done | ].
    intros node' H. exists node'. split; [done | apply sameShape_refl].
  - apply deref_Some in Hnode as (doc0 & Hd & Hnode).
    assert (doc0 = doc) as -> by congruence.
    unfold storeField. rewrite Hdoc. simpl. eexists. split; [reflexivity | ].
    simpl. split_and!; try done. exists a. split.
    + intros b Hb. by rewrite lookup_insert_ne.
    + rewrite lookup_insert_eq. intros node' [= <-]. exists node.
      split; [done | apply sameShape_withData].
Qed.

Section MoreSetters.
Context {poppler : Collaborators}.

(** X7.  On an identifier that resolves to a text field, read-only or not,
    [setFieldValue] returns true, replaces the content by the value
    re-encoded as a PDF text string, sets the dirty flag and clears the
    validity flag; the field's record then reads the decoding of that
    re-encoding. *)
Theorem setFieldValue_text (fuel : nat) (s s1 : Impl) (name v : string)
    (a : addr) (node : FormField) (content : option GooString) :
  cacheFormFields fuel s = Done s1 ->
  fieldMap_ s1 !! name = Some a ->
  deref s1 a = Done node ->
  fieldData node = TextData content ->
  exists s' node',
    setFieldValue fuel s name v = Done (true, s')
    /\ deref s' a = Done node'
    /\ fieldData node' = TextData (Some (utf8ToUtf16WithBom v))
    /\ sameShape node node'
    /\ value (makeRecord node') = TextStringToUtf8 (utf8ToUtf16WithBom v)
    /\ type (makeRecord node') = Text
    /\ modified_ s' = true /\ fieldsCached_ s' = false.
Proof.
  intros Hcache Hname Hnode Hdata.
  rewrite (setFieldValue_resolved _ _ s1) by done.
  unfold resolved. rewrite Hname, Hnode. simpl.
  unfold applyValue, getType, applyText. rewrite Hdata.
  eexists _, _. split; [reflexivity | ]. split.
  { rewrite (deref_frame (storeField a _ s1)) by done. by eapply deref_storeField. }
  by split_and!.
Qed.

(** X8.  An identifier the index does not hold makes [setFieldValue] and
    [setCheckboxValue] return false with "Field not found: " and the
    identifier recorded; nothing else is changed after the lookup, so the
    document and the dirty flag are as before the call. *)
Theorem setter_unknown_identifier (fuel : nat) (s s1 : Impl) (name : string) :
  cacheFormFields fuel s = Done s1 ->
  fieldMap_ s1 !! name = None ->
  (forall value,
      setFieldValue fuel s name value
      = Done (false, set_lastError ("Field not found: " +:+ name) s1))
  /\ (forall checked,
        setCheckboxValue fuel s name checked
        = Done (false, set_lastError ("Field not found: " +:+ name) s1))
  /\ doc_ s1 = doc_ s /\ modified_ s1 = modified_ s.
Proof.
  intros Hcache Hname.
  destruct (cacheFormFields_keeps _ _ _ Hcache) as (Hd & _ & Hm & _).
  split_and!; try done.
  - intros value. rewrite (setFieldValue_resolved _ _ s1) by done.
    unfold resolved. by rewrite Hname.
  - intros checked. rewrite (setCheckboxValue_resolved _ _ s1) by done.
    unfold resolved. by rewrite Hname.
Qed.

(** X9.  A field of the wrong kind is refused without being touched:
    [setCheckboxValue] on a field that is not a button returns false with
    "Field is not a button field: " and the identifier recorded, and
    [setFieldValue] on a signature field or a field of unknown kind returns
    false with "Unsupported field type for setValue" recorded. *)
Theorem setter_wrong_kind (fuel : nat) (s s1 : Impl) (name : string)
    (a : addr) (node : FormField) :
  cacheFormFields fuel s = Done s1 ->
  fieldMap_ s1 !! name = Some a ->
  deref s1 a = Done node ->
  (getType node <> formButton ->
   forall checked,
     setCheckboxValue fuel s name checked
     = Done (false, set_lastError ("Field is not a button field: " +:+ name) s1))
  /\ (getType node = formSignature \/ getType node = formUndef ->
      forall value,
        setFieldValue fuel s name value
        = Done (false, set_lastError "Unsupported field type for setValue" s1)).
Proof.
  intros Hcache Hname Hnode. split.
  - intros Hkind checked. rewrite (setCheckboxValue_resolved _ _ s1) by done.
    unfold resolved. rewrite Hname, Hnode. simpl. unfold applyButton.
    unfold getType in Hkind. by destruct (fieldData node).
  - intros Hkind value. rewrite (setFieldValue_resolved _ _ s1) by done.
    unfold resolved. rewrite Hname, Hnode. simpl. unfold applyValue.
    by destruct Hkind as [-> | ->].
Qed.

(** X10.  A setter changes at most the class-specific data of one node:
    after [setFieldValue] or [setCheckboxValue], whatever they return, the
    document has the same page count, catalog and information dictionary,
    every node but one is as it was, and that one has kept its names, its
    read-only flag, its widgets and its children. *)
Theorem setter_changes_one_node (fuel : nat) (s : Impl) (doc : PDFDoc) :
  doc_ s = Some doc ->
  forall (r : bool * Impl) (name : string),
    (exists value, setFieldValue fuel s name value = Done r)
    \/ (exists checked, setCheckboxValue fuel s name checked = Done r) ->
    exists doc',
      doc_ r.2 = Some doc'
      /\ getNumPages doc' = getNumPages doc
      /\ getCatalog doc' = getCatalog doc
      /\ getDocInfo doc' = getDocInfo doc
      /\ exists a0 : addr,
           (forall a, a <> a0 -> fieldHeap doc' !! a = fieldHeap doc !! a)
           /\ (forall node', fieldHeap doc' !! a0 = Some node' ->
                 exists node, fieldHeap doc !! a0 = Some node
                              /\ sameShape node node').
Proof.
  intros Hdoc r name Hrun.
  assert (exists s1, cacheFormFields fuel s = Done s1 /\ setterEffect s1 r)
    as (s1 & Hcache & Heff).
  { destruct Hrun as [[value H] | [checked H]].
    - by eapply setFieldValue_effect.
    - by eapply setCheckboxValue_effect. }
  destruct (cacheFormFields_keeps _ _ _ Hcache) as (Hd & _).
  apply (setterEffect_document s1); [done | congruence].
Qed.

(** X11.  Success never clears the recorded error: after a
    [setFieldValue], [setCheckboxValue], [flattenForm] or [loadFromMemory]
    that returned true, and after a save that returned bytes,
    [getLastError] still answers what it answered before. *)
Theorem success_keeps_lastError (s : Impl) :
  (forall fuel name value s',
      setFieldValue fuel s name value = Done (true, s') ->
      lastError_ s' = lastError_ s)
  /\ (forall fuel name checked s',
        setCheckboxValue fuel s name checked = Done (true, s') ->
        lastError_ s' = lastError_ s)
  /\ (forall s', flattenForm s = (true, s') -> lastError_ s' = lastError_ s)
  /\ (forall data password s',
        loadFromMemory s data password = (true, s') -> lastError_ s' = lastError_ s)
  /\ (forall out s',
        saveToMemory s = (out, s') -> out <> [] -> lastError_ s' = lastError_ s).
Proof.
  assert (forall s1 s', setterEffect s1 (true, s') -> lastError_ s' = lastError_ s1)
    as Heff.
  { intros s1 s' [(e & [=]) | [[= <-] | (a & node & data & _ & [= ->])]]; [done | ].
    simpl. by destruct (storeField_keeps s1 a (withData node data)) as (-> & _). }
  split_and!.
  - intros fuel name value s' (s1 & Hcache & H)%setFieldValue_effect.
    destruct (cacheFormFields_keeps _ _ _ Hcache) as (_ & <- & _). by apply Heff.
  - intros fuel name checked s' (s1 & Hcache & H)%setCheckboxValue_effect.
    destruct (cacheFormFields_keeps _ _ _ Hcache) as (_ & <- & _). by apply Heff.
  - unfold flattenForm. intros s'.
    destruct (doc_ s); [destruct (getForm s) | ]; by intros [= <-].
  - unfold loadFromMemory. intros data password s'.
    destruct (negb _); by intros [= <-].
  - unfold saveToMemory. intros out s'. destruct (doc_ s) as [doc|].
    + destruct (negb _); [by intros [= <- <-] | ].
      destruct (saveAs doc _).2; by intros [= <- <-].
    + by intros [= <- <-].
Qed.

End MoreSetters.

Lemma setFieldValue_text_witness :
  exists s' node',
    setFieldValue (poppler := Sample.collaborators) 2 Sample.loaded "first" "Zoe"
    = Done (true, s')
    /\ deref s' 1%nat = Done node'
    /\ value (makeRecord (poppler := Sample.collaborators) node') = "Zoe".
Proof.
  destruct (setFieldValue_text (poppler := Sample.collaborators) 2 Sample.loaded
              Sample.flattened "first" "Zoe" 1%nat Sample.first (Some "Ann"))
    as (s' & node' & Hrun & Hnode & _ & _ & Hvalue & _);
    [reflexivity | reflexivity | reflexivity | reflexivity | ].
  exists s', node'. split; [exact Hrun | ]. split; [exact Hnode | ].
  rewrite Hvalue. reflexivity.
Defined.

Lemma setter_unknown_identifier_witness :
  setFieldValue (poppler := Sample.collaborators) 2 Sample.loaded "missing" "x"
  = Done (false, set_lastError "Field not found: missing" Sample.flattened).
Proof.
  destruct (setter_unknown_identifier (poppler := Sample.collaborators) 2
              Sample.loaded Sample.flattened "missing") as (Hset & _);
    [reflexivity | reflexivity | ].
  exact (Hset "x").
Defined.

Lemma setter_wrong_kind_witness :
  setCheckboxValue (poppler := Sample.collaborators) 2 Sample.loaded "sig" true
  = Done (false, set_lastError "Field is not a button field: sig" Sample.flattened)
  /\ setFieldValue (poppler := Sample.collaborators) 2 Sample.loaded "sig" "x"
     = Done (false, set_lastError "Unsupported field type for setValue"
                                  Sample.flattened).
Proof.
  destruct (setter_wrong_kind (poppler := Sample.collaborators) 2 Sample.loaded
              Sample.flattened "sig" 5%nat Sample.sig) as [Hbox Hset];
    [reflexivity | reflexivity | reflexivity | ].
  split.
  - apply Hbox. discriminate.
  - apply Hset. left. reflexivity.
Defined.

Lemma setter_changes_one_node_witness :
  exists doc',
    doc_ MoreSamples.afterZoe.2 = Some doc'
    /\ getNumPages doc' = 2
    /\ fieldHeap doc' !! 2%nat = Some Sample.color.
Proof.
  destruct (setter_changes_one_node (poppler := Sample.collaborators) 2
              Sample.loaded Sample.formDoc eq_refl MoreSamples.afterZoe "first")
    as (doc' & Hdoc & Hpages & _ & _ & a0 & Hothers & Hone).
  { left. exists "Zoe". vm_compute. reflexivity. }
  exists doc'. split; [exact Hdoc | ]. split; [rewrite Hpages; reflexivity | ].
  vm_compute in Hdoc. injection Hdoc as <-. vm_compute. reflexivity.
Defined.

Lemma success_keeps_lastError_witness :
  lastError_ (flattenForm (set_lastError "Field not found: missing" Sample.loaded)).2
  = "Field not found: missing".
Proof.
  destruct (success_keeps_lastError (poppler := Sample.collaborators)
              (set_lastError "Field not found: missing" Sample.loaded))
    as (_ & _ & Hflat & _).
  apply (Hflat (flattenForm (set_lastError "Field not found: missing" Sample.loaded)).2).
  vm_compute. reflexivity.
Defined.

(** ** Loading *)

Section Loading.
Context {poppler : Collaborators}.

(** X12.  A load the parser rejects leaves the session without a document,
    also when it held one before: the page count is then 0 and there is no
    form.  The bytes are kept, "Failed to load PDF: error code " and the
    code are recorded, and cache, index and both flags stay as they were, so
    a cache that was marked valid is still what a listing returns. *)
Theorem load_failure_drops_document (s s' : Impl) (data : list Byte.byte)
    (password : string) :
  loadFromMemory s data password = (false, s') ->
  doc_ s' = None /\ originalData_ s' = data
  /\ (exists code : Z,
        lastError_ s' = "Failed to load PDF: error code " +:+ pretty code)
  /\ cachedFields_ s' = cachedFields_ s /\ fieldMap_ s' = fieldMap_ s
  /\ fieldsCached_ s' = fieldsCached_ s /\ modified_ s' = modified_ s
  /\ getPageCount s' = 0 /\ hasAcroForm s' = false
  /\ (forall fuel, getFormFields fuel s' = Done (cachedFields_ s, s')).
Proof.
  unfold loadFromMemory. destruct (negb _); [ | discriminate].
  intros [= <-]. simpl. split_and!; try done.
  - by eexists.
  - intros fuel. unfold getFormFields. by rewrite cacheFormFields_no_doc.
Qed.

End Loading.

Lemma load_failure_drops_document_witness :
  getPageCount (loadFromMemory (poppler := Sample.collaborators)
                  Sample.flattened [x00] "").2 = 0
  /\ forall fuel,
       getFormFields (poppler := Sample.collaborators) fuel
         (loadFromMemory (poppler := Sample.collaborators)
            Sample.flattened [x00] "").2
       = Done (cachedFields_ Sample.flattened,
               (loadFromMemory (poppler := Sample.collaborators)
                  Sample.flattened [x00] "").2).
Proof.
  destruct (load_failure_drops_document (poppler := Sample.collaborators)
              Sample.flattened
              (loadFromMemory (poppler := Sample.collaborators)
                 Sample.flattened [x00] "").2 [x00] "")
    as (_ & _ & _ & _ & _ & _ & _ & Hpages & _ & Hlist).
  - vm_compute. reflexivity.
  - split; [exact Hpages | exact Hlist].
Defined.

(** ** Saving, rendering and flattening *)

Section Output.
Context {poppler : Collaborators}.

(** X13.  The wrapper's [saveToArrayBuffer] returns bytes exactly when a
    document is held, the writer reported no error in the mode chosen by
    the dirty flag (forced rewrite when dirty, standard otherwise), and the
    staging file read back is not empty; the bytes are those of the staging
    file and the session is untouched.  In every other case it returns
    null. *)
Theorem saveToArrayBuffer_bytes (s s' : Impl) (out : list Byte.byte) :
  PdfFillerJS.saveToArrayBuffer s = (Some out, s') <->
  out <> [] /\ s' = s
  /\ exists doc,
       doc_ s = Some doc
       /\ saveAs doc (if modified_ s then writeForceRewrite else writeStandard)
          = (errNone, Some out).
Proof.
  unfold PdfFillerJS.saveToArrayBuffer, saveToMemory.
  destruct (doc_ s) as [doc|]; simpl.
  2:{ split; [discriminate | by intros (_ & _ & doc & [=] & _)]. }
  destruct (saveAs doc _) as [code readBack] eqn:Hsave. simpl.
  destruct (Z.eqb_spec code errNone) as [-> | Hcode]; simpl.
  - destruct readBack as [[|b output]|]; simpl.
    + split; [discriminate | ]. intros (Hne & _ & doc' & [= <-] & Hs).
      rewrite Hsave in Hs. by injection Hs as <-.
    + split.
      * intros [= <- <-]. split_and!; try done. by exists doc.
      * intros (_ & -> & doc' & [= <-] & Hs).
        rewrite Hsave in Hs. by injection Hs as <-.
    + split; [discriminate | ]. intros (_ & _ & doc' & [= <-] & Hs).
      rewrite Hsave in Hs. discriminate.
  - split; [discriminate | ]. intros (_ & _ & doc' & [= <-] & Hs).
    rewrite Hsave in Hs. by injection Hs.
Qed.

(** X14.  The wrapper's [renderPageToPng] returns bytes exactly when a
    document is held, the index is at least 0 and below the page count,
    the rasteriser, asked for page [pageIndex + 1] at the given resolution,
    produced a bitmap, and the encoder turned it into a non-empty image;
    the session is untouched.  In every other case it returns null. *)
Theorem renderPageToPng_bytes (s s' : Impl) (pageIndex : Z) (dpi : float)
    (png : list Byte.byte) :
  PdfFillerJS.renderPageToPng s pageIndex dpi = (Some png, s') <->
  png <> [] /\ s' = s
  /\ exists doc bitmap,
       doc_ s = Some doc
       /\ 0 <= pageIndex < getNumPages doc
       /\ displayPage doc (pageIndex + 1) dpi = Some bitmap
       /\ encodePng bitmap = Some png.
Proof.
  unfold PdfFillerJS.renderPageToPng, renderPageToPng.
  destruct (doc_ s) as [doc|]; simpl.
  2:{ split; [discriminate | by intros (_ & _ & doc & bm & [=] & _)]. }
  destruct (Z.ltb_spec pageIndex 0) as [Hneg | Hpos]; simpl.
  { split; [discriminate | ]. intros (_ & _ & doc' & bm & [= <-] & Hrange & _). lia. }
  destruct (Z.geb_spec pageIndex (getNumPages doc)) as [Hbig | Hsmall]; simpl.
  { split; [discriminate | ]. intros (_ & _ & doc' & bm & [= <-] & Hrange & _). lia. }
  destruct (displayPage doc (pageIndex + 1) dpi) as [bitmap|] eqn:Hpage; simpl.
  2:{ split; [discriminate | ].
      intros (_ & _ & doc' & bm & [= <-] & _ & Hd & _). congruence. }
  destruct (encodePng bitmap) as [[|b data]|] eqn:Henc; simpl.
  - split; [discriminate | ].
    intros (Hne & _ & doc' & bm & [= <-] & _ & Hd & Hpng).
    assert (bm = bitmap) as -> by congruence. congruence.
  - split.
    + intros [= <- <-]. split_and!; try done. exists doc, bitmap.
      split_and!; try done; lia.
    + intros (_ & -> & doc' & bm & [= <-] & _ & Hd & Hpng).
      assert (bm = bitmap) as -> by congruence.
      rewrite Henc in Hpng. by injection Hpng as <-.
  - split; [discriminate | ].
    intros (_ & _ & doc' & bm & [= <-] & _ & Hd & Hpng).
    assert (bm = bitmap) as -> by congruence. congruence.
Qed.

(** X15.  [saveToFile] returns true only when saving to memory gave bytes,
    the file could be opened and the write left the stream good; the
    session is then untouched.  When saving to memory gives no bytes it
    returns false with the session that save left. *)
Theorem saveToFile_true (s : Impl) (path : string) :
  (forall s', saveToFile s path = (true, s') ->
     s' = s
     /\ exists data, data <> [] /\ saveToMemory s = (data, s)
                     /\ writeFile path data = Some true)
  /\ ((saveToMemory s).1 = [] ->
      saveToFile s path = (false, (saveToMemory s).2)).
Proof.
  unfold saveToFile. split.
  - intros s'. destruct (saveToMemory s) as [[|b data] s1] eqn:Hsave; simpl;
      [discriminate | ].
    destruct (writeFile path (b :: data)) as [good|] eqn:Hwrite; [ | discriminate].
    intros [= -> <-].
    assert (s1 = s) as ->.
    { unfold saveToMemory in Hsave. destruct (doc_ s) as [doc|]; [ | discriminate].
      destruct (negb _); [discriminate | ].
      destruct (saveAs doc _).2; [ | discriminate]. by injection Hsave. }
    split; [done | ]. by exists (b :: data).
  - intros Hempty. by rewrite Hempty.
Qed.

(** X16.  [flattenForm] returns true exactly when the document has a form.
    It never changes the document, the cache, the index or the validity
    flag: on success only the dirty flag is set, on failure only the error
    is recorded, "No document loaded" without a document and "Document has
    no form" otherwise. *)
Theorem flattenForm_only_marks_dirty (s : Impl) :
  (flattenForm s).1 = hasAcroForm s
  /\ doc_ (flattenForm s).2 = doc_ s
  /\ cachedFields_ (flattenForm s).2 = cachedFields_ s
  /\ fieldMap_ (flattenForm s).2 = fieldMap_ s
  /\ fieldsCached_ (flattenForm s).2 = fieldsCached_ s
  /\ (if hasAcroForm s
      then (flattenForm s).2 = set_modified true s
      else modified_ (flattenForm s).2 = modified_ s
           /\ lastError_ (flattenForm s).2
              = (match doc_ s with
                 | None => "No document loaded"
                 | Some _ => "Document has no form"
                 end)).
Proof.
  unfold flattenForm, hasAcroForm.
  destruct (doc_ s) as [doc|] eqn:Hdoc.
  - by destruct (getForm s).
  - unfold getForm. by rewrite Hdoc.
Qed.

End Output.

Lemma saveToArrayBuffer_bytes_witness :
  PdfFillerJS.saveToArrayBuffer (poppler := MoreSamples.withFile)
    MoreSamples.afterZoe.2
  = (Some [x25; x50; x44; x46; x0a], MoreSamples.afterZoe.2).
Proof.
  apply (saveToArrayBuffer_bytes (poppler := MoreSamples.withFile)).
  split; [discriminate | ]. split; [reflexivity | ].
  eexists. split; vm_compute; reflexivity.
Defined.

Lemma renderPageToPng_bytes_witness :
  PdfFillerJS.renderPageToPng (poppler := Sample.collaborators)
    Sample.loaded 1 150%float
  = (Some [x89; x50; x4e; x47], Sample.loaded).
Proof.
  apply (renderPageToPng_bytes (poppler := Sample.collaborators)).
  split; [discriminate | ]. split; [reflexivity | ].
  eexists _, _. split; [reflexivity | ]. split; [vm_compute; split; [discriminate | reflexivity] | ].
  split; reflexivity.
Defined.

Lemma saveToFile_true_witness :
  Sample.loaded = Sample.loaded
  /\ exists data,
       data <> []
       /\ saveToMemory (poppler := MoreSamples.withFile) Sample.loaded
          = (data, Sample.loaded)
       /\ writeFile (Collaborators := MoreSamples.withFile) "/out.pdf" data = Some true.
Proof.
  apply (saveToFile_true (poppler := MoreSamples.withFile) Sample.loaded "/out.pdf").
  vm_compute. reflexivity.
Defined.

(** ** Type tags and record members *)

(** X17.  A string that [stringToFieldType] maps to a type other than
    [Unknown] is exactly the tag [fieldTypeToString] gives for that type;
    every other string, whatever its case or spacing, is mapped to
    [Unknown]. *)
Theorem stringToFieldType_known (str : string) (t : FieldType) :
  stringToFieldType str = t -> t <> Unknown -> fieldTypeToString t = str.
Proof.
  unfold stringToFieldType.
  destruct (String.eqb_spec str "text") as [-> | _]; [by intros <- | ].
  destruct (String.eqb_spec str "button") as [-> | _]; [by intros <- | ].
  destruct (String.eqb_spec str "checkbox") as [-> | _]; [by intros <- | ].
  destruct (String.eqb_spec str "radio") as [-> | _]; [by intros <- | ].
  destruct (String.eqb_spec str "choice") as [-> | _]; [by intros <- | ].
  destruct (String.eqb_spec str "signature") as [-> | _]; [by intros <- | ].
  by intros <-.
Qed.

Lemma stringToFieldType_known_witness :
  fieldTypeToString Radio = "radio".
Proof.
  apply (stringToFieldType_known "radio" Radio); [reflexivity | discriminate].
Defined.

Section Records.
Context {poppler : Collaborators}.

Lemma loadFromMemory_cachedFields s data password :
  cachedFields_ (loadFromMemory s data password).2 = cachedFields_ s.
Proof. unfold loadFromMemory. by destruct (negb _). Qed.

Lemma saveToMemory_cachedFields s :
  cachedFields_ (saveToMemory s).2 = cachedFields_ s.
Proof.
  unfold saveToMemory. destruct (doc_ s) as [doc|]; [ | done].
  destruct (negb _); [done | ]. by destruct (saveAs doc _).2.
Qed.

Lemma setterEffect_cachedFields s r :
  setterEffect s r -> cachedFields_ r.2 = cachedFields_ s.
Proof.
  intros [(e & ->) | [-> | (a & node & data & _ & ->)]]; simpl; try done.
  by destruct (storeField_keeps s a (withData node data)) as (_ & -> & _).
Qed.

Lemma cacheFormFields_records (Q : PdfFormField -> Prop) fuel s s' :
  (forall node, (0 < getNumWidgets node)%nat -> Q (makeRecord node)) ->
  Forall Q (cachedFields_ s) -> cacheFormFields fuel s = Done s' ->
  Forall Q (cachedFields_ s').
Proof.
  intros HQ Hs Hrun.
  destruct (cacheFormFields_Done _ _ _ Hrun)
    as [-> | (doc & cache & index & _ & _ & _ & Hinv & ->)]; [done | ].
  simpl. apply (Hinv (fun acc => Forall Q acc.1)); [ | by apply Forall_nil].
  intros a node acc _ Hacc. unfold visit.
  destruct (0 <? getNumWidgets node)%nat eqn:Hw; [ | done]. simpl.
  apply Forall_app. split; [done | ].
  apply Forall_singleton, HQ. by apply Nat.ltb_lt.
Qed.

Lemma setFieldValue_records (Q : PdfFormField -> Prop) fuel s name value r :
  (forall node, (0 < getNumWidgets node)%nat -> Q (makeRecord node)) ->
  Forall Q (cachedFields_ s) -> setFieldValue fuel s name value = Done r ->
  Forall Q (cachedFields_ r.2).
Proof.
  intros HQ Hs (s1 & Hcache & Heff)%setFieldValue_effect.
  rewrite (setterEffect_cachedFields s1) by done.
  by eapply cacheFormFields_records.
Qed.

Lemma exec_records (Q : PdfFormField -> Prop) fuel c s s' :
  (forall node, (0 < getNumWidgets node)%nat -> Q (makeRecord node)) ->
  Forall Q (cachedFields_ s) -> exec fuel c s = Done s' ->
  Forall Q (cachedFields_ s').
Proof.
  intros HQ Hs. destruct c; simpl.
  - intros [= <-]. by rewrite loadFromMemory_cachedFields.
  - intros [= <-]. unfold loadFromFile. destruct (readFile path); [ | done].
    by rewrite loadFromMemory_cachedFields.
  - intros (r & Hrun & ->)%fmap_Done. unfold getFormFields in Hrun.
    apply bind_Done in Hrun as (s1 & Hcache & [= <-]).
    by eapply cacheFormFields_records.
  - intros (r & Hrun & ->)%fmap_Done. unfold getFieldByName in Hrun.
    apply bind_Done in Hrun as (s1 & Hcache & [= <-]).
    by eapply cacheFormFields_records.
  - intros (r & Hrun & ->)%fmap_Done. by eapply setFieldValue_records.
  - intros (r & (s1 & Hcache & Heff)%setCheckboxValue_effect & ->)%fmap_Done.
    rewrite (setterEffect_cachedFields s1) by done.
    by eapply cacheFormFields_records.
  - intros (r & Hrun & ->)%fmap_Done. unfold setFieldValues in Hrun.
    apply (forEach_invariant
             (fun acc : bool * Impl => Forall Q (cachedFields_ acc.2))) in Hrun;
      [done | | done].
    intros nv acc1 acc2 _ Hacc (r1 & Hset & [= <-])%bind_Done. simpl.
    by eapply setFieldValue_records.
  - intros [= <-]. unfold flattenForm.
    by destruct (doc_ s); [destruct (getForm s) | ].
  - intros [= <-]. by rewrite saveToMemory_cachedFields.
  - intros [= <-]. unfold saveToFile.
    destruct (saveToMemory s).1 eqn:Hout; simpl;
      [by rewrite saveToMemory_cachedFields | ].
    destruct (writeFile _ _); simpl; by rewrite saveToMemory_cachedFields.
  - intros [= <-]. unfold renderPageToPng. destruct (doc_ s) as [doc|]; [ | done].
    destruct (_ || _); [done | ].
    destruct (displayPage _ _ _); [ | done]. by destruct (encodePng _).
Qed.

Lemma reachable_records (Q : PdfFormField -> Prop) s :
  (forall node, (0 < getNumWidgets node)%nat -> Q (makeRecord node)) ->
  reachable s -> Forall Q (cachedFields_ s).
Proof.
  intros HQ. induction 1 as [ | fuel c s s' _ IH Hexec].
  - by apply Forall_nil.
  - by eapply exec_records.
Qed.

(** X18.  No record a session ever holds has [required] set, or a default
    value, or an export value: the flattener leaves the three members at
    their initial values for every field. *)
Theorem records_never_required (s : Impl) (r : PdfFormField) :
  reachable s -> r ∈ cachedFields_ s ->
  required r = false /\ defaultValue r = "" /\ exportValue r = "".
Proof.
  intros Hreach Hr.
  pose proof (reachable_records
                (fun r => required r = false /\ defaultValue r = ""
                          /\ exportValue r = "") s) as Hall.
  rewrite Forall_forall in Hall. by apply Hall.
Qed.

(** X19.  In every record a session ever holds the members follow the
    type: options are listed only for a choice field, [isChecked] is true
    only for a checkbox or a radio button, and a value is present only for
    a text or a choice field. *)
Theorem record_members_follow_type (s : Impl) (r : PdfFormField) :
  reachable s -> r ∈ cachedFields_ s ->
  (options r <> [] -> type r = Choice)
  /\ (isChecked r = true -> type r = Checkbox \/ type r = Radio)
  /\ (value r <> "" -> type r = Text \/ type r = Choice).
Proof.
  intros Hreach Hr.
  pose proof (reachable_records
                (fun r => (options r <> [] -> type r = Choice)
                          /\ (isChecked r = true -> type r = Checkbox \/ type r = Radio)
                          /\ (value r <> "" -> type r = Text \/ type r = Choice)) s)
    as Hall.
  rewrite Forall_forall in Hall. apply Hall; [ | done | done].
  intros node _. unfold makeRecord, getType. simpl.
  destruct (fieldData node) as [content | multiselect choices | [ | | ] st | | ];
    simpl; split_and!; try done; auto.
Qed.

End Records.

Lemma records_never_required_witness :
  required (makeRecord (poppler := Sample.collaborators) Sample.agree) = false
  /\ defaultValue (makeRecord (poppler := Sample.collaborators) Sample.agree) = ""
  /\ exportValue (makeRecord (poppler := Sample.collaborators) Sample.agree) = "".
Proof.
  apply (records_never_required (poppler := Sample.collaborators) Sample.flattened).
  - exact flattened_reachable.
  - apply (list_elem_of_lookup_2 _ 3%nat). vm_compute. reflexivity.
Defined.

Lemma record_members_follow_type_witness :
  (options (makeRecord (poppler := Sample.collaborators) Sample.color) <> [] ->
   type (makeRecord (poppler := Sample.collaborators) Sample.color) = Choice)
  /\ (isChecked (makeRecord (poppler := Sample.collaborators) Sample.color) = true ->
      type (makeRecord (poppler := Sample.collaborators) Sample.color) = Checkbox
      \/ type (makeRecord (poppler := Sample.collaborators) Sample.color) = Radio)
  /\ (value (makeRecord (poppler := Sample.collaborators) Sample.color) <> "" ->
      type (makeRecord (poppler := Sample.collaborators) Sample.color) = Text
      \/ type (makeRecord (poppler := Sample.collaborators) Sample.color) = Choice).
Proof.
  apply (record_members_follow_type (poppler := Sample.collaborators)
           Sample.flattened).
  - exact flattened_reachable.
  - apply (list_elem_of_lookup_2 _ 1%nat). vm_compute. reflexivity.
Defined.

(** ** Batches in two parts *)

Lemma forEach_app {A S : Type} (body : A -> S -> outcome S) (l1 l2 : list A) :
  forall acc, forEach body (l1 ++ l2) acc = forEach body l1 acc ≫= forEach body l2.
Proof.
  induction l1 as [|a l1 IH]; intros acc; [done | ].
  simpl. destruct (body a acc) as [acc1| |]; [ | done | done]. simpl. apply IH.
Qed.

(** X20.  Setting a list of pairs that is two lists in a row is setting the
    first list, then the second on the session the first left, and
    returning true when both returned true. *)
Theorem setFieldValues_app `{poppler : Collaborators} (fuel : nat) (s : Impl)
    (l1 l2 : list (string * string)) :
  setFieldValues fuel s (l1 ++ l2)
  = setFieldValues fuel s l1 ≫= fun r1 : bool * Impl =>
    setFieldValues fuel r1.2 l2 ≫= fun r2 : bool * Impl =>
    Done (r1.1 && r2.1, r2.2).
Proof.
  unfold setFieldValues. rewrite forEach_app.
  destruct (forEach _ l1 (true, s)) as [[b1 s1]| |]; [ | done | done]. simpl.
  rewrite !setFieldValues_loop_applyEach.
  destruct (applyEach fuel s1 l2) as [[oks s2]| |]; [ | done | done]. done.
Qed.

(** ** The version macro *)

Lemma int_result_Some (r e : Z) :
  int_result r = Some e <-> e = r /\ INT_MIN <= r <= INT_MAX.
Proof.
  unfold int_result.
  destruct (Z.leb_spec INT_MIN r), (Z.leb_spec r INT_MAX); simpl;
    split; try discriminate; try (intros [= <-]; lia); intros [-> ?]; try lia; done.
Qed.

Lemma POPPLER_VERSION_ENCODE_Some (major minor micro e : Z) :
  POPPLER_VERSION_ENCODE major minor micro = Some e ->
  e = major * 10000 + minor * 100 + micro.
Proof.
  unfold POPPLER_VERSION_ENCODE.
  destruct (int_result (major * 10000)) as [a|] eqn:Ha; [ | discriminate].
  destruct (int_result (minor * 100)) as [b|] eqn:Hb; [ | discriminate].
  simpl. destruct (int_result (a + b)) as [c|] eqn:Hc; [ | discriminate].
  simpl. intros He.
  apply int_result_Some in Ha as [-> _]. apply int_result_Some in Hb as [-> _].
  apply int_result_Some in Hc as [-> _]. by apply int_result_Some in He as [-> _].
Qed.

(** X21.  On [int] arguments, with minor and micro numbers from 0 to 99 as
    Poppler's are: the macro has a defined result for every major number
    from 0 to 214747, and defined results order versions as they are
    ordered by major, then minor, then micro number; in particular
    different versions have different results.  (From major number 214749
    on the product [major * 10000] is outside [int].) *)
Theorem POPPLER_VERSION_ENCODE_order (major minor micro major' minor' micro' : Z) :
  0 <= minor < 100 -> 0 <= micro < 100 ->
  0 <= minor' < 100 -> 0 <= micro' < 100 ->
  (0 <= major <= 214747 ->
   POPPLER_VERSION_ENCODE major minor micro
   = Some (major * 10000 + minor * 100 + micro))
  /\ (214749 <= major -> POPPLER_VERSION_ENCODE major minor micro = None)
  /\ forall e e',
       POPPLER_VERSION_ENCODE major minor micro = Some e ->
       POPPLER_VERSION_ENCODE major' minor' micro' = Some e' ->
       (e < e'
        <-> major < major'
            \/ (major = major'
                /\ (minor < minor' \/ (minor = minor' /\ micro < micro'))))
       /\ (e = e' <-> major = major' /\ minor = minor' /\ micro = micro').
Proof.
  intros Hminor Hmicro Hminor' Hmicro'. split_and!.
  - intros Hmajor. unfold POPPLER_VERSION_ENCODE, int_result, INT_MIN, INT_MAX.
    replace (_ <=? major * 10000) with true by (symmetry; apply Z.leb_le; lia).
    replace (major * 10000 <=? _) with true by (symmetry; apply Z.leb_le; lia).
    simpl.
    replace (_ <=? minor * 100) with true by (symmetry; apply Z.leb_le; lia).
    replace (minor * 100 <=? _) with true by (symmetry; apply Z.leb_le; lia).
    simpl.
    replace (_ <=? major * 10000 + minor * 100) with true
      by (symmetry; apply Z.leb_le; lia).
    replace (major * 10000 + minor * 100 <=? _) with true
      by (symmetry; apply Z.leb_le; lia).
    simpl.
    replace (_ <=? major * 10000 + minor * 100 + micro) with true
      by (symmetry; apply Z.leb_le; lia).
    replace (major * 10000 + minor * 100 + micro <=? _) with true
      by (symmetry; apply Z.leb_le; lia).
    done.
  - intros Hmajor. unfold POPPLER_VERSION_ENCODE, int_result, INT_MIN, INT_MAX.
    replace (major * 10000 <=? _) with false by (symmetry; apply Z.leb_gt; lia).
    by rewrite andb_false_r.
  - intros e e' ->%POPPLER_VERSION_ENCODE_Some ->%POPPLER_VERSION_ENCODE_Some. lia.
Qed.

Lemma POPPLER_VERSION_ENCODE_order_witness :
  POPPLER_VERSION_ENCODE 22 12 0 = Some 221200
  /\ (221200 < 230100
      <-> 22 < 23 \/ (22 = 23 /\ (12 < 1 \/ (12 = 1 /\ 0 < 0)))).
Proof.
  destruct (POPPLER_VERSION_ENCODE_order 22 12 0 23 1 0) as (Hdef & _ & Horder);
    [lia | lia | lia | lia | ].
  split; [apply Hdef; lia | ].
  apply (Horder 221200 230100); reflexivity.
Defined.

(** ** The index across mutations *)

Lemma forEach_ext {A S : Type} (body body' : A -> S -> outcome S) (l : list A) :
  (forall a acc, body a acc = body' a acc) ->
  forall acc, forEach body l acc = forEach body' l acc.
Proof.
  intros Hext. induction l as [|a l IH]; intros acc; [done | ].
  simpl. rewrite Hext. destruct (body' a acc); simpl; [apply IH | done | done].
Qed.

(** The order of the traversal depends on the child lists only. *)
Lemma preorder_insert_shape (heap : gmap addr FormField) a0 node node' :
  heap !! a0 = Some node -> children node' = children node ->
  forall fuel p, preorder fuel (<[a0 := node']> heap) p = preorder fuel heap p.
Proof.
  intros Hnode Hch. induction fuel as [|fuel IH]; intros [b|]; try done.
  simpl. destruct (decide (a0 = b)) as [<- | Hne].
  - rewrite lookup_insert_eq, Hnode, Hch. apply forEach_ext.
    intros c seen. by rewrite IH.
  - rewrite lookup_insert_ne by done. destruct (heap !! b); [ | done].
    apply forEach_ext. intros c seen. by rewrite IH.
Qed.

Lemma preorder_fuel_mono (heap : gmap addr FormField) fuel :
  forall fuel' p l, (fuel <= fuel')%nat ->
    preorder fuel heap p = Done l -> preorder fuel' heap p = Done l.
Proof.
  induction fuel as [|fuel IH]; intros fuel' [a|] l Hle Hrun;
    try (by destruct fuel').
  destruct fuel' as [|fuel']; [lia | ]. simpl in *.
  destruct (heap !! a) as [node|]; [ | done].
  eapply forEach_ext_Done; [ | exact Hrun].
  intros c seen seen' _ (l1 & Hl1 & [= <-])%bind_Done.
  by rewrite (IH fuel' c l1) by (done || lia).
Qed.

Lemma preorderRoots_agree (heap : gmap addr FormField) fuel fuel' roots l l' :
  preorderRoots fuel heap roots = Done l ->
  preorderRoots fuel' heap roots = Done l' -> l = l'.
Proof.
  unfold preorderRoots. intros H H'.
  assert (forall f, (f <= Nat.max fuel fuel')%nat -> forall lf,
             forEach (fun c (seen : list addr) =>
                        l ← preorder f heap c; Done (seen ++ l)%list) roots [] = Done lf ->
             forEach (fun c (seen : list addr) =>
                        l ← preorder (Nat.max fuel fuel') heap c; Done (seen ++ l)%list)
                     roots [] = Done lf) as Hup.
  { intros f Hf lf Hrun. eapply forEach_ext_Done; [ | exact Hrun].
    intros c seen seen' _ (l1 & Hl1 & [= <-])%bind_Done.
    by rewrite (preorder_fuel_mono heap f _ c l1). }
  apply Hup in H; [ | lia]. apply Hup in H'; [ | lia]. congruence.
Qed.

Section IndexStable.
Context {poppler : Collaborators}.

Lemma indexField_union a ff (index : gmap string addr) :
  indexField a ff index = indexField a ff ∅ ∪ index.
Proof.
  unfold indexField.
  destruct (negb (String.eqb (name ff) "") && negb (String.eqb (name ff) (fullName ff)));
    destruct (negb (String.eqb (fullName ff) ""));
    rewrite <- ?insert_union_l, ?(left_id_L ∅ (∪)); done.
Qed.

Lemma indexField_names a ff ff' (index : gmap string addr) :
  name ff' = name ff -> fullName ff' = fullName ff ->
  indexField a ff' index = indexField a ff index.
Proof. unfold indexField. by intros -> ->. Qed.

(** The index a run of visits leaves is a fixed map laid over the index it
    started from. *)
Lemma visitAll_index_union heap l : forall acc,
  (visitAll heap l acc).2 = (visitAll heap l ([], ∅)).2 ∪ acc.2.
Proof.
  induction l as [|a l IH]; intros acc.
  - simpl. by rewrite (left_id_L ∅ (∪)).
  - change (visitAll heap (a :: l) acc)
      with (visitAll heap l (match heap !! a with
                             | Some node => visit a node acc
                             | None => acc
                             end)).
    change (visitAll heap (a :: l) ([], ∅))
      with (visitAll heap l (match heap !! a with
                             | Some node => visit a node ([], ∅)
                             | None => ([], ∅)
                             end)).
    rewrite IH. rewrite (IH (match heap !! a with
                             | Some node => visit a node ([], ∅)
                             | None => ([], ∅)
                             end)).
    rewrite <- (assoc_L (∪)). f_equal.
    destruct (heap !! a) as [node|]; [ | simpl; by rewrite (left_id_L ∅ (∪))].
    unfold visit. destruct (0 <? getNumWidgets node)%nat; simpl.
    + apply indexField_union.
    + by rewrite (left_id_L ∅ (∪)).
Qed.

(** Visiting twice leaves the same index as visiting once. *)
Lemma visitAll_index_twice heap l acc acc' :
  acc'.2 = (visitAll heap l acc).2 ->
  (visitAll heap l acc').2 = (visitAll heap l acc).2.
Proof.
  intros Hacc'. rewrite (visitAll_index_union heap l acc'), Hacc'.
  rewrite (visitAll_index_union heap l acc).
  by rewrite (assoc_L (∪)), (idemp_L (∪)).
Qed.

(** The index the visits leave depends on names and widget counts only. *)
Lemma visitAll_index_insert_shape heap a0 node node' :
  heap !! a0 = Some node -> sameShape node node' ->
  forall l acc acc', acc'.2 = acc.2 ->
    (visitAll (<[a0 := node']> heap) l acc').2 = (visitAll heap l acc).2.
Proof.
  intros Hnode (Hp & Hf & _ & Hw & _). induction l as [|a l IH]; intros acc acc' Hacc.
  - done.
  - change (visitAll ?h (a :: l) ?x)
      with (visitAll h l (match h !! a with
                          | Some node => visit a node x
                          | None => x
                          end)).
    apply IH. destruct (decide (a0 = a)) as [<- | Hne].
    + rewrite lookup_insert_eq, Hnode. unfold visit, getNumWidgets. rewrite Hw.
      destruct (0 <? length (widgets node))%nat; [ | done]. simpl. rewrite Hacc.
      apply indexField_names; unfold makeRecord, recordName, recordFullName; simpl;
        by rewrite ?Hp, ?Hf.
    + rewrite lookup_insert_ne by done. destruct (heap !! a) as [n|]; [ | done].
      unfold visit. destruct (0 <? getNumWidgets n)%nat; [ | done]. simpl.
      by rewrite Hacc.
Qed.

(** Flattening again after one node's data was replaced leaves the index
    that the first flattening left. *)
Lemma reflatten_keeps_index fuel0 fuel' heap roots a node data index0 out1 out2 :
  heap !! a = Some node ->
  forEach (collectFieldsRecursive fuel0 heap) roots ([], index0) = Done out1 ->
  forEach (collectFieldsRecursive fuel' (<[a := withData node data]> heap)) roots
          ([], out1.2) = Done out2 ->
  out2.2 = out1.2.
Proof.
  intros Hnode H1 H2. rewrite roots_preorder in H1, H2.
  apply bind_Done in H1 as (l1 & Hl1 & [= <-]).
  apply bind_Done in H2 as (l2 & Hl2 & [= <-]).
  assert (l2 = l1) as ->.
  { apply (preorderRoots_agree heap fuel' fuel0 roots); [ | done].
    rewrite <- Hl2. unfold preorderRoots. apply forEach_ext. intros c seen.
    by rewrite (preorder_insert_shape heap a node). }
  rewrite (visitAll_index_insert_shape heap a node (withData node data) Hnode
             (sameShape_withData node data) l1
             ([], (visitAll heap l1 ([], index0)).2)
             ([], (visitAll heap l1 ([], index0)).2)) by done.
  by apply visitAll_index_twice.
Qed.

(** After a setter effect on a session in order, a rebuild leaves the
    index as it is. *)
Lemma setterEffect_index_stable fuel' s1 r s2 :
  cacheInOrder s1 -> (doc_ s1 = None \/ fieldsCached_ s1 = true) ->
  setterEffect s1 r -> cacheFormFields fuel' r.2 = Done s2 ->
  fieldMap_ s2 = fieldMap_ r.2 /\ doc_ s2 = doc_ r.2.
Proof.
  intros [_ Hflat] Hvalid Heff Hrun.
  destruct (cacheFormFields_keeps _ _ _ Hrun) as (Hdoc2 & _).
  split; [ | done].
  destruct Heff as [(e & ->) | [-> | (a & node & data & Hnode & ->)]]; simpl in *.
  - destruct Hvalid as [Hn | Hc].
    + rewrite cacheFormFields_no_doc in Hrun by done. by injection Hrun as <-.
    + rewrite cacheFormFields_cached in Hrun by done. by injection Hrun as <-.
  - destruct Hvalid as [Hn | Hc].
    + rewrite cacheFormFields_no_doc in Hrun by done. by injection Hrun as <-.
    + rewrite cacheFormFields_cached in Hrun by done. by injection Hrun as <-.
  - apply deref_Some in Hnode as (doc & Hd & Hnode).
    destruct Hvalid as [Hn | Hc]; [congruence | ].
    specialize (Hflat Hc doc Hd). unfold flattenedFrom in Hflat.
    destruct (storeField_keeps s1 a (withData node data)) as (_ & _ & Hmap & _).
    rewrite (cacheFormFields_rebuild _ _
               (mkPDFDoc (isOk doc) (getErrorCode doc) (getNumPages doc)
                         (getCatalog doc) (getDocInfo doc)
                         (<[a := withData node data]> (fieldHeap doc)))) in Hrun.
    2: done.
    2:{ simpl. unfold storeField. by rewrite Hd. }
    change (formOf (mkPDFDoc _ _ _ (getCatalog doc) _ _)) with (formOf doc) in Hrun.
    destruct (formOf doc) as [form|].
    + destruct Hflat as (fuel0 & index0 & Hfirst).
      simpl in Hrun. rewrite Hmap in Hrun.
      apply bind_Done in Hrun as (out2 & Hsecond & [= <-]). simpl.
      rewrite Hmap.
      by apply (reflatten_keeps_index fuel0 fuel' (fieldHeap doc) (rootFields form)
                  a node data index0 (cachedFields_ s1, fieldMap_ s1) out2).
    + by injection Hrun as <-.
Qed.

(** X22.  Setters do not change what identifiers resolve to.  In any
    session a client can bring about, after [setFieldValue] or
    [setCheckboxValue], whatever they returned, the next rebuild of cache
    and index leaves the index exactly as the setter's own lookup left it:
    every identifier still names the same field, and no entry is added or
    lost. *)
Theorem setters_keep_index (fuel fuel' : nat) (s s2 : Impl) (r : bool * Impl)
    (name : string) :
  reachable s ->
  (exists value, setFieldValue fuel s name value = Done r)
  \/ (exists checked, setCheckboxValue fuel s name checked = Done r) ->
  cacheFormFields fuel' r.2 = Done s2 ->
  fieldMap_ s2 = fieldMap_ r.2
  /\ exists s1, cacheFormFields fuel s = Done s1 /\ fieldMap_ r.2 = fieldMap_ s1.
Proof.
  intros Hreach Hrun Hagain.
  assert (exists s1, cacheFormFields fuel s = Done s1 /\ setterEffect s1 r)
    as (s1 & Hcache & Heff).
  { destruct Hrun as [[value H] | [checked H]].
    - by eapply setFieldValue_effect.
    - by eapply setCheckboxValue_effect. }
  pose proof (cacheFormFields_cacheInOrder _ _ _ (reachable_cacheInOrder s Hreach) Hcache)
    as Hin1.
  destruct (cacheFormFields_keeps _ _ _ Hcache) as (_ & _ & _ & _ & Hvalid).
  split.
  - by destruct (setterEffect_index_stable fuel' s1 r s2).
  - exists s1. split; [done | ].
    destruct Heff as [(e & ->) | [-> | (a & node & data & _ & ->)]]; simpl; try done.
    by destruct (storeField_keeps s1 a (withData node data)) as (_ & _ & -> & _).
Qed.

(** X23.  The last write to a text field wins: in any session a client can
    bring about, when an identifier resolves to a text field, setting it to
    one value and then to another returns true both times, the second time
    on the same field, whose content is then the second value
    re-encoded. *)
Theorem text_last_write_wins (fuel fuel' : nat) (s s1 s2 : Impl)
    (name v1 v2 : string) (a : addr) (node : FormField)
    (content : option GooString) :
  reachable s ->
  cacheFormFields fuel s = Done s1 ->
  fieldMap_ s1 !! name = Some a ->
  deref s1 a = Done node ->
  fieldData node = TextData content ->
  exists s',
    setFieldValue fuel s name v1 = Done (true, s')
    /\ (cacheFormFields fuel' s' = Done s2 ->
        exists s'',
          setFieldValue fuel' s' name v2 = Done (true, s'')
          /\ deref s'' a
             = Done (withData node (TextData (Some (utf8ToUtf16WithBom v2))))).
Proof.
  intros Hreach Hcache Hname Hnode Hdata.
  pose proof (cacheFormFields_cacheInOrder _ _ _ (reachable_cacheInOrder s Hreach) Hcache)
    as Hin1.
  destruct (cacheFormFields_keeps _ _ _ Hcache) as (_ & _ & _ & _ & Hvalid).
  rewrite (setFieldValue_resolved _ _ s1) by done.
  unfold resolved. rewrite Hname, Hnode. simpl.
  unfold applyValue, getType, applyText. rewrite Hdata.
  eexists. split; [reflexivity | ]. intros Hagain.
  destruct (setterEffect_index_stable fuel' s1
              (true, set_fieldsCached false
                       (set_modified true
                          (storeField a
                             (withData node (TextData (Some (utf8ToUtf16WithBom v1))))
                             s1))) s2) as [Hmap Hdoc]; try done.
  { right. right. by exists a, node, (TextData (Some (utf8ToUtf16WithBom v1))). }
  simpl in Hmap, Hdoc.
  destruct (storeField_keeps s1 a
              (withData node (TextData (Some (utf8ToUtf16WithBom v1)))))
    as (_ & _ & Hmap1 & _).
  rewrite (setFieldValue_resolved _ _ s2) by done.
  unfold resolved. rewrite Hmap, Hmap1, Hname.
  rewrite (deref_frame (storeField a
                          (withData node (TextData (Some (utf8ToUtf16WithBom v1)))) s1))
    by done.
  rewrite (deref_storeField s1 a node) by done. simpl.
  eexists. split; [reflexivity | ].
  rewrite (deref_frame (storeField a _ s2)) by done.
  apply (deref_storeField s2 a
           (withData node (TextData (Some (utf8ToUtf16WithBom v1))))).
  rewrite (deref_frame (storeField a
                          (withData node (TextData (Some (utf8ToUtf16WithBom v1)))) s1))
    by done.
  by apply (deref_storeField s1 a node).
Qed.

End IndexStable.

Lemma loaded_reachable : reachable (poppler := Sample.collaborators) Sample.loaded.
Proof.
  apply (reachable_call 0 (CallLoadFromMemory Sample.formBytes "") Impl_new).
  - apply reachable_new.
  - reflexivity.
Defined.

Lemma setters_keep_index_witness :
  fieldMap_ MoreSamples.afterZoeListed = fieldMap_ MoreSamples.afterZoe.2
  /\ exists s1,
       cacheFormFields (poppler := Sample.collaborators) 2 Sample.loaded = Done s1
       /\ fieldMap_ MoreSamples.afterZoe.2 = fieldMap_ s1.
Proof.
  apply (setters_keep_index (poppler := Sample.collaborators) 2 2 Sample.loaded
           MoreSamples.afterZoeListed MoreSamples.afterZoe "first").
  - exact loaded_reachable.
  - left. exists "Zoe". vm_compute. reflexivity.
  - vm_compute. reflexivity.
Defined.

Lemma text_last_write_wins_witness :
  exists s',
    setFieldValue (poppler := Sample.collaborators) 2 Sample.loaded "first" "Zoe"
    = Done (true, s')
    /\ (cacheFormFields (poppler := Sample.collaborators) 2 s'
        = Done MoreSamples.afterZoeListed ->
        exists s'',
          setFieldValue (poppler := Sample.collaborators) 2 s' "first" "Amy"
          = Done (true, s'')
          /\ deref s'' 1%nat
             = Done (withData Sample.first
                       (TextData (Some (Sample.asciiToUtf16WithBom "Amy"))))).
Proof.
  apply (text_last_write_wins (poppler := Sample.collaborators) 2 2 Sample.loaded
           Sample.flattened MoreSamples.afterZoeListed "first" "Zoe" "Amy" 1%nat
           Sample.first (Some "Ann")).
  - exact loaded_reachable.
  - vm_compute. reflexivity.
  - vm_compute. reflexivity.
  - vm_compute. reflexivity.
  - reflexivity.
Defined.

(** The two writes of the last lemma, run. *)
Example text_written_twice :
  (fun r : bool * Impl =>
     (r.1, (fun d => fieldData <$> fieldHeap d !! 1%nat) <$> doc_ r.2))
    <$> setFieldValue (poppler := Sample.collaborators) 2
          MoreSamples.afterZoe.2 "first" "Amy"
  = Done (true, Some (Some (TextData (Some (Sample.asciiToUtf16WithBom "Amy"))))).
Proof. vm_compute. reflexivity. Qed.

(** ** Reading a choice back *)

(** In a single-selection field, after [select] the selected label is the
    one at the index, and the count of selected entries is positive. *)
Lemma select_single_read (choices : list ChoiceOpt) : forall (k : nat) c g,
  choices !! k = Some c -> optionName c = Some g ->
  getSelectedChoice (select false choices k) = Some g
  /\ (0 < getNumSelected (select false choices k))%nat.
Proof.
  unfold select, getNumSelected.
  induction choices as [|c0 rest IH]; intros [|k] c g Hk Hg; simpl in Hk;
    try discriminate.
  - injection Hk as ->. simpl. rewrite Hg. simpl. split; [done | ].
    lia.
  - destruct (IH k c g Hk Hg) as [Hsel Hnum].
    change (alter ?f (S k) (unselectAll (c0 :: rest)))
      with (mkChoiceOpt (optionName c0) false :: alter f k (unselectAll rest)).
    split.
    + simpl. by destruct (optionName c0).
    + rewrite filter_cons_False by done. exact Hnum.
Qed.

Section ChoiceReadBack.
Context {poppler : Collaborators}.

(** [select] changes no label. *)
Lemma choiceLabels_select multiselect (choices : list ChoiceOpt) (k : nat) :
  choiceLabels (select multiselect choices k) = choiceLabels choices.
Proof.
  assert (forall l, choiceLabels (unselectAll l) = choiceLabels l) as Hun.
  { induction l as [|c0 l IH]; simpl; [done | ].
    destruct (optionName c0); by rewrite IH. }
  assert (forall l (i : nat),
             choiceLabels
               (alter (fun c => mkChoiceOpt (optionName c) true) i l)
             = choiceLabels l) as Halter.
  { induction l as [|c0 l IH]; intros [|i]; simpl; try done.
    destruct (optionName c0); [f_equal | ]; apply IH. }
  unfold select. rewrite Halter. by destruct multiselect.
Qed.

(** X24.  On an identifier that resolves to a single-selection choice
    field with an option whose label decodes to the value, [setFieldValue]
    returns true and the field's record afterwards reads exactly that
    value, with the list of options unchanged. *)
Theorem choice_reads_back (fuel : nat) (s s1 : Impl) (name v : string)
    (a : addr) (node : FormField) (choices : list ChoiceOpt) (c : ChoiceOpt) :
  cacheFormFields fuel s = Done s1 ->
  fieldMap_ s1 !! name = Some a ->
  deref s1 a = Done node ->
  fieldData node = ChoiceData false choices ->
  c ∈ choices -> optionMatches v c ->
  exists s' node',
    setFieldValue fuel s name v = Done (true, s')
    /\ deref s' a = Done node'
    /\ value (makeRecord node') = v
    /\ type (makeRecord node') = Choice
    /\ options (makeRecord node') = options (makeRecord node).
Proof.
  intros Hcache Hname Hnode Hdata Hc Hmatch.
  rewrite (setFieldValue_resolved _ _ s1) by done.
  unfold resolved. rewrite Hname, Hnode. simpl.
  unfold applyValue, getType, applyChoice. rewrite Hdata.
  destruct (scanChoices_spec choices v 0)
    as [[_ Hnone] | (k & c' & Hk & (g & Hg & Hdec) & _ & Hres)];
    [by destruct (Hnone c Hc) | ].
  rewrite Hres. replace (0 + Z.of_nat k <? 0) with false by (symmetry; apply Z.ltb_ge; lia).
  replace (Z.to_nat (0 + Z.of_nat k)) with k by lia.
  eexists _, _. split; [reflexivity | ]. split.
  { rewrite (deref_frame (storeField a _ s1)) by done. by eapply deref_storeField. }
  destruct (select_single_read choices k c' g Hk Hg) as [Hsel Hnum].
  unfold makeRecord. simpl. rewrite Hsel, (proj2 (Nat.ltb_lt _ _) Hnum).
  split_and!; [done | done | apply choiceLabels_select].
Qed.

End ChoiceReadBack.

Lemma choice_reads_back_witness :
  exists s' node',
    setFieldValue (poppler := Sample.collaborators) 2 Sample.loaded "color" "blue"
    = Done (true, s')
    /\ deref s' 2%nat = Done node'
    /\ value (makeRecord (poppler := Sample.collaborators) node') = "blue".
Proof.
  destruct (choice_reads_back (poppler := Sample.collaborators) 2 Sample.loaded
              Sample.flattened "color" "blue" 2%nat Sample.color
              [mkChoiceOpt (Some "red") false; mkChoiceOpt (Some "green") true;
               mkChoiceOpt (Some "blue") false]
              (mkChoiceOpt (Some "blue") false))
    as (s' & node' & Hrun & Hnode & Hvalue & _).
  - vm_compute. reflexivity.
  - vm_compute. reflexivity.
  - vm_compute. reflexivity.
  - reflexivity.
  - apply (list_elem_of_lookup_2 _ 2%nat). reflexivity.
  - exists "blue". split; reflexivity.
  - exists s', node'. split; [exact Hrun | ]. split; [exact Hnode | exact Hvalue].
Defined.

(** ** Through the wrapper, and without a form *)

Section Wrapped.
Context {poppler : Collaborators}.

(** X25.  The wrapper's [getFieldByName] returns null exactly when no
    listed record has the identifier as name or full name; otherwise it
    returns the object of the first such record, whose type member is one
    of the fixed tags and decodes to the record's type. *)
Theorem wrapper_getFieldByName (fuel : nat) (s s' : Impl) (n : string)
    (found : option PdfFillerJS.FieldObject) :
  PdfFillerJS.getFieldByName fuel s n = Done (found, s') ->
  match found with
  | None => forall g, g ∈ cachedFields_ s' -> name g <> n /\ fullName g <> n
  | Some obj =>
      exists (i : nat) r,
        cachedFields_ s' !! i = Some r /\ obj = PdfFillerJS.toObject r
        /\ (PdfFillerJS.js_name obj = n \/ PdfFillerJS.js_fullName obj = n)
        /\ (forall (j : nat) g, (j < i)%nat -> cachedFields_ s' !! j = Some g ->
                                name g <> n /\ fullName g <> n)
        /\ stringToFieldType (PdfFillerJS.js_type obj) = type r
  end.
Proof.
  unfold PdfFillerJS.getFieldByName.
  intros ([r s1] & Hrun & [= <- <-])%bind_Done. simpl.
  unfold getFieldByName in Hrun.
  apply bind_Done in Hrun as (s2 & Hcache & [= <- <-]).
  destruct (findRecord (cachedFields_ s2) n) as [r|] eqn:Hfind.
  - apply findRecord_Some in Hfind as (i & Hi & Hname & Hfirst).
    exists i, r. split_and!; try done. simpl. by destruct (type r).
  - by apply findRecord_None.
Qed.

(** X26.  In any session a client can bring about that holds a document
    without a form, listing the fields returns the empty list, with any
    fuel: no traversal takes place. *)
Theorem no_form_lists_nothing (fuel : nat) (s : Impl) (doc : PDFDoc) :
  reachable s -> doc_ s = Some doc -> hasAcroForm s = false ->
  exists s', getFormFields fuel s = Done ([], s').
Proof.
  intros Hreach Hdoc Hform.
  assert (formOf doc = None) as Hnone.
  { unfold hasAcroForm in Hform. rewrite getForm_formOf, Hdoc in Hform. simpl in Hform.
    by destruct (formOf doc). }
  unfold getFormFields. destruct (fieldsCached_ s) eqn:Hc.
  - rewrite cacheFormFields_cached by done. simpl.
    destruct (reachable_cacheInOrder s Hreach) as [_ Hflat].
    specialize (Hflat Hc doc Hdoc). unfold flattenedFrom in Hflat.
    rewrite Hnone in Hflat. rewrite Hflat. by eexists.
  - rewrite (cacheFormFields_rebuild _ _ doc), Hnone by done. simpl. by eexists.
Qed.

End Wrapped.

Lemma wrapper_getFieldByName_witness :
  exists (i : nat) r,
    cachedFields_ Sample.flattened !! i = Some r
    /\ PdfFillerJS.toObject (makeRecord (poppler := Sample.collaborators) Sample.first)
       = PdfFillerJS.toObject r
    /\ stringToFieldType
         (PdfFillerJS.js_type
            (PdfFillerJS.toObject (makeRecord (poppler := Sample.collaborators)
                                              Sample.first)))
       = type r.
Proof.
  destruct (wrapper_getFieldByName (poppler := Sample.collaborators) 2 Sample.loaded
              Sample.flattened "first"
              (Some (PdfFillerJS.toObject
                       (makeRecord (poppler := Sample.collaborators) Sample.first))))
    as (i & r & Hi & Hobj & _ & _ & Htype).
  - vm_compute. reflexivity.
  - exists i, r. split; [exact Hi | ]. split; [exact Hobj | exact Htype].
Defined.

Lemma no_form_lists_nothing_witness :
  exists s',
    getFormFields (poppler := Sample.collaborators) 0
      (loadFromMemory (poppler := Sample.collaborators)
         Impl_new Sample.plainBytes "").2
    = Done ([], s').
Proof.
  apply (no_form_lists_nothing (poppler := Sample.collaborators) 0
           (loadFromMemory (poppler := Sample.collaborators)
              Impl_new Sample.plainBytes "").2 Sample.plainDoc).
  - apply (reachable_call 0 (CallLoadFromMemory Sample.plainBytes "") Impl_new).
    + apply reachable_new.
    + reflexivity.
  - reflexivity.
  - reflexivity.
Defined.

(** ** What only a load changes *)

Lemma sameDocInfo_eq (s s' : Impl) : doc_ s' = doc_ s -> sameDocInfo s s'.
Proof. unfold sameDocInfo. intros ->. by destruct (doc_ s). Qed.

Lemma sameDocInfo_trans (s1 s2 s3 : Impl) :
  sameDocInfo s1 s2 -> sameDocInfo s2 s3 -> sameDocInfo s1 s3.
Proof.
  unfold sameDocInfo.
  destruct (doc_ s1), (doc_ s2), (doc_ s3); try done.
  intros (-> & -> & ->) (-> & -> & ->). done.
Qed.

Lemma setterEffect_sameDocInfo (s : Impl) (r : bool * Impl) :
  setterEffect s r -> sameDocInfo s r.2.
Proof.
  intros [(e & ->) | [-> | (a & node & data & Hnode & ->)]]; simpl.
  - by apply sameDocInfo_eq.
  - by apply sameDocInfo_eq.
  - apply deref_Some in Hnode as (doc & Hd & _).
    unfold sameDocInfo, storeField. rewrite Hd. simpl. done.
Qed.

Section Metadata.
Context {poppler : Collaborators}.

Lemma sameDocInfo_getters (s s' : Impl) :
  sameDocInfo s s' ->
  getPageCount s' = getPageCount s /\ getTitle s' = getTitle s
  /\ getAuthor s' = getAuthor s /\ hasAcroForm s' = hasAcroForm s.
Proof.
  unfold sameDocInfo, getPageCount, getTitle, getAuthor, hasAcroForm.
  rewrite !getForm_formOf. unfold formOf.
  destruct (doc_ s) as [doc|], (doc_ s') as [doc'|]; try done.
  intros (Hpages & Hcat & Hinfo). simpl. by rewrite Hpages, Hcat, Hinfo.
Qed.

Lemma setter_sameDocInfo (fuel : nat) (s s1 : Impl) (r : bool * Impl) :
  cacheFormFields fuel s = Done s1 -> setterEffect s1 r -> sameDocInfo s r.2.
Proof.
  intros Hcache Heff.
  destruct (cacheFormFields_keeps _ _ _ Hcache) as (Hd & _).
  apply (sameDocInfo_trans s s1); [by apply sameDocInfo_eq | ].
  by apply setterEffect_sameDocInfo.
Qed.

(** X27.  Only a load changes what [getPageCount], [getTitle], [getAuthor]
    and [hasAcroForm] answer: after any other public operation that ends,
    setters and batches included, the four answers are what they were
    before it. *)
Theorem only_a_load_changes_metadata (fuel : nat) (c : Call) (s s' : Impl) :
  (forall data password, c <> CallLoadFromMemory data password) ->
  (forall path password, c <> CallLoadFromFile path password) ->
  exec fuel c s = Done s' ->
  getPageCount s' = getPageCount s /\ getTitle s' = getTitle s
  /\ getAuthor s' = getAuthor s /\ hasAcroForm s' = hasAcroForm s.
Proof.
  intros Hmem Hfile Hexec. apply sameDocInfo_getters. revert Hexec.
  destruct c; simpl.
  - by destruct (Hmem data password).
  - by destruct (Hfile path password).
  - intros (r & Hrun & ->)%fmap_Done. unfold getFormFields in Hrun.
    apply bind_Done in Hrun as (s1 & Hcache & [= <-]). simpl.
    destruct (cacheFormFields_keeps _ _ _ Hcache) as (Hd & _).
    by apply sameDocInfo_eq.
  - intros (r & Hrun & ->)%fmap_Done. unfold getFieldByName in Hrun.
    apply bind_Done in Hrun as (s1 & Hcache & [= <-]). simpl.
    destruct (cacheFormFields_keeps _ _ _ Hcache) as (Hd & _).
    by apply sameDocInfo_eq.
  - intros (r & (s1 & Hcache & Heff)%setFieldValue_effect & ->)%fmap_Done.
    by apply (setter_sameDocInfo fuel s s1).
  - intros (r & (s1 & Hcache & Heff)%setCheckboxValue_effect & ->)%fmap_Done.
    by apply (setter_sameDocInfo fuel s s1).
  - intros (r & Hrun & ->)%fmap_Done. unfold setFieldValues in Hrun.
    apply (forEach_invariant
             (fun acc : bool * Impl => sameDocInfo s acc.2)) in Hrun;
      [done | | by apply sameDocInfo_eq].
    intros nv acc1 acc2 _ Hacc (r1 & (s1 & Hcache & Heff)%setFieldValue_effect
                                & [= <-])%bind_Done.
    simpl. apply (sameDocInfo_trans s acc1.2); [done | ].
    by apply (setter_sameDocInfo fuel acc1.2 s1).
  - intros [= <-]. apply sameDocInfo_eq. unfold flattenForm.
    by destruct (doc_ s) eqn:Hd; [destruct (getForm s) | ].
  - intros [= <-]. apply sameDocInfo_eq. unfold saveToMemory.
    destruct (doc_ s) as [doc|] eqn:Hd; [ | done].
    destruct (negb _); [done | ]. by destruct (saveAs doc _).2.
  - intros [= <-]. apply sameDocInfo_eq. unfold saveToFile, saveToMemory.
    destruct (doc_ s) as [doc|] eqn:Hd; [ | done].
    destruct (negb _); [done | ].
    destruct (saveAs doc _).2 as [[|b out]|]; simpl; try done.
    by destruct (writeFile _ _).
  - intros [= <-]. apply sameDocInfo_eq. unfold renderPageToPng.
    destruct (doc_ s) as [doc|] eqn:Hd; [ | done].
    destruct (_ || _); [done | ].
    destruct (displayPage _ _ _); [ | done]. by destruct (encodePng _).
Qed.

End Metadata.

Lemma only_a_load_changes_metadata_witness :
  getPageCount MoreSamples.afterZoe.2 = getPageCount Sample.loaded
  /\ getTitle (poppler := Sample.collaborators) MoreSamples.afterZoe.2
     = getTitle (poppler := Sample.collaborators) Sample.loaded
  /\ getAuthor (poppler := Sample.collaborators) MoreSamples.afterZoe.2
     = getAuthor (poppler := Sample.collaborators) Sample.loaded
  /\ hasAcroForm MoreSamples.afterZoe.2 = hasAcroForm Sample.loaded.
Proof.
  apply (only_a_load_changes_metadata (poppler := Sample.collaborators) 2
           (CallSetFieldValue "first" "Zoe") Sample.loaded MoreSamples.afterZoe.2).
  - discriminate.
  - discriminate.
  - vm_compute. reflexivity.
Defined.

(** ** Dirty flag, cache and index *)

Lemma indexField_keys a ff (index : gmap string addr) n :
  is_Some (indexField a ff index !! n) <->
  is_Some (index !! n) \/ (n <> "" /\ (fullName ff = n \/ name ff = n)).
Proof.
  split.
  - intros [b Hb]. apply indexField_entry in Hb as [Hold | (_ & Hne & Hkey)].
    + left. by exists b.
    + right. split; [done | ]. by destruct Hkey as [-> | ->]; [left | right].
  - intros [Hold | (Hne & [<- | <-])].
    + by apply indexField_mono.
    + by apply indexField_covers.
    + destruct (decide (name ff = fullName ff)) as [Heq | Hdiff].
      * rewrite Heq. apply indexField_covers. by rewrite <- Heq.
      * by apply indexField_covers.
Qed.

Section Consistency.
Context {poppler : Collaborators}.

Lemma visitAll_invariant (P : list PdfFormField * gmap string addr -> Prop)
    (heap : gmap addr FormField) (l : list addr) :
  (forall a node acc, heap !! a = Some node -> P acc -> P (visit a node acc)) ->
  forall acc, P acc -> P (visitAll heap l acc).
Proof.
  intros Hstep. induction l as [|a l IH]; intros acc Hacc; [done | ].
  change (visitAll heap (a :: l) acc)
    with (visitAll heap l (match heap !! a with
                           | Some node => visit a node acc
                           | None => acc
                           end)).
  apply IH. destruct (heap !! a) as [node|] eqn:Hnode; [by apply Hstep | done].
Qed.

Lemma visit_mutuallyConsistent a node acc :
  mutuallyConsistent acc.1 acc.2 ->
  mutuallyConsistent (visit a node acc).1 (visit a node acc).2.
Proof.
  intros Hacc. unfold visit.
  destruct (0 <? getNumWidgets node)%nat; [ | done]. simpl.
  intros n. rewrite indexField_keys, (Hacc n). split.
  - intros [(Hne & r & Hr & Hkey) | (Hne & Hkey)]; (split; [done | ]).
    + exists r. split; [ | done]. apply elem_of_app. by left.
    + exists (makeRecord node). split; [ | done].
      apply elem_of_app. right. by apply list_elem_of_singleton.
  - intros (Hne & r & [Hr | ->%list_elem_of_singleton]%elem_of_app & Hkey).
    + left. split; [done | ]. by exists r.
    + by right.
Qed.

(** The records and the entries of one traversal are mutually
    consistent. *)
Lemma recordsOf_indexOf_consistent (heap : gmap addr FormField) (visited : list addr) :
  mutuallyConsistent (recordsOf heap visited) (indexOf heap visited).
Proof.
  unfold indexOf.
  replace (recordsOf heap visited) with (visitAll heap visited ([], ∅)).1
    by by rewrite visitAll_records.
  apply visitAll_invariant.
  - intros a node acc _. apply visit_mutuallyConsistent.
  - intros n. simpl. rewrite lookup_empty. split.
    + by intros [b Hb].
    + intros (_ & r & Hr & _). by apply elem_of_nil in Hr.
Qed.

(** Every entry of one traversal addresses the widget-bearing node that
    bears the key. *)
Lemma indexOf_entries (heap : gmap addr FormField) (visited : list addr) n a :
  indexOf heap visited !! n = Some a -> entryOf heap n a.
Proof.
  unfold indexOf. revert n a.
  apply (visitAll_invariant
           (fun acc => forall n a, acc.2 !! n = Some a -> entryOf heap n a)).
  - intros b node acc Hnode Hacc n a. unfold visit.
    destruct (0 <? getNumWidgets node)%nat eqn:Hw; [ | apply Hacc]. simpl.
    intros [Hold | (-> & Hne & Hkey)]%indexField_entry; [by apply Hacc | ].
    exists node. split_and!; try done. by apply Nat.ltb_lt.
  - intros n a. simpl. by rewrite lookup_empty.
Qed.

(** A cache that is marked valid for a held document is valid for it. *)
Lemma cacheInOrder_validFor (s : Impl) (doc : PDFDoc) :
  cacheInOrder s -> fieldsCached_ s = true -> doc_ s = Some doc ->
  validFor doc (cachedFields_ s) (fieldMap_ s).
Proof.
  intros [_ Hflat] Hc Hdoc. specialize (Hflat Hc doc Hdoc).
  unfold flattenedFrom in Hflat. unfold validFor, traversalOf.
  destruct (formOf doc) as [form|].
  - destruct Hflat as (fuel & index0 & Hrun). rewrite roots_preorder in Hrun.
    apply bind_Done in Hrun as (visited & Hvisited & [= Hboth]).
    exists visited, index0.
    assert (cachedFields_ s = recordsOf (fieldHeap doc) visited) as Hrecords.
    { change (cachedFields_ s) with (cachedFields_ s, fieldMap_ s).1.
      rewrite <- Hboth. by rewrite visitAll_records. }
    split_and!.
    + by exists fuel.
    + done.
    + change (fieldMap_ s) with (cachedFields_ s, fieldMap_ s).2.
      rewrite <- Hboth. apply visitAll_index_union.
    + rewrite Hrecords. apply recordsOf_indexOf_consistent.
    + apply indexOf_entries.
  - exists [], (fieldMap_ s). split_and!; try done.
    + unfold indexOf. simpl. by rewrite (left_id_L ∅ (∪)).
    + rewrite Hflat. apply (recordsOf_indexOf_consistent (fieldHeap doc) []).
Qed.

(** A push button that was resolved after the rebuild: the cache is
    marked valid. *)
Lemma pushButtonAt_valid fuel s s' name :
  cacheFormFields fuel s = Done s' -> pushButtonAt s' name ->
  modified_ s' = modified_ s /\ fieldsCached_ s' = true.
Proof.
  intros Hcache (a & node & st & _ & Hnode & _).
  destruct (cacheFormFields_keeps _ _ _ Hcache) as (_ & _ & Hm & _ & Hvalid).
  split; [done | ].
  apply deref_Some in Hnode as (doc & Hd & _).
  destruct Hvalid as [Hnone | Hc]; [congruence | done].
Qed.

(** C2 (as amended).  In every session a client can bring about:
    every cached record is covered by the index; while the cache is marked
    valid and a document is held, the cache is the flattening of that
    document as it is, and the index is the entries of that traversal,
    which are mutually consistent with the cache and address the nodes the
    records were made from, laid over older entries; [setFieldValue] and
    [setCheckboxValue], when they return true, have set the dirty flag and
    cleared the validity flag that guards cache and index together, unless
    the identifier names a push button, in which case the session is the
    one the lookup left, with the dirty flag as before the call and the
    cache marked valid; and a listing of the fields leaves the cache marked
    valid and returns the flattening of the document as it then is. *)
Theorem successful_mutation_invalidates (s : Impl) :
  reachable s ->
  indexCovers (cachedFields_ s) (fieldMap_ s)
  /\ (forall doc, fieldsCached_ s = true -> doc_ s = Some doc ->
        validFor doc (cachedFields_ s) (fieldMap_ s))
  /\ (forall fuel name value s',
        setFieldValue fuel s name value = Done (true, s') ->
        (modified_ s' = true /\ fieldsCached_ s' = false)
        \/ (cacheFormFields fuel s = Done s' /\ pushButtonAt s' name
            /\ modified_ s' = modified_ s /\ fieldsCached_ s' = true))
  /\ (forall fuel name checked s',
        setCheckboxValue fuel s name checked = Done (true, s') ->
        (modified_ s' = true /\ fieldsCached_ s' = false)
        \/ (cacheFormFields fuel s = Done s' /\ pushButtonAt s' name
            /\ modified_ s' = modified_ s /\ fieldsCached_ s' = true))
  /\ (forall fuel fields s' doc,
        getFormFields fuel s = Done (fields, s') -> doc_ s = Some doc ->
        fieldsCached_ s' = true /\ doc_ s' = Some doc
        /\ cachedFields_ s' = fields
        /\ validFor doc fields (fieldMap_ s')
        /\ indexCovers fields (fieldMap_ s')).
Proof.
  intros Hreach. pose proof (reachable_cacheInOrder s Hreach) as Hin.
  split_and!.
  - by destruct Hin.
  - intros doc Hc Hdoc. by apply cacheInOrder_validFor.
  - intros fuel name value s' Hrun.
    destruct (cacheFormFields fuel s) as [s1| |] eqn:Hcache;
      [ | unfold setFieldValue, findFormField in Hrun; by rewrite Hcache in Hrun .. ].
    rewrite (setFieldValue_resolved _ _ s1) in Hrun by done.
    apply setter_true in Hrun as [Hflags | [-> Hpush]]; [by left | | | ].
    + right. destruct (pushButtonAt_valid _ _ _ _ Hcache Hpush). by split_and!.
    + intros a node. apply applyValue_effect.
    + intros a node. apply applyValue_same.
  - intros fuel name checked s' Hrun.
    destruct (cacheFormFields fuel s) as [s1| |] eqn:Hcache;
      [ | unfold setCheckboxValue, setButtonFieldValue, findFormField in Hrun;
          by rewrite Hcache in Hrun .. ].
    rewrite (setCheckboxValue_resolved _ _ s1) in Hrun by done.
    apply setter_true in Hrun as [Hflags | [-> Hpush]]; [by left | | | ].
    + right. destruct (pushButtonAt_valid _ _ _ _ Hcache Hpush). by split_and!.
    + intros a node. apply applyButton_effect.
    + intros a node. apply applyButton_same.
  - intros fuel fields s' doc Hrun Hdoc. unfold getFormFields in Hrun.
    apply bind_Done in Hrun as (s1 & Hcache & [= <- <-]).
    destruct (cacheFormFields_keeps _ _ _ Hcache) as (Hd & _ & _ & _ & Hvalid).
    assert (fieldsCached_ s1 = true) as Hc.
    { destruct Hvalid as [Hnone | Hc]; [congruence | done]. }
    assert (doc_ s1 = Some doc) as Hd1 by congruence.
    pose proof (cacheFormFields_cacheInOrder _ _ _ Hin Hcache) as Hin1.
    split_and!; try done.
    + by apply cacheInOrder_validFor.
    + by destruct Hin1.
Qed.

End Consistency.

Lemma successful_mutation_invalidates_witness :
  validFor (poppler := Sample.collaborators) Sample.formDoc
           (cachedFields_ Sample.flattened) (fieldMap_ Sample.flattened)
  /\ exists s',
       setFieldValue (poppler := Sample.collaborators) 2 Sample.flattened "first" "Zoe"
       = Done (true, s')
       /\ ((modified_ s' = true /\ fieldsCached_ s' = false)
           \/ (cacheFormFields (poppler := Sample.collaborators) 2 Sample.flattened
               = Done s'
               /\ pushButtonAt s' "first"
               /\ modified_ s' = modified_ Sample.flattened
               /\ fieldsCached_ s' = true)).
Proof.
  destruct (successful_mutation_invalidates (poppler := Sample.collaborators)
              Sample.flattened flattened_reachable) as (_ & Hvalid & Hset & _).
  split; [apply Hvalid; reflexivity | ].
  eexists. split; [vm_compute; reflexivity | ].
  apply (Hset 2%nat "first" "Zoe"). vm_compute. reflexivity.
Defined.

(** C2 (as stated) fails in both parts.  [setCheckboxValue] on the push
    button [submit] returns true, and the session is the one the lookup
    left: the dirty flag is clear and the cache, which was not marked valid
    before the call, is marked valid.  And after the form document was
    listed and the document without a form was loaded and listed, the
    cache is marked valid and empty while the index still holds the eight
    entries of the first document. *)
Lemma success_without_invalidation :
  (fieldsCached_ Sample.loaded = false
   /\ setCheckboxValue (poppler := Sample.collaborators) 2 Sample.loaded "submit" true
      = Done (true, Sample.flattened)
   /\ modified_ Sample.flattened = false
   /\ fieldsCached_ Sample.flattened = true)
  /\ (reachable (poppler := Sample.collaborators) MoreSamples.relisted
      /\ doc_ MoreSamples.relisted = Some Sample.plainDoc
      /\ fieldsCached_ MoreSamples.relisted = true
      /\ cachedFields_ MoreSamples.relisted = []
      /\ fieldMap_ MoreSamples.relisted !! "person.first" = Some 1%nat
      /\ ~ mutuallyConsistent (cachedFields_ MoreSamples.relisted)
                              (fieldMap_ MoreSamples.relisted)).
Proof.
  split; [split_and!; vm_compute; reflexivity | ].
  split_and!; try (vm_compute; reflexivity).
  - apply (reachable_call 2 CallGetFormFields
             (loadFromMemory (poppler := Sample.collaborators)
                Sample.flattened Sample.plainBytes "").2).
    + apply (reachable_call 0 (CallLoadFromMemory Sample.plainBytes "")
               Sample.flattened); [exact flattened_reachable | reflexivity].
    + vm_compute. reflexivity.
  - intros Hcons. destruct (proj1 (Hcons "person.first")) as (_ & r & Hr & _).
    + exists 1%nat. vm_compute. reflexivity.
    + change (cachedFields_ MoreSamples.relisted) with (@nil PdfFormField) in Hr.
      by apply elem_of_nil in Hr.
Qed.
